(** * TeensyLogicAnalyzer: the incremental instruction decoder

    A shallow embedding of [insn_decode.c], [insn_6502.c], [insn_6800.c],
    [insn_6809.c] and [insn_z80.c], and the properties of the decode
    session that follow from the code.

    Conventions of the embedding.
    - C integers are [Z]; every conversion of the source is written out
      ([to_u8], [to_s8], [to_u16], [to_s16], [to_u32], [to_s32]).  [int] is
      32 bits wide, as on the Teensy 4.1 the program is built for.
    - [uint8_t bytes[8]] is a [list Z] read with [byte_at] and written with
      [byte_store].
    - [char insn_string[28]] is the sequence of characters held by the
      array, terminator and stale characters after it included; [c_str]
      is the C string it denotes.  The bound of 28 is not enforced: a
      write past it, which is undefined in C, extends the sequence.
    - The function pointer [next_state] is the tag of the routine it
      points to; the global [cpu] is a section variable. *)

From Stdlib Require Import ZArith List String Ascii Bool Lia.
From Stdlib Require DecimalString HexadecimalString.
Import ListNotations.

Open Scope string_scope.
Open Scope Z_scope.

(** ** C integer conversions *)

Definition to_u8 (z : Z) : Z := z mod 256.
Definition to_u16 (z : Z) : Z := z mod 65536.
Definition to_u32 (z : Z) : Z := z mod 4294967296.

Definition to_s8 (z : Z) : Z :=
  let u := to_u8 z in if u <? 128 then u else u - 256.
Definition to_s16 (z : Z) : Z :=
  let u := to_u16 z in if u <? 32768 then u else u - 65536.
Definition to_s32 (z : Z) : Z :=
  let u := to_u32 z in if u <? 2147483648 then u else u - 4294967296.

(** ** printf conversions *)

Definition NUL : ascii := Ascii.zero.

Fixpoint repeat_char (c : ascii) (n : nat) : string :=
  match n with
  | O => EmptyString
  | S n' => String c (repeat_char c n')
  end.

(** Minimum field width, right-justified ([%04X]) and left-justified
    ([%-4d]). *)
Definition pad_left (c : ascii) (width : nat) (s : string) : string :=
  repeat_char c (width - String.length s) ++ s.

Definition pad_right (c : ascii) (width : nat) (s : string) : string :=
  s ++ repeat_char c (width - String.length s).

Definition upcase (c : ascii) : ascii :=
  let n := nat_of_ascii c in
  if ((97 <=? n) && (n <=? 122))%nat then ascii_of_nat (n - 32) else c.

Fixpoint upcase_string (s : string) : string :=
  match s with
  | EmptyString => EmptyString
  | String c s' => String (upcase c) (upcase_string s')
  end.

(** [%d] of an [int]. *)
Definition fmt_d (z : Z) : string :=
  DecimalString.NilZero.string_of_int (Z.to_int z).

(** [%u] of an [unsigned]. *)
Definition fmt_u (z : Z) : string :=
  DecimalString.NilZero.string_of_uint (N.to_uint (Z.to_N z)).

(** [%-4d] and [%-3d]. *)
Definition fmt_ld (width : nat) (z : Z) : string :=
  pad_right " " width (fmt_d z).

(** [%02X], [%04X] and [%04lX] of a value already converted to
    [unsigned]: upper-case digits, zero-filled to AT LEAST [width]. *)
Definition fmt_X (width : nat) (z : Z) : string :=
  pad_left "0" width
    (upcase_string (HexadecimalString.NilZero.string_of_uint (N.to_hex_uint (Z.to_N z)))).

(** ** Character buffers *)

Definition is_nul (c : ascii) : bool := Ascii.eqb c NUL.

(** The C string held by a buffer: the characters before the first
    terminator. *)
Fixpoint c_str (buf : string) : string :=
  match buf with
  | EmptyString => EmptyString
  | String c r => if is_nul c then EmptyString else String c (c_str r)
  end.

Definition strlen (buf : string) : nat := String.length (c_str buf).

(** The buffer from offset [n] on (pointer arithmetic [buf + n]). *)
Fixpoint buf_from (n : nat) (buf : string) : string :=
  match n, buf with
  | O, _ => buf
  | S _, EmptyString => EmptyString
  | S n', String _ r => buf_from n' r
  end.

(** [memcpy(buf, src, strlen src)]: the characters of [src] replace the
    first characters of [buf]. *)
Fixpoint overwrite (src buf : string) : string :=
  match src with
  | EmptyString => buf
  | String c src' =>
      String c (overwrite src' (match buf with
                                | EmptyString => EmptyString
                                | String _ r => r
                                end))
  end.

(** [memcpy(buf + pos, src, strlen src)]. *)
Fixpoint buf_write (buf : string) (pos : nat) (src : string) : string :=
  match pos with
  | O => overwrite src buf
  | S p =>
      match buf with
      | EmptyString => String NUL (buf_write EmptyString p src)
      | String c r => String c (buf_write r p src)
      end
  end.

(** [strcpy(buf + pos, s)] and [sprintf(buf + pos, ...)] with the text
    [s]: the text and its terminator are stored. *)
Definition strcpy_at (buf : string) (pos : nat) (s : string) : string :=
  buf_write buf pos (s ++ String NUL EmptyString).

Definition strcpy (buf : string) (s : string) : string := strcpy_at buf 0 s.

(** [strstr(buf, needle)] as an offset into [buf]. *)
Definition strstr (buf needle : string) : option nat :=
  String.index 0 needle (c_str buf).

(** ** Byte arrays *)

Definition byte_at (buf : list Z) (i : Z) : Z := nth (Z.to_nat i) buf 0.

Fixpoint list_store (buf : list Z) (i : nat) (v : Z) : list Z :=
  match buf, i with
  | [], _ => []
  | _ :: r, O => v :: r
  | x :: r, S i' => x :: list_store r i' v
  end.

(** [buf[i] = v] for a [uint8_t] array; an index outside the array, which
    is undefined in C, stores nothing. *)
Definition byte_store (buf : list Z) (i : Z) (v : Z) : list Z :=
  if i <? 0 then buf else list_store buf (Z.to_nat i) (to_u8 v).

(** The helpers of [insn_decode.h]. *)
Definition read_u16le (buf : list Z) (i : Z) : Z :=
  to_u16 (Z.lor (byte_at buf i) (Z.shiftl (byte_at buf (i + 1)) 8)).

Definition read_s16le (buf : list Z) (i : Z) : Z := to_s16 (read_u16le buf i).

Definition read_u16be (buf : list Z) (i : Z) : Z :=
  to_u16 (Z.lor (Z.shiftl (byte_at buf i) 8) (byte_at buf (i + 1))).

Definition read_s16be (buf : list Z) (i : Z) : Z := to_s16 (read_u16be buf i).

(** ** [tla.h] and [insn_decode.h] *)

Inductive cpu_t : Set :=
  cpu_none | cpu_6502 | cpu_65c02 | cpu_6800 | cpu_6809 | cpu_6809e | cpu_z80.

Definition cpu_eqb (a b : cpu_t) : bool :=
  match a, b with
  | cpu_none, cpu_none | cpu_6502, cpu_6502 | cpu_65c02, cpu_65c02
  | cpu_6800, cpu_6800 | cpu_6809, cpu_6809 | cpu_6809e, cpu_6809e
  | cpu_z80, cpu_z80 => true
  | _, _ => false
  end.

(** [addrmode_t]: the source compares and does arithmetic on the
    enumerators, so they are integers here. *)
Definition addrmode_t : Set := Z.

Definition am_invalid : addrmode_t := -1.

Definition am6809_first : addrmode_t := 0.
Definition am6809_inherent : addrmode_t := 0.
Definition am6809_direct : addrmode_t := 1.
Definition am6809_extended : addrmode_t := 2.
Definition am6809_rel8 : addrmode_t := 3.
Definition am6809_rel16 : addrmode_t := 4.
Definition am6809_imm8 : addrmode_t := 5.
Definition am6809_imm16 : addrmode_t := 6.
Definition am6809_zero_off : addrmode_t := 7.
Definition am6809_zero_off_ind : addrmode_t := 8.
Definition am6809_const_off5 : addrmode_t := 9.
Definition am6809_const_off8 : addrmode_t := 10.
Definition am6809_const_off8_ind : addrmode_t := 11.
Definition am6809_const_off16 : addrmode_t := 12.
Definition am6809_const_off16_ind : addrmode_t := 13.
Definition am6809_acc_off : addrmode_t := 14.
Definition am6809_acc_off_ind : addrmode_t := 15.
Definition am6809_post_inc1 : addrmode_t := 16.
Definition am6809_post_inc2 : addrmode_t := 17.
Definition am6809_post_inc2_ind : addrmode_t := 18.
Definition am6809_pre_dec1 : addrmode_t := 19.
Definition am6809_pre_dec2 : addrmode_t := 20.
Definition am6809_pre_dec2_ind : addrmode_t := 21.
Definition am6809_pcrel8 : addrmode_t := 22.
Definition am6809_pcrel8_ind : addrmode_t := 23.
Definition am6809_pcrel16 : addrmode_t := 24.
Definition am6809_pcrel16_ind : addrmode_t := 25.
Definition am6809_extended_ind : addrmode_t := 26.
Definition am6809_exg_tfr : addrmode_t := 27.
Definition am6809_psh_pul : addrmode_t := 28.
Definition am6809_last : addrmode_t := 28.

Definition am6502_first : addrmode_t := 29.
Definition am6502_implied : addrmode_t := 29.
Definition am6502_u8 : addrmode_t := 30.
Definition am6502_u16 : addrmode_t := 31.
Definition am6502_rel8 : addrmode_t := 32.
Definition am6502_last : addrmode_t := 32.

Definition am6800_first : addrmode_t := 33.
Definition am6800_inherent : addrmode_t := 33.
Definition am6800_rel : addrmode_t := 34.
Definition am6800_indexed : addrmode_t := 35.
Definition am6800_imm8 : addrmode_t := 36.
Definition am6800_imm16 : addrmode_t := 37.
Definition am6800_direct : addrmode_t := 38.
Definition am6800_extended : addrmode_t := 39.
Definition am6800_last : addrmode_t := 39.

Definition amz80_first : addrmode_t := 40.
Definition amz80_implied : addrmode_t := 40.
Definition amz80_u8 : addrmode_t := 41.
Definition amz80_u16 : addrmode_t := 42.
Definition amz80_disp8 : addrmode_t := 43.
Definition amz80_pcrel8 : addrmode_t := 44.
Definition amz80_last : addrmode_t := 44.

(** [am] is one of the enumerators [l] (a run of [case] labels, or a
    chain of [==] joined by [||]). *)
Definition am_in (am : addrmode_t) (l : list addrmode_t) : bool :=
  existsb (Z.eqb am) l.

Definition am6809_indirect_p (am : addrmode_t) : bool :=
  am_in am [am6809_zero_off_ind; am6809_const_off8_ind;
            am6809_const_off16_ind; am6809_acc_off_ind;
            am6809_post_inc2_ind; am6809_pre_dec2_ind;
            am6809_pcrel8_ind; am6809_pcrel16_ind;
            am6809_extended_ind]%list.

Inductive decode_state_t : Set := ds_idle | ds_fetching | ds_complete.

Definition decode_state_eqb (a b : decode_state_t) : bool :=
  match a, b with
  | ds_idle, ds_idle | ds_fetching, ds_fetching | ds_complete, ds_complete => true
  | _, _ => false
  end.

Definition INSN_DECODE_MAXBYTES : Z := 8.
Definition INSN_DECODE_MAXSTRING : nat := 28.

(** What [next_state] can point to. *)
Inductive next_state_fn : Set :=
  | ns_6502 | ns_6800 | ns_6809 | ns_z80.

Record insn_decode : Type := mk_insn_decode {
  state : decode_state_t;
  insn_address : Z;
  resolved_address : Z;
  resolved_address_valid : bool;
  next_state : option next_state_fn;
  bytes_required : Z;
  bytes_fetched : Z;
  addrmode : addrmode_t;
  bytes : list Z;
  insn_string : string
}.

(** Assignments to the fields. *)
Definition set_state (v : decode_state_t) (id : insn_decode) : insn_decode :=
  mk_insn_decode v (insn_address id) (resolved_address id)
    (resolved_address_valid id) (next_state id) (bytes_required id)
    (bytes_fetched id) (addrmode id) (bytes id) (insn_string id).

Definition set_insn_address (v : Z) (id : insn_decode) : insn_decode :=
  mk_insn_decode (state id) v (resolved_address id)
    (resolved_address_valid id) (next_state id) (bytes_required id)
    (bytes_fetched id) (addrmode id) (bytes id) (insn_string id).

Definition set_resolved_address (v : Z) (id : insn_decode) : insn_decode :=
  mk_insn_decode (state id) (insn_address id) v
    (resolved_address_valid id) (next_state id) (bytes_required id)
    (bytes_fetched id) (addrmode id) (bytes id) (insn_string id).

Definition set_resolved_address_valid (v : bool) (id : insn_decode) : insn_decode :=
  mk_insn_decode (state id) (insn_address id) (resolved_address id)
    v (next_state id) (bytes_required id)
    (bytes_fetched id) (addrmode id) (bytes id) (insn_string id).

Definition set_next_state (v : option next_state_fn) (id : insn_decode) : insn_decode :=
  mk_insn_decode (state id) (insn_address id) (resolved_address id)
    (resolved_address_valid id) v (bytes_required id)
    (bytes_fetched id) (addrmode id) (bytes id) (insn_string id).

Definition set_bytes_required (v : Z) (id : insn_decode) : insn_decode :=
  mk_insn_decode (state id) (insn_address id) (resolved_address id)
    (resolved_address_valid id) (next_state id) v
    (bytes_fetched id) (addrmode id) (bytes id) (insn_string id).

Definition set_bytes_fetched (v : Z) (id : insn_decode) : insn_decode :=
  mk_insn_decode (state id) (insn_address id) (resolved_address id)
    (resolved_address_valid id) (next_state id) (bytes_required id)
    v (addrmode id) (bytes id) (insn_string id).

Definition set_addrmode (v : addrmode_t) (id : insn_decode) : insn_decode :=
  mk_insn_decode (state id) (insn_address id) (resolved_address id)
    (resolved_address_valid id) (next_state id) (bytes_required id)
    (bytes_fetched id) v (bytes id) (insn_string id).

Definition set_bytes (v : list Z) (id : insn_decode) : insn_decode :=
  mk_insn_decode (state id) (insn_address id) (resolved_address id)
    (resolved_address_valid id) (next_state id) (bytes_required id)
    (bytes_fetched id) (addrmode id) v (insn_string id).

Definition set_insn_string (v : string) (id : insn_decode) : insn_decode :=
  mk_insn_decode (state id) (insn_address id) (resolved_address id)
    (resolved_address_valid id) (next_state id) (bytes_required id)
    (bytes_fetched id) (addrmode id) (bytes id) v.

(** [tbl[i]] for a table of strings. *)
Definition opcode_at (tbl : list string) (i : Z) : string :=
  nth (Z.to_nat i) tbl "".

(** * 6502 instruction decoding ([insn_6502.c]) *)

Definition opcodes_65c02 : list string :=
  [ "BRK"; "ORA ($nn,X)"; "?"; "?"; "TSB $nn"; "ORA $nn"; "ASL $nn"; "RMB0 $nn";
    "PHP"; "ORA #$nn"; "ASLA"; "?"; "TSB $nnnn"; "ORA $nnnn"; "ASL $nnnn"; "BBR0 $nn";
    "BPL rrrr"; "ORA ($nn),Y"; "ORA ($nn)"; "?"; "TRB $nn"; "ORA $nn,X"; "ASL $nn,X"; "RMB1 $nn";
    "CLC"; "ORA $nnnn,Y"; "INCA"; "?"; "TRB $nnnn"; "ORA $nnnn,X"; "ASL $nnnn,X"; "BBR1 $nn";
    "JSR $nnnn"; "AND ($nn,X)"; "?"; "?"; "BIT $nn"; "AND $nn"; "ROL $nn"; "RMB2 $nn";
    "PLP"; "AND #$nn"; "ROLA"; "?"; "BIT $nnnn"; "AND $nnnn"; "ROL $nnnn"; "BBR2 $nn";
    "BMI rrrr"; "AND ($nn),Y"; "AND ($nn)"; "?"; "BIT $nn,X"; "AND $nn,X"; "ROL $nn,X"; "RMB3 $nn";
    "SEC"; "AND $nnnn,Y"; "DECA"; "?"; "BIT $nn,X"; "AND $nnnn,X"; "ROL $nnnn,X"; "BBR3 $nn";
    "RTI"; "EOR ($nn,X)"; "?"; "?"; "?"; "EOR $nn"; "LSR $nn"; "RMB4 $nn";
    "PHA"; "EOR #$nn"; "LSRA"; "?"; "JMP $nnnn"; "EOR $nnnn"; "LSR $nnnn"; "BBR4 $nn";
    "BVC rrrr"; "EOR ($nn),Y"; "EOR ($nn)"; "?"; "?"; "EOR $nn,X"; "LSR $nn,X"; "RMB5 $nn";
    "CLI"; "EOR $nnnn,Y"; "PHY"; "?"; "?"; "EOR $nnnn,X"; "LSR $nnnn,X"; "BBR5 $nn";
    "RTS"; "ADC ($nn,X)"; "?"; "?"; "STZ $nn"; "ADC $nn"; "ROR $nn"; "RMB6 $nn";
    "PLA"; "ADC #$nn"; "RORA"; "?"; "JMP ($nnnn)"; "ADC $nnnn"; "ROR $nnnn"; "BBR6 $nn";
    "BVS rrrr"; "ADC ($nn),Y"; "ADC ($nn)"; "?"; "STZ $nn,X"; "ADC $nn,X"; "ROR $nn,X"; "RMB7 $nn";
    "SEI"; "ADC $nnnn,Y"; "PLY"; "?"; "JMP ($nn,X)"; "ADC $nnnn,X"; "ROR $nnnn,X"; "BBR7 $nn";
    "BRA rrrr"; "STA ($nn,X)"; "?"; "?"; "STY $nn"; "STA $nn"; "STX $nn"; "SMB0 $nn";
    "DEY"; "BIT #$nn"; "TXA"; "?"; "STY $nnnn"; "STA $nnnn"; "STX $nnnn"; "BBS0 $nn";
    "BCC rrrr"; "STA ($nn),Y"; "STA ($nn)"; "?"; "STY $nn,X"; "STA $nn,X"; "STX ($nn),Y"; "SMB1 $nn";
    "TYA"; "STA $nnnn,Y"; "TXS"; "?"; "STZ $nn"; "STA $nnnn,X"; "STZ $nn,X"; "BBS1 $nn";
    "LDY #$nn"; "LDA ($nn,X)"; "LDX #$nn"; "?"; "LDY $nn"; "LDA $nnnn"; "LDX $nn"; "SMB2 $nn";
    "TAY"; "LDA #$nn"; "TAX"; "?"; "LDY $nnnn"; "LDA $nnnn"; "LDX $nnnn"; "BBS2 $nn";
    "BCS rrrr"; "LDA ($nn),Y"; "LDA ($nn)"; "?"; "LDY $nn,X"; "LDA $nn,X"; "LDX ($nn),Y"; "SMB3 $nn";
    "CLV"; "LDA $nnnn,Y"; "TSX"; "?"; "LDY $nnnn,X"; "LDA $nnnn,X"; "LDX $nnnn,Y"; "BBS3 $nn";
    "CPY #$nn"; "CMP ($nn,X)"; "?"; "?"; "CPY $nnnn"; "CMP $nnnn"; "DEC $nnnn"; "SMB4 $nn";
    "INY"; "CMP #$nn"; "DEX"; "WAI"; "CPY $nn"; "CMP $nn"; "DEC $nn"; "BBS4 $nn";
    "BNE rrrr"; "CMP ($nn),Y"; "CMP ($nn)"; "?"; "?"; "CMP $nn,X"; "DEC $nn,X"; "SMB5 $nn";
    "CLD"; "CMP $nnnn,Y"; "PHX"; "STP"; "?"; "CMP $nnnn,X"; "DEC $nnnn,X"; "BBS5 $nn";
    "CPX #$nn"; "SBC ($nn,X)"; "?"; "?"; "CPX $nn"; "SBC $nn"; "INC $nn"; "SMB6 $nn";
    "INX"; "SBC #$nn"; "NOP"; "?"; "CPX $nnnn"; "SBC $nnnn"; "INC $nnnn"; "BBS6 $nn";
    "BEQ rrrr"; "SBC ($nn),Y"; "SBC ($nn)"; "?"; "?"; "SBC $nn,X"; "INC $nn,X"; "SMB7 $nn";
    "SED"; "SBC $nnnn,Y"; "PLX"; "?"; "?"; "SBC $nnnn,X"; "INC $nnnn,X"; "BBS7 $nn" ].

Definition opcodes_6502 : list string :=
  [ "BRK"; "ORA ($nn,X)"; "?"; "?"; "?"; "ORA $nn"; "ASL $nn"; "?";
    "PHP"; "ORA #$nn"; "ASLA"; "?"; "?"; "ORA $nnnn"; "ASL $nnnn"; "?";
    "BPL rrrr"; "ORA ($nn),Y"; "?"; "?"; "?"; "ORA $nn,X"; "ASL $nn,X"; "?";
    "CLC"; "ORA $nnnn,Y"; "?"; "?"; "?"; "ORA $nnnn,X"; "ASL $nnnn,X"; "?";
    "JSR $nnnn"; "AND ($nn,X)"; "?"; "?"; "BIT $nn"; "AND $nn"; "ROL $nn"; "?";
    "PLP"; "AND #$nn"; "ROLA"; "?"; "BIT $nnnn"; "AND $nnnn"; "ROL $nnnn"; "?";
    "BMI rrrr"; "AND ($nn),Y"; "?"; "?"; "?"; "AND $nn,X"; "ROL $nn,X"; "?";
    "SEC"; "AND $nnnn,Y"; "?"; "?"; "?"; "AND $nnnn,X"; "ROL $nnnn,X"; "?";
    "RTI"; "EOR ($nn,X)"; "?"; "?"; "?"; "EOR nn"; "LSR $nn"; "?";
    "PHA"; "EOR #$nn"; "LSRA"; "?"; "JMP $nnnn"; "EOR $nnnn"; "LSR $nnnn"; "?";
    "BVC rrrr"; "EOR ($nn),Y"; "?"; "?"; "?"; "EOR $nn,X"; "LSR $nn,X"; "?";
    "CLI"; "EOR $nnnn,Y"; "?"; "?"; "?"; "EOR $nnnn,X"; "LSR $nnnn,X"; "?";
    "RTS"; "ADC ($nn,X)"; "?"; "?"; "?"; "ADC $nn"; "ROR $nn"; "?";
    "PLA"; "ADC #$nn"; "RORA"; "?"; "JMP ($nnnn)"; "ADC $nnnn"; "ROR $nnnn"; "?";
    "BVS rrrr"; "ADC ($nn),Y"; "?"; "?"; "?"; "ADC $nn,X"; "ROR $nn,X"; "?";
    "SEI"; "ADC $nnnn,Y"; "?"; "?"; "?"; "ADC $nnnn,X"; "ROR $nnnn,X"; "?";
    "?"; "STA ($nn,X)"; "?"; "?"; "STY $nn"; "STA $nn"; "STX $nn"; "?";
    "DEY"; "?"; "TXA"; "?"; "STY $nnnn"; "STA $nnnn"; "STX $nnnn"; "?";
    "BCC rrrr"; "STA ($nn),Y"; "?"; "?"; "STY $nn,X"; "STA $nn,X"; "STX $nn,Y"; "?";
    "TYA"; "STA $nnnn,Y"; "TXS"; "?"; "?"; "STA $nnnn,X"; "?"; "?";
    "LDY #$nn"; "LDA ($nn,X)"; "LDX #$nn"; "?"; "LDY $nn"; "LDA $nn"; "LDX $nn"; "?";
    "TAY"; "LDA #$nn"; "TAX"; "?"; "LDY $nnnn"; "LDA $nnnn"; "LDX $nnnn"; "?";
    "BCS rrrr"; "LDA ($nn),Y"; "?"; "?"; "LDY $nn,X"; "LDA $nn,X"; "LDX $nn,Y"; "?";
    "CLV"; "LDA $nnnn,Y"; "TSX"; "?"; "LDY $nnnn,X"; "LDA $nnnn,X"; "LDX $nnnn,Y"; "?";
    "CPY #$nn"; "CMP ($nn,X)"; "?"; "?"; "CPY $nn"; "CMP $nn"; "DEC $nn"; "?";
    "INY"; "CMP #$nn"; "DEX"; "?"; "CPY $nnnn"; "CMP $nnnn"; "DEC $nnnn"; "?";
    "BNE rrrr"; "CMP ($nn),Y"; "?"; "?"; "?"; "CMP $nn,X"; "DEC $nn,X"; "?";
    "CLD"; "CMP $nnnn,Y"; "?"; "?"; "?"; "CMP $nnnn,X"; "DEC $nnnn,X"; "?";
    "CPX #$nn"; "SBC ($nn,X)"; "?"; "?"; "CPX $nn"; "SBC $nn"; "INC $nn"; "?";
    "INX"; "SBC #$nn"; "NOP"; "?"; "CPX $nnnn"; "SBC $nnnn"; "INC $nnnn"; "?";
    "BEQ rrrr"; "SBC ($nn),Y"; "?"; "?"; "?"; "SBC $nn,X"; "INC $nn,X"; "?";
    "SED"; "SBC $nnnn,Y"; "?"; "?"; "?"; "SBC $nnnn,X"; "INC $nnnn,X"; "?" ].

Section Insn6502.

(** The global [cpu]. *)
Variable cpu : cpu_t.

Definition insn_decode_format_6502 (id : insn_decode) : insn_decode :=
  let opcodes := if cpu_eqb cpu cpu_65c02 then opcodes_65c02 else opcodes_6502 in
  let id :=
    set_insn_string
      (strcpy (insn_string id) (opcode_at opcodes (byte_at (bytes id) 0))) id in
  if addrmode id =? am6502_u8 then
    let val := to_s16 (byte_at (bytes id) 1) in
    match strstr (insn_string id) "nn" with
    | Some cp =>
        let op := fmt_X 2 (to_u32 val) in
        set_insn_string (buf_write (insn_string id) cp (substring 0 2 op)) id
    | None => id
    end
  else if addrmode id =? am6502_u16 then
    let val := to_s16 (read_u16le (bytes id) 1) in
    match strstr (insn_string id) "nnnn" with
    | Some cp =>
        (* [val] is an [int16_t]: it is promoted to [int] and printed as
           [unsigned], so a word from [0x8000] on prints as eight digits
           (and overruns [op[5]], which is undefined in C); [memcpy] takes
           the first four characters of what was printed. *)
        let op := fmt_X 4 (to_u32 val) in
        set_insn_string (buf_write (insn_string id) cp (substring 0 4 op)) id
    | None => id
    end
  else if addrmode id =? am6502_rel8 then
    let val := to_s8 (byte_at (bytes id) 1) in
    match strstr (insn_string id) "rrrr" with
    | Some cp =>
        let op := fmt_ld 4 val in
        let id :=
          set_insn_string (buf_write (insn_string id) cp (substring 0 4 op)) id in
        let id :=
          set_resolved_address
            (to_u32 (insn_address id + bytes_required id + val)) id in
        set_resolved_address_valid true id
    | None => id
    end
  else id.

Definition insn_decode_next_state_6502 (id : insn_decode) : insn_decode :=
  if negb (decode_state_eqb (state id) ds_fetching) || (bytes_fetched id =? 0)
  then id
  else
    let id :=
      if bytes_required id =? 0 then
        let opcodes :=
          if cpu_eqb cpu cpu_65c02 then opcodes_65c02 else opcodes_6502 in
        let cp1 := opcode_at opcodes (byte_at (bytes id) 0) in
        match strstr cp1 "nnnn" with
        | Some _ => set_bytes_required 3 (set_addrmode am6502_u16 id)
        | None =>
            match strstr cp1 "nn" with
            | Some _ => set_bytes_required 2 (set_addrmode am6502_u8 id)
            | None =>
                match strstr cp1 "rrrr" with
                | Some _ => set_bytes_required 2 (set_addrmode am6502_rel8 id)
                | None => set_bytes_required 1 (set_addrmode am6502_implied id)
                end
            end
        end
      else id in
    if bytes_fetched id =? bytes_required id
    then set_state ds_complete (insn_decode_format_6502 id)
    else id.

End Insn6502.

(** * 6800 instruction decoding ([insn_6800.c]) *)

Definition opcodes_6800 : list string :=
  [ "?"; "NOP"; "?"; "?"; "?"; "?"; "TAP"; "TPA";
    "INX"; "DEX"; "CLV"; "SEV"; "CLC"; "SEC"; "CLI"; "SEI";
    "SBA"; "CBA"; "?"; "?"; "?"; "?"; "TAB"; "TBA";
    "?"; "DAA"; "?"; "ABA"; "?"; "?"; "?"; "?";
    "BRA"; "?"; "BHI"; "BLS"; "BCC"; "BCS"; "BNE"; "BEQ";
    "BVC"; "BVS"; "BPL"; "BMI"; "BGE"; "BLT"; "BGT"; "BLE";
    "TSX"; "INS"; "PULA"; "PULB"; "DES"; "TXS"; "PSHA"; "PSHB";
    "?"; "RTS"; "?"; "RTI"; "?"; "?"; "WAI"; "SWI";
    "NEGA"; "?"; "?"; "COMA"; "LSRA"; "?"; "RORA"; "ASRA";
    "ASLA"; "ROLA"; "DECA"; "?"; "INCA"; "TSTA"; "?"; "CLRA";
    "NEGB"; "?"; "?"; "COMB"; "LSRB"; "?"; "RORB"; "ASRB";
    "ASLB"; "ROLB"; "DECB"; "?"; "INCB"; "TSTB"; "?"; "CLRB";
    "NEG"; "?"; "?"; "COM"; "LSR"; "?"; "ROR"; "ASR";
    "ASL"; "ROL"; "DEC"; "?"; "INC"; "TST"; "JMP"; "CLR";
    "NEG"; "?"; "?"; "COM"; "LSR"; "?"; "ROR"; "ASR";
    "ASL"; "ROL"; "DEC"; "?"; "INC"; "TST"; "JMP"; "CLR";
    "SUBA"; "CMPA"; "SBCA"; "?"; "ANDA"; "BITA"; "LDAA"; "?";
    "EORA"; "ADCA"; "ORAA"; "ADDA"; "CPX"; "BSR"; "LDS"; "?";
    "SUBA"; "CMPA"; "SBCA"; "?"; "ANDA"; "BITA"; "LDAA"; "STAA";
    "EORA"; "ADCA"; "ORAA"; "ADDA"; "CPX"; "?"; "LDS"; "STS";
    "SUBA"; "CMPA"; "SBCA"; "?"; "ANDA"; "BITA"; "LDAA"; "STAA";
    "EORA"; "ADCA"; "ORAA"; "ADDA"; "CPX"; "JSR"; "LDS"; "STS";
    "SUBA"; "CMPA"; "SBCA"; "?"; "ANDA"; "BITA"; "LDAA"; "STAA";
    "EORA"; "ADCA"; "ORAA"; "ADDA"; "CPX"; "JSR"; "LDS"; "STS";
    "SUBB"; "CMPB"; "SBCB"; "?"; "ANDB"; "BITB"; "LDAB"; "?";
    "EORB"; "ADCB"; "ORAB"; "ADDB"; "?"; "?"; "LDX"; "?";
    "SUBB"; "CMPB"; "SBCB"; "?"; "ANDB"; "BITB"; "LDAB"; "STAB";
    "EORB"; "ADCB"; "ORAB"; "ADDB"; "?"; "?"; "LDX"; "STX";
    "SUBB"; "CMPB"; "SBCB"; "?"; "ANDB"; "BITB"; "LDAB"; "STAB";
    "EORB"; "ADCB"; "ORAB"; "ADDB"; "?"; "?"; "LDX"; "STX";
    "SUBB"; "CMPB"; "SBCB"; "?"; "ANDB"; "BITB"; "LDAB"; "STAB";
    "EORB"; "ADCB"; "ORAB"; "ADDB"; "?"; "?"; "LDX"; "STX" ].

Definition insn_decode_addrmode_6800 (id : insn_decode) : addrmode_t :=
  if bytes_fetched id =? 0 then am_invalid
  else
    let opc := byte_at (bytes id) 0 in
    if ((opc >=? 0) && (opc <=? 0x1f)) || ((opc >=? 0x30) && (opc <=? 0x5f))
    then am6800_inherent
    else if (opc >=? 0x20) && (opc <=? 0x2f) then am6800_rel
    else if ((opc >=? 0x60) && (opc <=? 0x6f))
            || ((opc >=? 0xa0) && (opc <=? 0xaf))
            || ((opc >=? 0xe0) && (opc <=? 0xef))
    then am6800_indexed
    else if ((opc >=? 0x70) && (opc <=? 0x7f))
            || ((opc >=? 0xb0) && (opc <=? 0xbf))
            || ((opc >=? 0xf0) && (opc <=? 0xff))
    then am6800_extended
    else if ((opc >=? 0x80) && (opc <=? 0x8f))
            || ((opc >=? 0xc0) && (opc <=? 0xcf))
    then
      if opc =? 0x8d then am6800_rel
      else if (opc =? 0x8e) || (opc =? 0xce) then am6800_imm16
      else am6800_imm8
    else if ((opc >=? 0x90) && (opc <=? 0x9f))
            || ((opc >=? 0xd0) && (opc <=? 0xdf))
    then am6800_direct
    else am_invalid.

(** [sprintf(id->insn_string, ...)] with the text it prints. *)
Definition sprintf_insn_string (text : string) (id : insn_decode) : insn_decode :=
  set_insn_string (strcpy (insn_string id) text) id.

Definition insn_decode_format_6800 (id : insn_decode) : insn_decode :=
  let opc := opcode_at opcodes_6800 (byte_at (bytes id) 0) in
  let am := addrmode id in
  if am =? am6800_inherent then
    sprintf_insn_string opc id
  else if am =? am6800_rel then
    let id :=
      sprintf_insn_string (opc ++ " " ++ fmt_d (to_s8 (byte_at (bytes id) 1))) id in
    let id :=
      set_resolved_address
        (to_u32 (insn_address id + 2 + to_s8 (byte_at (bytes id) 1))) id in
    set_resolved_address_valid true id
  else if am =? am6800_indexed then
    sprintf_insn_string (opc ++ " " ++ fmt_u (byte_at (bytes id) 1) ++ ",X") id
  else if am =? am6800_extended then
    sprintf_insn_string (opc ++ " $" ++ fmt_X 4 (read_u16be (bytes id) 1)) id
  else if am =? am6800_direct then
    sprintf_insn_string (opc ++ " $" ++ fmt_X 2 (byte_at (bytes id) 1)) id
  else if am =? am6800_imm8 then
    sprintf_insn_string (opc ++ " #$" ++ fmt_X 2 (byte_at (bytes id) 1)) id
  else if am =? am6800_imm16 then
    sprintf_insn_string (opc ++ " #$" ++ fmt_X 4 (read_u16be (bytes id) 1)) id
  else
    sprintf_insn_string "<?ADDRMODE?>" id.

Definition insn_decode_next_state_6800 (id : insn_decode) : insn_decode :=
  if negb (decode_state_eqb (state id) ds_fetching) || (bytes_fetched id =? 0)
  then id
  else
    let id :=
      if bytes_required id =? 0 then
        let id := set_addrmode (insn_decode_addrmode_6800 id) id in
        let am := addrmode id in
        if am =? am6800_inherent then set_bytes_required 1 id
        else if am_in am [am6800_rel; am6800_indexed; am6800_imm8; am6800_direct]%list
        then set_bytes_required 2 id
        else if am_in am [am6800_extended; am6800_imm16]%list
        then set_bytes_required 3 id
        else id
      else id in
    if bytes_fetched id =? bytes_required id
    then set_state ds_complete (insn_decode_format_6800 id)
    else id.

(** * 6809 instruction decoding ([insn_6809.c]) *)

(** [insn_postbytes_6809], indexed by [am - am6809_first]. *)
Definition insn_postbytes_6809 : list Z :=
  [ 0  (* am6809_inherent *);
    1  (* am6809_direct *);
    2  (* am6809_extended *);
    1  (* am6809_rel8 *);
    2  (* am6809_rel16 *);
    1  (* am6809_imm8 *);
    2  (* am6809_imm16 *);
    1  (* am6809_zero_off *);
    1  (* am6809_zero_off_ind *);
    1  (* am6809_const_off5 *);
    2  (* am6809_const_off8 *);
    2  (* am6809_const_off8_ind *);
    3  (* am6809_const_off16 *);
    3  (* am6809_const_off16_ind *);
    1  (* am6809_acc_off *);
    1  (* am6809_acc_off_ind *);
    1  (* am6809_post_inc1 *);
    1  (* am6809_post_inc2 *);
    1  (* am6809_post_inc2_ind *);
    1  (* am6809_pre_dec1 *);
    1  (* am6809_pre_dec2 *);
    1  (* am6809_pre_dec2_ind *);
    2  (* am6809_pcrel8 *);
    2  (* am6809_pcrel8_ind *);
    3  (* am6809_pcrel16 *);
    3  (* am6809_pcrel16_ind *);
    3  (* am6809_extended_ind *);
    1  (* am6809_exg_tfr *);
    1  (* am6809_psh_pul *) ]%list.

Definition opcodes_6809 : list string :=
  [ "NEG"; "?"; "?"; "COM"; "LSR"; "?"; "ROR"; "ASR";
    "ASL"; "ROL"; "DEC"; "?"; "INC"; "TST"; "JMP"; "CLR";
    "(pg2)"; "(pg3)"; "NOP"; "SYNC"; "?"; "?"; "LBRA"; "LBSR";
    "?"; "DAA"; "ORCC"; "?"; "ANDCC"; "SEX"; "EXG"; "TFR";
    "BRA"; "BRN"; "BHI"; "BLS"; "BCC"; "BCS"; "BNE"; "BEQ";
    "BVC"; "BVS"; "BPL"; "BMI"; "BGE"; "BLT"; "BGT"; "BLE";
    "LEAX"; "LEAY"; "LEAS"; "LEAU"; "PSHS"; "PULS"; "PSHU"; "PULU";
    "?"; "RTS"; "ABX"; "RTI"; "CWAI"; "MUL"; "?"; "SWI";
    "NEGA"; "?"; "?"; "COMA"; "LSRA"; "?"; "RORA"; "ASRA";
    "ASLA"; "ROLA"; "DECA"; "?"; "INCA"; "TSTA"; "?"; "CLRA";
    "NEGB"; "?"; "?"; "COMB"; "LSRB"; "?"; "RORB"; "ASRB";
    "ASLB"; "ROLB"; "DECB"; "?"; "INCB"; "TSTB"; "?"; "CLRB";
    "NEG"; "?"; "?"; "COM"; "LSR"; "?"; "ROR"; "ASR";
    "ASL"; "ROL"; "DEC"; "?"; "INC"; "TST"; "JMP"; "CLR";
    "NEG"; "?"; "?"; "COM"; "LSR"; "?"; "ROR"; "ASR";
    "ASL"; "ROL"; "DEC"; "?"; "INC"; "TST"; "JMP"; "CLR";
    "SUBA"; "CMPA"; "SBCA"; "SUBD"; "ANDA"; "BITA"; "LDA"; "?";
    "EORA"; "ADCA"; "ORA"; "ADDA"; "CMPX"; "BSR"; "LDX"; "?";
    "SUBA"; "CMPA"; "SBCA"; "SUBD"; "ANDA"; "BITA"; "LDA"; "STA";
    "EORA"; "ADCA"; "ORA"; "ADDA"; "CMPX"; "JSR"; "LDX"; "STX";
    "SUBA"; "CMPA"; "SBCA"; "SUBD"; "ANDA"; "BITA"; "LDA"; "STA";
    "EORA"; "ADCA"; "ORA"; "ADDA"; "CMPX"; "JSR"; "LDX"; "STX";
    "SUBA"; "CMPA"; "SBCA"; "SUBD"; "ANDA"; "BITA"; "LDA"; "STA";
    "EORA"; "ADCA"; "ORA"; "ADDA"; "CMPX"; "JSR"; "LDX"; "STX";
    "SUBB"; "CMPB"; "SBCB"; "ADDD"; "ANDB"; "BITB"; "LDB"; "?";
    "EORB"; "ADCB"; "ORB"; "ADDB"; "LDD"; "?"; "LDU"; "?";
    "SUBB"; "CMPB"; "SBCB"; "ADDD"; "ANDB"; "BITB"; "LDB"; "STB";
    "EORB"; "ADCB"; "ORB"; "ADDB"; "LDD"; "STD"; "LDU"; "STU";
    "SUBB"; "CMPB"; "SBCB"; "ADDD"; "ANDB"; "BITB"; "LDB"; "STB";
    "EORB"; "ADCB"; "ORB"; "ADDB"; "LDD"; "STD"; "LDU"; "STU";
    "SUBB"; "CMPB"; "SBCB"; "ADDD"; "ANDB"; "BITB"; "LDB"; "STB";
    "EORB"; "ADCB"; "ORB"; "ADDB"; "LDD"; "STD"; "LDU"; "STU" ].

Definition opcodes_long_cond_branches_6809 : list string :=
  [ "?"; "LBRN"; "LBHI"; "LBLS"; "LBCC"; "LBCS"; "LBNE"; "LBEQ";
    "LBVC"; "LBVS"; "LBPL"; "LBMI"; "LBGE"; "LBLT"; "LBGT"; "LBLE" ]%list.

(** The postbyte of an indexed instruction (the binary literals of the
    source are written in hexadecimal). *)
Definition insn_decode_addrmode_indexed_6809 (pb : Z) : addrmode_t :=
  if Z.land pb 0x9f =? 0x9f then am6809_extended_ind
  else if Z.land pb 0x80 =? 0 then am6809_const_off5
  else
    let sel := Z.land pb 0x8f in
    let found : option addrmode_t :=
      if sel =? 0x84 then Some am6809_zero_off
      else if sel =? 0x88 then Some am6809_const_off8
      else if sel =? 0x89 then Some am6809_const_off16
      else if (sel =? 0x86) || (sel =? 0x85) || (sel =? 0x8b)
      then Some am6809_acc_off
      else if sel =? 0x80 then Some am6809_post_inc1
      else if sel =? 0x81 then Some am6809_post_inc2
      else if sel =? 0x82 then Some am6809_pre_dec1
      else if sel =? 0x83 then Some am6809_pre_dec2
      else if sel =? 0x8c then Some am6809_pcrel8
      else if sel =? 0x8d then Some am6809_pcrel16
      else None in
    match found with
    | None => am_invalid
    | Some am =>
        if negb (Z.land pb 0x10 =? 0) then
          if (am =? am6809_post_inc1) || (am =? am6809_pre_dec1)
          then am_invalid
          else am + 1
        else am
    end.

Definition insn_decode_addrmode_6809 (id : insn_decode) : addrmode_t :=
  if bytes_fetched id =? 0 then am_invalid
  else
    let opc := byte_at (bytes id) 0 in
    (* the code at the label [indexed_need2] *)
    let indexed_need2 :=
      if bytes_fetched id <? 2 then am_invalid
      else insn_decode_addrmode_indexed_6809 (byte_at (bytes id) 1) in
    if (opc =? 0x10) || (opc =? 0x11) then
      if bytes_fetched id <? 2 then am_invalid
      else
        let extopc := Z.lor (Z.shiftl opc 8) (byte_at (bytes id) 1) in
        let sel := Z.land extopc 0xfff0 in
        if sel =? 0x1020 then am6809_rel16
        else if (sel =? 0x1030) || (sel =? 0x1130) then am6809_inherent
        else if (sel =? 0x1080) || (sel =? 0x1180) || (sel =? 0x10c0)
        then am6809_imm16
        else if (sel =? 0x1090) || (sel =? 0x1190) || (sel =? 0x10d0)
        then am6809_direct
        else if (sel =? 0x10a0) || (sel =? 0x11a0) || (sel =? 0x10e0)
        then
          if bytes_fetched id <? 3 then am_invalid
          else insn_decode_addrmode_indexed_6809 (byte_at (bytes id) 2)
        else if (sel =? 0x10b0) || (sel =? 0x11b0) || (sel =? 0x10f0)
        then am6809_extended
        else am_invalid
    else if ((opc >=? 0x00) && (opc <=? 0x0f))
            || ((opc >=? 0x90) && (opc <=? 0x9f))
            || ((opc >=? 0xd0) && (opc <=? 0xdf))
    then am6809_direct
    else if (opc >=? 0x10) && (opc <=? 0x1f) then
      if (opc =? 0x12) || (opc =? 0x13) || (opc =? 0x19) || (opc =? 0x1d)
      then am6809_inherent
      else if (opc =? 0x16) || (opc =? 0x17) then am6809_rel16
      else if (opc =? 0x1a) || (opc =? 0x1c) then am6809_imm8
      else if (opc =? 0x1e) || (opc =? 0x1f) then am6809_exg_tfr
      else am_invalid
    else if (opc >=? 0x20) && (opc <=? 0x2f) then am6809_rel8
    else if (opc >=? 0x30) && (opc <=? 0x3f) then
      if (opc >=? 0x30) && (opc <=? 0x33) then indexed_need2
      else if (opc >=? 0x34) && (opc <=? 0x37) then am6809_psh_pul
      else if (opc >=? 0x39) && (opc <=? 0x3f) then am6809_inherent
      else am_invalid
    else if ((opc >=? 0x40) && (opc <=? 0x4f))
            || ((opc >=? 0x50) && (opc <=? 0x5f))
    then am6809_inherent
    else if ((opc >=? 0x60) && (opc <=? 0x6f))
            || ((opc >=? 0xa0) && (opc <=? 0xaf))
            || ((opc >=? 0xe0) && (opc <=? 0xef))
    then indexed_need2
    else if ((opc >=? 0x70) && (opc <=? 0x7f))
            || ((opc >=? 0xb0) && (opc <=? 0xbf))
            || ((opc >=? 0xf0) && (opc <=? 0xff))
    then am6809_extended
    else if ((opc >=? 0x80) && (opc <=? 0x8f))
            || ((opc >=? 0xc0) && (opc <=? 0xcf))
    then
      if opc =? 0x8d then am6809_rel8
      else
        let opc := Z.land opc 0xf in
        if (opc =? 0x3) || (opc =? 0xc) || (opc =? 0xe)
        then am6809_imm16
        else am6809_imm8
    else am_invalid.

Definition insn_decode_format_exg_tfr_regname_6809 (v : Z) : string :=
  if v =? 0 then "D"
  else if v =? 1 then "X"
  else if v =? 2 then "Y"
  else if v =? 3 then "U"
  else if v =? 4 then "S"
  else if v =? 5 then "PC"
  else if v =? 8 then "A"
  else if v =? 9 then "B"
  else if v =? 10 then "CCR"
  else if v =? 11 then "DPR"
  else "?".

Definition index_regnames : list string := [ "X"; "Y"; "U"; "S" ]%list.

(** [psh_pul_regnames]; [None] is the [NULL] register name, and the row
    with bit 0 ends the table. *)
Definition psh_pul_regnames : list (Z * option string) :=
  [ (0x01, Some "CCR"); (0x02, Some "A"); (0x04, Some "B");
    (0x08, Some "DPR"); (0x10, Some "X"); (0x20, Some "Y");
    (0x40, None); (0x80, Some "PC"); (0, None) ]%list.

(** The [for] loop of the [am6809_psh_pul] case: [i] is the operand
    index, [bp] the offset of the write pointer in [insn_string]. *)
Fixpoint psh_pul_loop (tbl : list (Z * option string)) (i : Z) (bp : nat)
    (id : insn_decode) : insn_decode :=
  match tbl with
  | []%list => id
  | ((bit, reg) :: tbl')%list =>
      if bit =? 0 then id
      else if negb (Z.land (byte_at (bytes id) i) bit =? 0) then
        let cp2 :=
          match reg with
          | Some r => r
          | None =>
              if (byte_at (bytes id) 0 =? 0x34) || (byte_at (bytes id) 0 =? 0x35)
              then "U" else "S"
          end in
        let cp1 :=
          if negb (Z.land (byte_at (bytes id) i) (bit - 1) =? 0)
          then "," else "" in
        let text := cp1 ++ cp2 in
        psh_pul_loop tbl' i (bp + String.length text)
          (set_insn_string (strcpy_at (insn_string id) bp text) id)
      else psh_pul_loop tbl' i bp id
  end.

(** The mnemonic of a page 2 / page 3 opcode. *)
Definition extopc_mnemonic_6809 (extopc : Z) : string :=
  let extopc_u3 := Z.land extopc 0xfff0 in
  let extopc_b1 := Z.land extopc 0x000f in
  if (extopc >=? 0x1020) && (extopc <=? 0x102f) then
    opcode_at opcodes_long_cond_branches_6809 (Z.land extopc 0xf)
  else if extopc =? 0x103f then "SWI2"
  else if extopc =? 0x113f then "SWI3"
  else if (extopc_u3 =? 0x1080) || (extopc_u3 =? 0x1090)
          || (extopc_u3 =? 0x10a0) || (extopc_u3 =? 0x10b0) then
    if extopc =? 0x108f then "?"
    else if extopc_b1 =? 0x3 then "CMPD"
    else if extopc_b1 =? 0xc then "CMPY"
    else if extopc_b1 =? 0xe then "LDY"
    else if extopc_b1 =? 0xf then "STY"
    else "?"
  else if (extopc_u3 =? 0x10c0) || (extopc_u3 =? 0x10d0)
          || (extopc_u3 =? 0x10e0) || (extopc_u3 =? 0x10f0) then
    if extopc =? 0x10cf then "?"
    else if extopc_b1 =? 0xe then "LDS"
    else if extopc_b1 =? 0xf then "STS"
    else "?"
  else if (extopc_u3 =? 0x1180) || (extopc_u3 =? 0x1190)
          || (extopc_u3 =? 0x11a0) || (extopc_u3 =? 0x11b0) then
    if extopc_b1 =? 0x3 then "CMPU"
    else if extopc_b1 =? 0xc then "CMPS"
    else "?"
  else "?".

Definition insn_decode_format_6809 (id : insn_decode) : insn_decode :=
  let b0 := byte_at (bytes id) 0 in
  let prefixed := (b0 =? 0x10) || (b0 =? 0x11) in
  let i := if prefixed then 2 else 1 in
  let opc :=
    if prefixed
    then extopc_mnemonic_6809 (Z.lor (Z.shiftl b0 8) (byte_at (bytes id) 1))
    else opcode_at opcodes_6809 b0 in
  (* the code at the label [unknown_addrmode] *)
  let unknown_addrmode := sprintf_insn_string "<?ADDRMODE?>" id in
  if (addrmode id <? am6809_first) || (addrmode id >? am6809_last)
  then unknown_addrmode
  else
    let am := addrmode id in
    let bi := byte_at (bytes id) i in
    let index_reg := Z.land (Z.shiftr bi 5) 3 in
    let reg1 := Z.shiftr bi 4 in
    let reg2 := Z.land bi 0xf in
    let ind_open := if am6809_indirect_p am then "[" else "" in
    let ind_close := if am6809_indirect_p am then "]" else "" in
    let xreg := opcode_at index_regnames index_reg in
    (* one [sprintf] into [insn_string], and the value left in [reloff] *)
    let print (text : string) (reloff : Z) :=
      Some (sprintf_insn_string text id, reloff) in
    (* the first [switch]; [None] is [goto unknown_addrmode] *)
    let formatted : option (insn_decode * Z) :=
      if am =? am6809_inherent then print opc 0
      else if am =? am6809_direct then
        print (opc ++ " < $" ++ fmt_X 2 bi) 0
      else if am_in am [am6809_extended_ind; am6809_extended]%list then
        let i := if am =? am6809_extended_ind then i + 1 else i in
        let u16 := read_u16be (bytes id) i in
        print (opc ++ " " ++ ind_open ++ "$" ++ fmt_X 4 u16 ++ ind_close) 0
      else if am_in am [am6809_rel8; am6809_rel16]%list then
        let s16 :=
          if am =? am6809_rel8 then to_s8 bi else read_s16be (bytes id) i in
        print (opc ++ " " ++ fmt_d s16) s16
      else if am =? am6809_imm8 then
        print (opc ++ " #$" ++ fmt_X 2 bi) 0
      else if am =? am6809_imm16 then
        print (opc ++ " #$" ++ fmt_X 4 (read_u16be (bytes id) i)) 0
      else if am_in am [am6809_zero_off; am6809_zero_off_ind]%list then
        print (opc ++ " " ++ ind_open ++ "," ++ xreg ++ ind_close) 0
      else if am_in am [am6809_const_off5; am6809_const_off8;
                        am6809_const_off8_ind; am6809_const_off16;
                        am6809_const_off16_ind]%list then
        let s16 :=
          if am =? am6809_const_off5 then
            let s16 := to_s16 (Z.land bi 0x1f) in
            (* [(s16 << 11) >> 11] is computed in [int] *)
            to_s16 (Z.shiftr (to_s32 (Z.shiftl s16 11)) 11)
          else if am_in am [am6809_const_off8; am6809_const_off8_ind]%list
          then to_s8 (byte_at (bytes id) (i + 1))
          else read_s16be (bytes id) (i + i) in
        print (opc ++ " " ++ ind_open ++ fmt_d s16 ++ "," ++ xreg ++ ind_close) 0
      else if am_in am [am6809_acc_off; am6809_acc_off_ind]%list then
        let sel := Z.land bi 0xf in
        let cp1 :=
          if sel =? 0x6 then "A"
          else if sel =? 0x5 then "B"
          else if sel =? 0xb then "D"
          else "?" in
        print (opc ++ " " ++ ind_open ++ cp1 ++ "," ++ xreg ++ ind_close) 0
      else if am =? am6809_post_inc1 then
        print (opc ++ " ," ++ xreg ++ "+") 0
      else if am_in am [am6809_post_inc2; am6809_post_inc2_ind]%list then
        print (opc ++ " " ++ ind_open ++ "," ++ xreg ++ "++" ++ ind_close) 0
      else if am =? am6809_pre_dec1 then
        print (opc ++ " ,-" ++ xreg) 0
      else if am_in am [am6809_pre_dec2; am6809_pre_dec2_ind]%list then
        print (opc ++ " " ++ ind_open ++ ",--" ++ xreg ++ ind_close) 0
      else if am_in am [am6809_pcrel8; am6809_pcrel8_ind;
                        am6809_pcrel16; am6809_pcrel16_ind]%list then
        let s16 :=
          if am_in am [am6809_pcrel8; am6809_pcrel8_ind]%list
          then to_s8 (byte_at (bytes id) (i + i))
          else read_s16be (bytes id) (i + 1) in
        print (opc ++ " " ++ ind_open ++ fmt_d s16 ++ ",PCR" ++ ind_close) s16
      else if am =? am6809_exg_tfr then
        let cp1 := insn_decode_format_exg_tfr_regname_6809 reg1 in
        let cp2 := insn_decode_format_exg_tfr_regname_6809 reg2 in
        print (opc ++ " " ++ cp1 ++ "," ++ cp2) 0
      else if am =? am6809_psh_pul then
        let head := opc ++ " " in
        Some (psh_pul_loop psh_pul_regnames i (String.length head)
                (sprintf_insn_string head id), 0)
      else None in
    match formatted with
    | None => unknown_addrmode
    | Some (id, reloff) =>
        (* the second [switch] *)
        if am_in (addrmode id)
                 [am6809_rel8; am6809_rel16; am6809_pcrel8;
                  am6809_pcrel8_ind; am6809_pcrel16; am6809_pcrel16_ind]%list
        then
          let id :=
            set_resolved_address (to_u32 (insn_address id + reloff)) id in
          set_resolved_address_valid true id
        else id
    end.

Definition insn_decode_next_state_6809 (id : insn_decode) : insn_decode :=
  if negb (decode_state_eqb (state id) ds_fetching) || (bytes_fetched id =? 0)
  then id
  else
    let b0 := byte_at (bytes id) 0 in
    (* the block under [bytes_required == 0]; [None] is its [return] *)
    let resolved : option insn_decode :=
      if bytes_required id =? 0 then
        if (bytes_fetched id =? 1) && ((b0 =? 0x10) || (b0 =? 0x11))
        then None
        else
          let id := set_addrmode (insn_decode_addrmode_6809 id) id in
          if (addrmode id >=? am6809_first) && (addrmode id <=? am6809_last)
          then
            let id :=
              set_bytes_required
                (1 + nth (Z.to_nat (addrmode id - am6809_first))
                         insn_postbytes_6809 0) id in
            if (b0 =? 0x10) || (b0 =? 0x11)
            then Some (set_bytes_required (bytes_required id + 1) id)
            else Some id
          else Some id
      else Some id in
    match resolved with
    | None => id
    | Some id =>
        if bytes_fetched id =? bytes_required id
        then set_state ds_complete (insn_decode_format_6809 id)
        else id
    end.

(** * Z80 instruction decoding ([insn_z80.c]) *)

Definition opcodes_z80 : list string :=
  [ "NOP"; "LD BC,XXXXh"; "LD (BC),A"; "INC BC"; "INC B"; "DEC B"; "LD B,XXh"; "RLCA";
    "EX AF,AF'"; "ADD HL,BC"; "LD A,(BC)"; "DEC BC"; "INC C"; "DEC C"; "LD C,XXh"; "RRCA";
    "DJNZ rrrr"; "LD DE,XXXXh"; "LD (DE),A"; "INC DE"; "INC D"; "DEC D"; "LD D,XXh"; "RLA";
    "JR rrrr"; "ADD HL,DE"; "LD A,(DE)"; "DEC DE"; "INC E"; "DEC E"; "LD E,XXh"; "RRA";
    "JR NZ,rrrr"; "LD HL,XXXXh"; "LD (XXXXh),HL"; "INC HL"; "INC H"; "DEC H"; "LD H,XXh"; "DAA";
    "JR Z,rrrr"; "ADD HL,HL"; "LD HL,(XXXXh)"; "DEC HL"; "INC L"; "DEC L"; "LD L,XXh"; "CPL";
    "JR NC,rrrr"; "LD SP,XXXXh"; "LD (XXXXh),A"; "INC SP"; "INC (HL)"; "DEC (HL)"; "LD (HL),XXh"; "SCF";
    "JR C,rrrr"; "ADD HL,SP"; "LD A,(XXXXh)"; "DEC SP"; "INC A"; "DEC A"; "LD A,XXh"; "CCF";
    "LD B,B"; "LD B,C"; "LD B,D"; "LD B,E"; "LD B,H"; "LD B,L"; "LD B,(HL)"; "LD B,A";
    "LD C,B"; "LD C,C"; "LD C,D"; "LD C,E"; "LD C,H"; "LD C,L"; "LD C,(HL)"; "LD C,A";
    "LD D,B"; "LD D,C"; "LD D,D"; "LD D,E"; "LD D,H"; "LD D,L"; "LD D,(HL)"; "LD D,A";
    "LD E,B"; "LD E,C"; "LD E,D"; "LD E,E"; "LD E,H"; "LD E,L"; "LD E,(HL)"; "LD E,A";
    "LD H,B"; "LD H,C"; "LD H,D"; "LD H,E"; "LD H,H"; "LD H,L"; "LD H,(HL)"; "LD H,A";
    "LD L,B"; "LD L,C"; "LD L,D"; "LD L,E"; "LD L,H"; "LD L,L"; "LD L,(HL)"; "LD L,A";
    "LD (HL),B"; "LD (HL),C"; "LD (HL),D"; "LD (HL),E"; "LD (HL),H"; "LD (HL),L"; "HALT"; "LD (HL),A";
    "LD A,B"; "LD A,C"; "LD A,D"; "LD A,E"; "LD A,H"; "LD A,L"; "LD A,(HL)"; "LD A,A";
    "ADD B"; "ADD C"; "ADD D"; "ADD E"; "ADD H"; "ADD L"; "ADD (HL)"; "ADD A";
    "ADC B"; "ADC C"; "ADC D"; "ADC E"; "ADC H"; "ADC L"; "ADC (HL)"; "ADC A";
    "SUB B"; "SUB C"; "SUB D"; "SUB E"; "SUB H"; "SUB L"; "SUB (HL)"; "SUB A";
    "SBC B"; "SBC C"; "SBC D"; "SBC E"; "SBC H"; "SBC L"; "SBC (HL)"; "SBC A";
    "AND B"; "AND C"; "AND D"; "AND E"; "AND H"; "AND L"; "AND (HL)"; "AND A";
    "XOR B"; "XOR C"; "XOR D"; "XOR E"; "XOR H"; "XOR L"; "XOR (HL)"; "XOR A";
    "OR B"; "OR C"; "OR D"; "OR E"; "OR H"; "OR L"; "OR (HL)"; "OR A";
    "CP B"; "CP C"; "CP D"; "CP E"; "CP H"; "CP L"; "CP (HL)"; "CP A";
    "RET NZ"; "POP BC"; "JP NZ,XXXXh"; "JP XXXXh"; "CALL NZ,XXXXh"; "PUSH BC"; "ADD XXh"; "RST 00h";
    "RET Z"; "RET"; "JP Z,XXXXh"; "extCB"; "CALL Z,XXXXh"; "CALL XXXXh"; "ADC XXh"; "RST 08h";
    "RET NC"; "POP DE"; "JP NC,XXXXh"; "OUT (XXh),A"; "CALL NC,XXXXh"; "PUSH DE"; "SUB XXh"; "RST 10h";
    "RET C"; "EXX"; "JP C,XXXXh"; "IN A,(XXh)"; "CALL C,XXXXh"; "extDD"; "SBC XXh"; "RST 18h";
    "RET PO"; "POP HL"; "JP PO,XXXXh"; "EX (SP),HL"; "CALL PO,XXXXh"; "PUSH HL"; "AND XXh"; "RST 20h";
    "RET PE"; "JP (HL)"; "JP PE,XXXXh"; "EX DE,HL"; "CALL PE,XXXXh"; "extED"; "XOR XXh"; "RST 28h";
    "RET P"; "POP AF"; "JP P,XXXXh"; "DI"; "CALL P,XXXXh"; "PUSH AF"; "OR XXh"; "RST 30h";
    "RET M"; "LD SP,HL"; "JP M,XXXXh"; "EI"; "CALL M,XXXXh"; "extFD"; "CP XXh"; "RST 38h" ].

(** [z80_operand_types], without the row that ends it. *)
Definition z80_operand_types : list (string * addrmode_t) :=
  [ ("XXXXh", amz80_u16); ("XXh", amz80_u8);
    ("+ddd", amz80_disp8); ("rrrr", amz80_pcrel8) ]%list.

Definition z80_operand_size (mode : addrmode_t) : Z :=
  if am_in mode [amz80_u8; amz80_disp8; amz80_pcrel8]%list then 1
  else if mode =? amz80_u16 then 2
  else 0.

(** The outer loop of [z80_next_operand]: [rest] is the buffer from the
    offset [cp] on.  [memcmp] against an operand string succeeds when the
    string is a prefix of [rest]. *)
Fixpoint z80_scan_operand (rest : string) (cp : nat)
    : option (nat * addrmode_t * nat) :=
  match rest with
  | EmptyString => None
  | String c rest' =>
      if is_nul c then None
      else
        match find (fun ot => String.prefix (fst ot) rest) z80_operand_types with
        | Some (opr_string, opr_mode) =>
            Some (cp, opr_mode, (cp + String.length opr_string)%nat)
        | None => z80_scan_operand rest' (S cp)
        end
  end.

(** [z80_next_operand(&mode, &cursor)] on the buffer [buf]: the offset
    of the operand found, its mode, and the new cursor. *)
Definition z80_next_operand (buf : string) (cursor : nat)
    : option (nat * addrmode_t * nat) :=
  z80_scan_operand (buf_from cursor buf) cursor.

(** The first loop of [z80_hl_to_index] on the template from [t1] on: the
    characters it copies and, when it stops at an [HL], the value of
    [need_disp] and the template after the [HL].  Without an [HL] the
    terminator is copied too. *)
Fixpoint z80_copy_to_hl (t1 : string) (opc : Z) (need_disp : bool)
    : string * option (bool * string) :=
  if String.prefix "HL" t1 then (EmptyString, Some (need_disp, buf_from 2 t1))
  else
    match t1 with
    | EmptyString => (String NUL EmptyString, None)
    | String c t1' =>
        let need_disp :=
          if (Ascii.eqb c "(") && String.prefix "HL" t1' && negb (opc =? 0xe9)
          then true else need_disp in
        let (copied, found) := z80_copy_to_hl t1' opc need_disp in
        (String c copied, found)
    end.

Definition z80_hl_to_index (id : insn_decode) (tmpl : string) (opc which : Z)
    : insn_decode * bool :=
  match z80_copy_to_hl tmpl opc false with
  | (copied, None) =>
      (set_insn_string (buf_write (insn_string id) 0 copied) id, false)
  | (copied, Some (need_disp, rest)) =>
      let subst :=
        "I" ++ (if which =? 0xdd then "X" else "Y")
            ++ (if need_disp then "+ddd" else "") in
      (set_insn_string (strcpy (insn_string id) (copied ++ subst ++ rest)) id,
       true)
  end.

Definition ld_regs : list string :=
  [ "B"; "C"; "D"; "E"; "H"; "L"; "(HL)"; "A" ]%list.
Definition io_regs : list string :=
  [ "B"; "C"; "D"; "E"; "H"; "L"; "?"; "A" ]%list.
Definition ld_regs16 : list string := [ "BC"; "DE"; "HL"; "SP" ]%list.

Definition opcodes_CB : list string :=
  [ "RLC "; "RRC "; "RL "; "RR "; "SLA "; "SRA "; "? "; "SRL ";
    "BIT 0,"; "BIT 1,"; "BIT 2,"; "BIT 3,"; "BIT 4,"; "BIT 5,"; "BIT 6,"; "BIT 7,";
    "RES 0,"; "RES 1,"; "RES 2,"; "RES 3,"; "RES 4,"; "RES 5,"; "RES 6,"; "RES 7,";
    "SET 0,"; "SET 1,"; "SET 2,"; "SET 3,"; "SET 4,"; "SET 5,"; "SET 6,"; "SET 7," ]%list.

(** The [switch] of the ED group. *)
Definition z80_ed_named (opc : Z) : string :=
  if opc =? 0x57 then "LD A,I"
  else if opc =? 0x5f then "LD A,R"
  else if opc =? 0x47 then "LD I,A"
  else if opc =? 0x4f then "LD R,A"
  else if opc =? 0xa0 then "LDI"
  else if opc =? 0xb0 then "LDIR"
  else if opc =? 0xa8 then "LDD"
  else if opc =? 0xb8 then "LDDR"
  else if opc =? 0xa1 then "CPI"
  else if opc =? 0xb1 then "CPIR"
  else if opc =? 0xa9 then "CPD"
  else if opc =? 0xb9 then "CPDR"
  else if opc =? 0x44 then "NEG"
  else if opc =? 0x46 then "IM 0"
  else if opc =? 0x56 then "IM 1"
  else if opc =? 0x5e then "IM 2"
  else if opc =? 0x6f then "RLD"
  else if opc =? 0x67 then "RRD"
  else if opc =? 0x4d then "RETI"
  else if opc =? 0x45 then "RETN"
  else if opc =? 0xa2 then "INI"
  else if opc =? 0xb2 then "INIR"
  else if opc =? 0xaa then "IND"
  else if opc =? 0xba then "INDR"
  else if opc =? 0xa3 then "OUTI"
  else if opc =? 0xb3 then "OUTIR"
  else if opc =? 0xab then "OUTD"
  else if opc =? 0xbb then "OTDR"
  else "?".

Definition z80_insn_template (id : insn_decode) : insn_decode * bool :=
  let b0 := byte_at (bytes id) 0 in
  let b1 := byte_at (bytes id) 1 in
  let opc := b0 in
  if ((opc =? 0xdd) || (opc =? 0xfd))
     && (bytes_fetched id >=? 2) && negb (b1 =? 0xcb)
  then
    let opc := b1 in
    let tmpl :=
      if Z.land opc 0xcf =? 0x09 then
        "ADD I" ++ (if b0 =? 0xdd then "X" else "Y") ++ ","
                ++ opcode_at ld_regs16 (Z.land (Z.shiftr opc 4) 3)
      else opcode_at opcodes_z80 opc in
    (fst (z80_hl_to_index id tmpl opc b0), true)
  else if opc =? 0xed then
    if bytes_fetched id <? 2 then (id, false)
    else
      let opc := b1 in
      let reg16 := Z.land (Z.shiftr opc 4) 3 in
      let ioreg := Z.land (Z.shiftr opc 3) 7 in
      let text :=
        if Z.land opc 0xcf =? 0x4b then
          "LD " ++ opcode_at ld_regs16 reg16 ++ ",(XXXXh)"
        else if Z.land opc 0xcf =? 0x43 then
          "LD (XXXXh)," ++ opcode_at ld_regs16 reg16
        else if Z.land opc 0xcf =? 0x4a then
          "ADC HL," ++ opcode_at ld_regs16 reg16
        else if Z.land opc 0xcf =? 0x42 then
          "SBC HL," ++ opcode_at ld_regs16 reg16
        else if Z.land opc 0xc7 =? 0x40 then
          "IN " ++ (if ioreg =? 6 then "Flags" else opcode_at io_regs ioreg)
                ++ ",(C)"
        else if Z.land opc 0xc7 =? 0x41 then
          "OUT (C)," ++ opcode_at io_regs ioreg
        else z80_ed_named opc in
      (sprintf_insn_string text id, true)
  else if (opc =? 0xcb)
          || (((opc =? 0xdd) || (opc =? 0xfd))
              && (bytes_fetched id >=? 2) && (b1 =? 0xcb))
  then
    (* [None] is [return false] *)
    let sub : option Z :=
      if opc =? 0xcb then
        if bytes_fetched id <? 2 then None else Some b1
      else
        if bytes_fetched id <? 4 then None else Some (byte_at (bytes id) 3) in
    match sub with
    | None => (id, false)
    | Some opc =>
        let tbuf :=
          opcode_at opcodes_CB (Z.land (Z.shiftr opc 3) 0x1f)
            ++ opcode_at ld_regs (Z.land opc 7) in
        if (b0 =? 0xdd) || (b0 =? 0xfd)
        then (fst (z80_hl_to_index id tbuf opc b0), true)
        else (sprintf_insn_string tbuf id, true)
    end
  else if (opc =? 0xcb) || (opc =? 0xdd) || (opc =? 0xed) || (opc =? 0xfd)
  then (id, false)
  else (sprintf_insn_string (opcode_at opcodes_z80 opc) id, true).

(** The number of leading characters of [s] that are neither a blank
    nor the terminator, and the number of leading blanks. *)
Fixpoint span_to_blank (s : string) : nat :=
  match s with
  | EmptyString => O
  | String c r =>
      if Ascii.eqb c " " || is_nul c then O else S (span_to_blank r)
  end.

Fixpoint span_blanks (s : string) : nat :=
  match s with
  | EmptyString => O
  | String c r => if Ascii.eqb c " " then S (span_blanks r) else O
  end.

(** The last three loops of the [amz80_disp8] case, from the offset [cp]:
    the text after the blanks that follow the displacement is moved up
    over them. *)
Definition z80_collapse_blanks (buf : string) (cp : nat) : string :=
  let cp := (cp + span_to_blank (buf_from cp buf))%nat in
  match buf_from cp buf with
  | String c _ =>
      if Ascii.eqb c " " then
        let ncp := (cp + span_blanks (buf_from cp buf))%nat in
        strcpy_at buf cp (c_str (buf_from ncp buf))
      else buf
  | EmptyString => buf
  end.

(** The body of the [for] loop of [insn_decode_format_z80] for the
    operand of mode [mode] found at offset [cp]. *)
Definition z80_format_operand (cp : nat) (mode : addrmode_t) (opr_byte : Z)
    (id : insn_decode) : insn_decode :=
  if mode =? amz80_u16 then
    let u16 := read_u16le (bytes id) opr_byte in
    let op := fmt_X 4 u16 in
    set_insn_string (buf_write (insn_string id) cp (substring 0 4 op)) id
  else if mode =? amz80_u8 then
    let op := fmt_X 2 (byte_at (bytes id) opr_byte) in
    set_insn_string (buf_write (insn_string id) cp (substring 0 2 op)) id
  else if mode =? amz80_pcrel8 then
    let s8 := to_s8 (to_s8 (byte_at (bytes id) opr_byte) + 2) in
    let op := fmt_ld 4 s8 in
    let id :=
      set_insn_string (buf_write (insn_string id) cp (substring 0 4 op)) id in
    let id := set_resolved_address (to_u32 (insn_address id + s8)) id in
    set_resolved_address_valid true id
  else if mode =? amz80_disp8 then
    let s8 := to_s8 (byte_at (bytes id) opr_byte) in
    let buf :=
      if s8 <? 0
      then buf_write (insn_string id) cp (substring 0 4 (fmt_ld 4 s8))
      else buf_write (insn_string id) (cp + 1) (substring 0 3 (fmt_ld 3 s8)) in
    set_insn_string (z80_collapse_blanks buf cp) id
  else id.

(** The [for] loop of [insn_decode_format_z80].  Every iteration moves the
    cursor on by the length of an operand string inside the array, so the
    length of the array bounds the number of iterations: [fuel].  More
    fuel changes nothing (lemma [z80_format_operands_fuel]). *)
Fixpoint z80_format_operands (fuel : nat) (curs : nat) (opr_byte : Z)
    (id : insn_decode) : insn_decode :=
  match fuel with
  | O => id
  | S fuel' =>
      match z80_next_operand (insn_string id) curs with
      | None => id
      | Some (cp, mode, curs') =>
          z80_format_operands fuel' curs' (opr_byte + z80_operand_size mode)
            (z80_format_operand cp mode opr_byte id)
      end
  end.

Definition insn_decode_format_z80 (id : insn_decode) : insn_decode :=
  let b0 := byte_at (bytes id) 0 in
  let opr_byte :=
    if (b0 =? 0xcb) || (b0 =? 0xed) then 2
    else if (b0 =? 0xdd) || (b0 =? 0xfd) then 2
    else 1 in
  z80_format_operands (String.length (insn_string id)) 0 opr_byte id.

(** The second [for] loop of [insn_decode_next_state_z80]: the sizes of
    the operands of the template are added to [bytes_required].  [fuel]
    is as in [z80_format_operands] (lemma [z80_count_operands_fuel]). *)
Fixpoint z80_count_operands (fuel : nat) (curs : nat) (id : insn_decode)
    : insn_decode :=
  match fuel with
  | O => id
  | S fuel' =>
      match z80_next_operand (insn_string id) curs with
      | None => id
      | Some (_, mode, curs') =>
          z80_count_operands fuel' curs'
            (set_bytes_required (bytes_required id + z80_operand_size mode) id)
      end
  end.

Definition insn_decode_next_state_z80 (id : insn_decode) : insn_decode :=
  if negb (decode_state_eqb (state id) ds_fetching) || (bytes_fetched id =? 0)
  then id
  else
    (* the block under [bytes_required == 0]; [None] is its [return] *)
    let resolved : option insn_decode :=
      if bytes_required id =? 0 then
        match z80_insn_template id with
        | (_, false) => None
        | (id, true) =>
            let b0 := byte_at (bytes id) 0 in
            let id := set_bytes_required 1 id in
            let id :=
              if (b0 =? 0xcb) || (b0 =? 0xed)
              then set_bytes_required (bytes_required id + 1) id
              else if (b0 =? 0xdd) || (b0 =? 0xfd) then
                let id := set_bytes_required (bytes_required id + 1) id in
                if (bytes_fetched id >=? 2) && (byte_at (bytes id) 1 =? 0xcb)
                then set_bytes_required (bytes_required id + 1) id
                else id
              else id in
            Some (z80_count_operands (String.length (insn_string id)) 0 id)
        end
      else Some id in
    match resolved with
    | None => id
    | Some id =>
        if bytes_fetched id =? bytes_required id
        then set_state ds_complete (insn_decode_format_z80 id)
        else id
    end.

(** * The decode session ([insn_decode.c]) *)

Section InsnDecode.

(** The global [cpu]. *)
Variable cpu : cpu_t.

Definition insn_decode_init (id : insn_decode) : insn_decode :=
  let id := set_state ds_idle id in
  match cpu with
  | cpu_6502 | cpu_65c02 => set_next_state (Some ns_6502) id
  | cpu_6800 => set_next_state (Some ns_6800) id
  | cpu_6809 | cpu_6809e => set_next_state (Some ns_6809) id
  | cpu_z80 => set_next_state (Some ns_z80) id
  | cpu_none => set_next_state None id
  end.

(** The call through the pointer [id->next_state]. *)
Definition call_next_state (f : next_state_fn) (id : insn_decode) : insn_decode :=
  match f with
  | ns_6502 => insn_decode_next_state_6502 cpu id
  | ns_6800 => insn_decode_next_state_6800 id
  | ns_6809 => insn_decode_next_state_6809 id
  | ns_z80 => insn_decode_next_state_z80 id
  end.

Definition insn_decode_next_state (id : insn_decode) : insn_decode * bool :=
  let ostate := state id in
  match next_state id with
  | Some f =>
      let id := call_next_state f id in
      if decode_state_eqb ostate ds_fetching then
        let id :=
          if decode_state_eqb (state id) ds_complete && resolved_address_valid id
          then
            let cp := strlen (insn_string id) in
            set_insn_string
              (strcpy_at (insn_string id) cp
                 (" <" ++ fmt_X 4 (resolved_address id) ++ ">")) id
          else id in
        (id, true)
      else (id, false)
  | None => (id, false)
  end.

Definition insn_decode_begin (id : insn_decode) (addr : Z) (b : Z) : insn_decode :=
  match next_state id with
  | Some _ =>
      if decode_state_eqb (state id) ds_idle
         || decode_state_eqb (state id) ds_complete
      then
        let id := set_state ds_fetching id in
        let id := set_insn_address (to_u32 addr) id in
        let id := set_resolved_address 0 id in
        let id := set_resolved_address_valid false id in
        let id := set_addrmode am_invalid id in
        let id := set_bytes_required 0 id in
        let id := set_bytes_fetched 0 id in
        let id := set_bytes (byte_store (bytes id) (bytes_fetched id) b) id in
        let id := set_bytes_fetched (bytes_fetched id + 1) id in
        fst (insn_decode_next_state id)
      else id
  | None => id
  end.

Definition insn_decode_continue (id : insn_decode) (b : Z) : insn_decode * bool :=
  if decode_state_eqb (state id) ds_fetching then
    if bytes_fetched id =? INSN_DECODE_MAXBYTES then
      let id := set_insn_string (strcpy (insn_string id) "<decode overflow>") id in
      (set_state ds_complete id, false)
    else
      let id := set_bytes (byte_store (bytes id) (bytes_fetched id) b) id in
      let id := set_bytes_fetched (bytes_fetched id + 1) id in
      insn_decode_next_state id
  else (id, false).

(** The string [insn_decode_complete] returns a pointer to.  The session
    is read only; it is returned with the string to state that. *)
Definition insn_decode_complete (id : insn_decode) : insn_decode * string :=
  if decode_state_eqb (state id) ds_complete
  then (id, c_str (insn_string id))
  else (id, "").

(** [continue] for each byte of [bs] in turn. *)
Fixpoint continue_all (id : insn_decode) (bs : list Z) : insn_decode :=
  match bs with
  | []%list => id
  | (b :: bs')%list => continue_all (fst (insn_decode_continue id b)) bs'
  end.

End InsnDecode.

(** A session in zeroed memory, before [insn_decode_init]. *)
Definition blank : insn_decode :=
  mk_insn_decode ds_idle 0 0 false None 0 0 am_invalid
    (repeat 0 (Z.to_nat INSN_DECODE_MAXBYTES))
    (repeat_char NUL INSN_DECODE_MAXSTRING).

(** * Notions the properties are stated with *)

(** ** What a routine may change *)

(** The fields a formatter leaves alone: it writes [insn_string],
    [resolved_address] and [resolved_address_valid] only. *)
Definition same_control (a b : insn_decode) : Prop :=
  state a = state b /\ insn_address a = insn_address b /\
  next_state a = next_state b /\ bytes_required a = bytes_required b /\
  bytes_fetched a = bytes_fetched b /\ addrmode a = addrmode b /\
  bytes a = bytes b.

(** What a per-architecture state routine may change: it appends no
    byte, keeps a nonzero [bytes_required], moves the state only from
    fetching to complete, then with [bytes_fetched = bytes_required], and
    does nothing to a session that is not fetching. *)
Record ns_frame (id id' : insn_decode) : Prop := mk_ns_frame {
  nsf_bytes_fetched : bytes_fetched id' = bytes_fetched id;
  nsf_bytes : bytes id' = bytes id;
  nsf_next_state : next_state id' = next_state id;
  nsf_insn_address : insn_address id' = insn_address id;
  nsf_bytes_required :
    bytes_required id <> 0 -> bytes_required id' = bytes_required id;
  nsf_state :
    state id' = state id \/
    (state id = ds_fetching /\ state id' = ds_complete /\
     bytes_fetched id' = bytes_required id');
  nsf_not_fetching : state id <> ds_fetching -> id' = id
}.

(** The resolve block of a state routine: it may set [addrmode],
    [bytes_required] and [insn_string], and only when [bytes_required]
    is still zero. *)
Record resolve_frame (id id1 : insn_decode) : Prop := mk_resolve_frame {
  rf_state : state id1 = state id;
  rf_bytes_fetched : bytes_fetched id1 = bytes_fetched id;
  rf_bytes : bytes id1 = bytes id;
  rf_next_state : next_state id1 = next_state id;
  rf_insn_address : insn_address id1 = insn_address id;
  rf_bytes_required :
    bytes_required id <> 0 -> bytes_required id1 = bytes_required id
}.

(** ** The calls of a client *)

Inductive call : Set :=
  | call_begin (addr b : Z)
  | call_continue (b : Z)
  | call_complete.

Definition do_call (cpu : cpu_t) (id : insn_decode) (c : call) : insn_decode :=
  match c with
  | call_begin addr b => insn_decode_begin cpu id addr b
  | call_continue b => fst (insn_decode_continue cpu id b)
  | call_complete => fst (insn_decode_complete id)
  end.

Definition do_calls (cpu : cpu_t) (id : insn_decode) (cs : list call) : insn_decode :=
  fold_left (do_call cpu) cs id.

(** [begin] on a fresh session of [cpu], then [continue] for each further
    byte. *)
Definition decode_bytes (cpu : cpu_t) (addr b : Z) (bs : list Z) : insn_decode :=
  continue_all cpu (insn_decode_begin cpu (insn_decode_init cpu blank) addr b) bs.

(** The output a client reads. *)
Definition output (id : insn_decode) : string := snd (insn_decode_complete id).

(** [insn_decode_continue] and [insn_decode_begin] store a byte so. *)
Definition append_byte (b : Z) (id : insn_decode) : insn_decode :=
  set_bytes_fetched (bytes_fetched id + 1)
    (set_bytes (byte_store (bytes id) (bytes_fetched id) b) id).

(** A session of the 6502 that has taken the first byte of [LDY $nnnn]. *)
Definition sample_fetching : insn_decode :=
  insn_decode_begin cpu_6502 (insn_decode_init cpu_6502 blank) 0x1003 0xac.

(** A session of the 6809 at address 1 that holds the two bytes of
    [BRA -3] and has not been looked at yet. *)
Definition sample_bra_at_1 : insn_decode :=
  let id := insn_decode_begin cpu_6809 (insn_decode_init cpu_6809 blank) 0x0001 0x20 in
  set_bytes_fetched 2 (set_bytes (byte_store (bytes id) 1 0xfd) id).

(** ** Invariants of a session *)

(** Once a session has been begun, between one and eight bytes are in
    its buffer. *)
Definition fetch_bounded (id : insn_decode) : Prop :=
  state id <> ds_idle -> 1 <= bytes_fetched id <= INSN_DECODE_MAXBYTES.

(** The reading of C4 as it is written: on a fetching session the result
    of [insn_decode_continue] tells whether the session left the fetching
    state. *)
Definition continue_reports_transition (cpu : cpu_t) : Prop :=
  forall (id : insn_decode) (b : Z),
    state id = ds_fetching ->
    (snd (insn_decode_continue cpu id b) = true <->
     state (fst (insn_decode_continue cpu id b)) <> ds_fetching).

(** The invariant of C2. *)
Definition fetch_within_required (id : insn_decode) : Prop :=
  bytes_required id > 0 -> bytes_fetched id <= bytes_required id.

(** A fetching session whose length is not known yet: [pending] says
    what the routine has seen so far. *)
Definition session_on_track (pending : insn_decode -> Prop)
    (id : insn_decode) : Prop :=
  (state id = ds_fetching ->
   (bytes_required id = 0 /\ pending id /\ 1 <= bytes_fetched id) \/
   (0 < bytes_required id /\ 1 <= bytes_fetched id < bytes_required id)) /\
  (state id = ds_complete -> fetch_within_required id).

(** What the invariant needs of a state routine [f]. *)
Record resolves_in_time (f : insn_decode -> insn_decode)
    (pending : insn_decode -> Prop) : Prop := mk_resolves_in_time {
  rit_frame : forall id, ns_frame id (f id);
  rit_pending_ext :
    forall id id', bytes id' = bytes id ->
    bytes_fetched id' = bytes_fetched id -> pending id -> pending id';
  rit_pending :
    forall id, state id = ds_fetching -> bytes_fetched id <> 0 ->
    bytes_required id = 0 -> bytes_required (f id) = 0 -> pending (f id);
  rit_positive :
    forall id, bytes_required id = 0 -> 0 <= bytes_required (f id);
  rit_ahead :
    forall id b,
      state id = ds_fetching -> bytes_required id = 0 -> pending id ->
      1 <= bytes_fetched id ->
      bytes_required (f (append_byte b id)) > 0 ->
      bytes_fetched id + 1 <= bytes_required (f (append_byte b id));
  rit_fetching :
    forall id, state id = ds_fetching -> bytes_fetched id <> 0 ->
    state (f id) = ds_fetching ->
    bytes_fetched id <> bytes_required (f id)
}.

(** ** Addressing modes *)

(** The test of [insn_decode_next_state_6809] and of
    [insn_decode_format_6809] for a resolved addressing mode. *)
Definition am6809_valid (am : addrmode_t) : bool :=
  (am >=? am6809_first) && (am <=? am6809_last).

(** The relative and PC-relative modes of the 6809. *)
Definition am6809_relative_p (am : addrmode_t) : bool :=
  am_in am [am6809_rel8; am6809_rel16; am6809_pcrel8; am6809_pcrel8_ind;
            am6809_pcrel16; am6809_pcrel16_ind]%list.

(** The session has a page 2 or page 3 prefix. *)
Definition prefixed_6809 (id : insn_decode) : bool :=
  (byte_at (bytes id) 0 =? 0x10) || (byte_at (bytes id) 0 =? 0x11).

(** The signed offset operand of a relative or PC-relative instruction,
    read where the instruction has it: after the opcode and its prefix,
    and for the PC-relative modes after the postbyte as well. *)
Definition signed_offset_6809 (id : insn_decode) : Z :=
  let i := if prefixed_6809 id then 2 else 1 in
  let am := addrmode id in
  if am =? am6809_rel8 then to_s8 (byte_at (bytes id) i)
  else if am =? am6809_rel16 then read_s16be (bytes id) i
  else if am_in am [am6809_pcrel8; am6809_pcrel8_ind]%list
  then to_s8 (byte_at (bytes id) (i + 1))
  else read_s16be (bytes id) (i + 1).

(** No relative mode, or not an 8-bit PC-relative operand behind a page
    prefix: the case in which the formatter reads the operand from
    [bytes[i + i]]. *)
Definition offset_in_place_6809 (id : insn_decode) : bool :=
  negb (am_in (addrmode id) [am6809_pcrel8; am6809_pcrel8_ind]%list
        && prefixed_6809 id).

(** What the 6809 routine has seen when it leaves [bytes_required] at
    zero: a lone page prefix, or bytes that give no addressing mode. *)
Definition unresolved_6809 (id : insn_decode) : Prop :=
  (bytes_fetched id = 1 /\ prefixed_6809 id = true) \/
  am6809_valid (insn_decode_addrmode_6809 id) = false.

(** The same for the 6800: an opcode that gives no addressing mode. *)
Definition unresolved_6800 (id : insn_decode) : Prop :=
  am_in (insn_decode_addrmode_6800 id)
    [am6800_inherent; am6800_rel; am6800_indexed; am6800_imm8;
     am6800_direct; am6800_extended; am6800_imm16]%list = false.

(** The length of the operand string that stands for a mode in a Z80
    template. *)
Definition z80_operand_length (mode : addrmode_t) : nat :=
  if mode =? amz80_u16 then 5
  else if mode =? amz80_u8 then 3
  else 4.

(** ** Texts and exhaustive checks *)

Fixpoint no_nul (s : string) : bool :=
  match s with
  | EmptyString => true
  | String c r => negb (is_nul c) && no_nul r
  end.

(** [test] holds of the [count] integers from [z] on. *)
Fixpoint all_from (test : Z -> bool) (z : Z) (count : nat) : bool :=
  match count with
  | O => true
  | S n => test z && all_from test (z + 1) n
  end.

(** ** Notions of the further properties *)

(** The annotation of [insn_decode_next_state]. *)
Definition annotation (id : insn_decode) : string :=
  " <" ++ fmt_X 4 (resolved_address id) ++ ">".

(** The architectures whose first byte gives the length. *)
Definition fixed_length_cpu (cpu : cpu_t) : bool :=
  match cpu with
  | cpu_6502 | cpu_65c02 | cpu_6800 => true
  | _ => false
  end.

(** A begun session of such an architecture. *)
Definition fixed_length_invariant (id : insn_decode) : Prop :=
  state id <> ds_idle ->
  1 <= bytes_fetched id <= bytes_required id /\ bytes_required id <= 3 /\
  (state id = ds_complete <-> bytes_fetched id = bytes_required id).

(** A begun session of the 6809: the length, once known, is at most 5,
    and a complete session has all its bytes unless the length was never
    found and the buffer ran full. *)
Definition resolved_or_overflow (id : insn_decode) : Prop :=
  state id <> ds_idle ->
  0 <= bytes_required id <= 5 /\
  (state id = ds_complete ->
   bytes_fetched id = bytes_required id \/
   (bytes_required id = 0 /\ bytes_fetched id = INSN_DECODE_MAXBYTES /\
    c_str (insn_string id) = "<decode overflow>")).

(** What the postbyte [pb] of an indexed instruction of the 6809 has to
    satisfy; a test for the exhaustive check. *)
Definition indexed_postbyte_ok (pb : Z) : bool :=
  let am := insn_decode_addrmode_indexed_6809 pb in
  ((am =? am_invalid)
   || ((am6809_zero_off <=? am) && (am <=? am6809_extended_ind)
       && (1 <=? nth (Z.to_nat (am - am6809_first)) insn_postbytes_6809 0)))
  && (if pb <? 0x80 then am =? am6809_const_off5
      else (am =? am_invalid)
           || Bool.eqb (am6809_indirect_p am) (Z.testbit pb 4)).

(** The words of two bytes. *)
Definition word_ok (hi lo : Z) : bool :=
  (Z.lor (Z.shiftl hi 8) lo =? 256 * hi + lo)
  && (Z.lor lo (Z.shiftl hi 8) =? 256 * hi + lo).

(** The opcodes of [opcodes_z80] with a relative operand: [DJNZ], [JR]
    and the four conditional [JR]. *)
Definition z80_relative_jumps : list Z :=
  [0x10; 0x18; 0x20; 0x28; 0x30; 0x38]%list.

(** The opcodes of [opcodes_6800] that [insn_decode_addrmode_6800] gives
    the relative mode: the branches [0x20] to [0x2f] and [BSR]. *)
Definition m6800_branches : list Z :=
  [0x20; 0x21; 0x22; 0x23; 0x24; 0x25; 0x26; 0x27;
   0x28; 0x29; 0x2a; 0x2b; 0x2c; 0x2d; 0x2e; 0x2f; 0x8d]%list.

(** The opcodes whose template has the operand [rrrr]: the eight
    conditional branches, and [BRA] on the 65C02. *)
Definition m6502_branches (cpu : cpu_t) : list Z :=
  ([0x10; 0x30; 0x50; 0x70; 0x90; 0xb0; 0xd0; 0xf0]
   ++ (if cpu_eqb cpu cpu_65c02 then [0x80] else []))%list.

(** The registers a [PSHS], [PULS], [PSHU] or [PULU] with the opcode [b0]
    and the postbyte [pb] names, in the order of the bits. *)
Definition psh_pul_names (b0 pb : Z) : list string :=
  flat_map
    (fun row : Z * option string =>
       if Z.land pb (fst row) =? 0 then []
       else [match snd row with
             | Some r => r
             | None => if (b0 =? 0x34) || (b0 =? 0x35) then "U" else "S"
             end])
    psh_pul_regnames.

(** What the loop of the [am6809_psh_pul] case appends to the text, row
    by row. *)
Fixpoint psh_pul_text (tbl : list (Z * option string)) (b0 pb : Z) : string :=
  match tbl with
  | []%list => ""
  | ((bit, reg) :: tbl')%list =>
      if bit =? 0 then ""
      else if negb (Z.land pb bit =? 0) then
        (if negb (Z.land pb (bit - 1) =? 0) then "," else "")
        ++ match reg with
           | Some r => r
           | None => if (b0 =? 0x34) || (b0 =? 0x35) then "U" else "S"
           end
        ++ psh_pul_text tbl' b0 pb
      else psh_pul_text tbl' b0 pb
  end.

(** The shifts of the [am6809_const_off5] case. *)
Definition const_off5_shifts (v : Z) : Z :=
  to_s16 (Z.shiftr (to_s32 (Z.shiftl (to_s16 v) 11)) 11).

(** * Frame properties of the formatters *)

Lemma same_control_refl (a : insn_decode) : same_control a a.
Proof. repeat split. Qed.

Lemma same_control_trans (a b c : insn_decode) :
  same_control a b -> same_control b c -> same_control a c.
Proof.
  unfold same_control; intros (?&?&?&?&?&?&?) (?&?&?&?&?&?&?).
  repeat split; congruence.
Qed.

Lemma sc_set_insn_string (s : string) (a b : insn_decode) :
  same_control a b -> same_control (set_insn_string s a) b.
Proof. intro H; exact H. Qed.

Lemma sc_set_resolved_address (v : Z) (a b : insn_decode) :
  same_control a b -> same_control (set_resolved_address v a) b.
Proof. intro H; exact H. Qed.

Lemma sc_set_resolved_address_valid (v : bool) (a b : insn_decode) :
  same_control a b -> same_control (set_resolved_address_valid v a) b.
Proof. intro H; exact H. Qed.

Lemma sc_sprintf_insn_string (t : string) (a b : insn_decode) :
  same_control a b -> same_control (sprintf_insn_string t a) b.
Proof. intro H; exact H. Qed.

Create HintDb sc.
#[local] Hint Resolve same_control_refl sc_set_insn_string
  sc_set_resolved_address sc_set_resolved_address_valid
  sc_sprintf_insn_string : sc.

(** One step through the control structure of a formatter. *)
Ltac sc_step :=
  lazymatch goal with
  | |- same_control (if ?c then _ else _) _ => destruct c
  | |- same_control (match (if ?c then _ else _) with Some _ => _ | None => _ end) _ =>
      destruct c; cbv beta iota
  | |- same_control (match ?o with Some _ => _ | None => _ end) _ => destruct o
  | |- same_control (let (_, _) := ?p in _) _ => destruct p
  | _ => solve [auto 10 with sc]
  end.

Lemma insn_decode_format_6502_frame (cpu : cpu_t) (id : insn_decode) :
  same_control (insn_decode_format_6502 cpu id) id.
Proof. unfold insn_decode_format_6502; cbv zeta; repeat sc_step. Qed.

Lemma insn_decode_format_6800_frame (id : insn_decode) :
  same_control (insn_decode_format_6800 id) id.
Proof. unfold insn_decode_format_6800; cbv zeta; repeat sc_step. Qed.

Lemma psh_pul_loop_frame (tbl : list (Z * option string)) :
  forall (i : Z) (bp : nat) (a b : insn_decode),
    same_control a b -> same_control (psh_pul_loop tbl i bp a) b.
Proof.
  induction tbl as [|[bit reg] tbl IH]; intros i bp a b H; cbn [psh_pul_loop].
  - exact H.
  - destruct (bit =? 0); [exact H|].
    destruct (negb _); apply IH; auto with sc.
Qed.

#[local] Hint Resolve psh_pul_loop_frame : sc.

Lemma insn_decode_format_6809_frame (id : insn_decode) :
  same_control (insn_decode_format_6809 id) id.
Proof. unfold insn_decode_format_6809; cbv beta zeta; repeat sc_step. Qed.

Lemma z80_format_operand_frame (cp : nat) (mode : addrmode_t) (opr_byte : Z)
    (id : insn_decode) :
  same_control (z80_format_operand cp mode opr_byte id) id.
Proof. unfold z80_format_operand; cbv zeta; repeat sc_step. Qed.

Lemma z80_format_operands_frame (fuel : nat) :
  forall (curs : nat) (opr_byte : Z) (id : insn_decode),
    same_control (z80_format_operands fuel curs opr_byte id) id.
Proof.
  induction fuel as [|fuel IH]; intros curs opr_byte id; cbn [z80_format_operands].
  - apply same_control_refl.
  - destruct (z80_next_operand (insn_string id) curs) as [[[cp mode] curs']|].
    + eapply same_control_trans; [apply IH | apply z80_format_operand_frame].
    + apply same_control_refl.
Qed.

Lemma insn_decode_format_z80_frame (id : insn_decode) :
  same_control (insn_decode_format_z80 id) id.
Proof. unfold insn_decode_format_z80; apply z80_format_operands_frame. Qed.

Lemma z80_hl_to_index_frame (id : insn_decode) (tmpl : string) (opc which : Z) :
  same_control (fst (z80_hl_to_index id tmpl opc which)) id.
Proof.
  unfold z80_hl_to_index.
  destruct (z80_copy_to_hl tmpl opc false) as [copied [[need_disp rest]|]];
    cbn [fst]; auto with sc.
Qed.

Lemma z80_insn_template_frame (id : insn_decode) :
  same_control (fst (z80_insn_template id)) id.
Proof.
  unfold z80_insn_template; cbv zeta.
  repeat lazymatch goal with
  | |- same_control (fst (if ?c then _ else _)) _ => destruct c
  | |- same_control (fst (match (if ?c then _ else _) with Some _ => _ | None => _ end)) _ =>
      destruct c; cbv beta iota
  | |- same_control (fst (_, _)) _ => cbn [fst]
  | _ => solve [auto using z80_hl_to_index_frame with sc]
  end.
Qed.

(** The template is left alone when it cannot be built yet. *)
Lemma z80_insn_template_declines (id : insn_decode) :
  snd (z80_insn_template id) = false -> fst (z80_insn_template id) = id.
Proof.
  unfold z80_insn_template; cbv zeta.
  repeat lazymatch goal with
  | |- snd (if ?c then _ else _) = false -> _ => destruct c
  | |- snd (match (if ?c then _ else _) with Some _ => _ | None => _ end) = false -> _ =>
      destruct c; cbv beta iota
  | |- snd (_, _) = false -> _ => cbn [fst snd]; intro; try discriminate; try reflexivity
  end.
Qed.

(** * Frame properties of the state routines *)

Lemma decode_state_eqb_eq (a b : decode_state_t) :
  decode_state_eqb a b = true <-> a = b.
Proof. destruct a, b; cbn; split; congruence. Qed.

Lemma decode_state_eqb_neq (a b : decode_state_t) :
  decode_state_eqb a b = false <-> a <> b.
Proof. destruct a, b; cbn; split; congruence. Qed.

Lemma resolve_frame_refl (id : insn_decode) : resolve_frame id id.
Proof. constructor; auto. Qed.

(** The tail shared by the four routines: format and complete once the
    required bytes are there. *)
Lemma ns_frame_finish (format : insn_decode -> insn_decode)
    (id id1 : insn_decode) :
  (forall x, same_control (format x) x) ->
  state id = ds_fetching ->
  resolve_frame id id1 ->
  ns_frame id
    (if bytes_fetched id1 =? bytes_required id1
     then set_state ds_complete (format id1) else id1).
Proof.
  intros Hfmt Hst [R1 R2 R3 R4 R5 R6].
  destruct (bytes_fetched id1 =? bytes_required id1) eqn:E.
  - destruct (Hfmt id1) as (F1&F2&F3&F4&F5&F6&F7).
    apply Z.eqb_eq in E.
    constructor; cbn [set_state state bytes_fetched bytes next_state
                      insn_address bytes_required]; try congruence.
    + intro H. rewrite F4. auto.
    + right. repeat split; congruence.
  - constructor; try congruence; auto.
Qed.

Lemma ns_frame_refl (id : insn_decode) : ns_frame id id.
Proof. constructor; auto. Qed.

(** The guard at the head of the four routines. *)
Lemma ns_guard (id : insn_decode) :
  negb (decode_state_eqb (state id) ds_fetching) || (bytes_fetched id =? 0) = false ->
  state id = ds_fetching /\ bytes_fetched id <> 0.
Proof.
  intro H. apply orb_false_iff in H as [H1 H2].
  apply negb_false_iff, decode_state_eqb_eq in H1.
  apply Z.eqb_neq in H2. auto.
Qed.

(** Splits on the guard: a routine that it stops returns the session as
    it is. *)
Ltac ns_guard_tac id G :=
  destruct (negb (decode_state_eqb (state id) ds_fetching)
            || (bytes_fetched id =? 0)) eqn:G;
  [ apply ns_frame_refl | apply ns_guard in G as [? ?] ].

Lemma insn_decode_next_state_6502_frame (cpu : cpu_t) (id : insn_decode) :
  ns_frame id (insn_decode_next_state_6502 cpu id).
Proof.
  unfold insn_decode_next_state_6502.
  ns_guard_tac id G.
  cbv zeta.
  apply ns_frame_finish; auto using insn_decode_format_6502_frame.
  destruct (bytes_required id =? 0) eqn:E.
  - apply Z.eqb_eq in E.
    repeat lazymatch goal with
    | |- resolve_frame _ (match ?o with Some _ => _ | None => _ end) => destruct o
    end; constructor; cbn; congruence.
  - apply resolve_frame_refl.
Qed.

Lemma insn_decode_next_state_6800_frame (id : insn_decode) :
  ns_frame id (insn_decode_next_state_6800 id).
Proof.
  unfold insn_decode_next_state_6800.
  ns_guard_tac id G.
  cbv zeta.
  apply ns_frame_finish; auto using insn_decode_format_6800_frame.
  destruct (bytes_required id =? 0) eqn:E.
  - apply Z.eqb_eq in E.
    repeat lazymatch goal with
    | |- resolve_frame _ (if ?c then _ else _) => destruct c
    end; constructor; cbn; congruence.
  - apply resolve_frame_refl.
Qed.

(** The same for a resolve block that can return early. *)
Lemma ns_frame_resolved (format : insn_decode -> insn_decode)
    (id : insn_decode) (resolved : option insn_decode) :
  (forall x, same_control (format x) x) ->
  state id = ds_fetching ->
  (forall id1, resolved = Some id1 -> resolve_frame id id1) ->
  ns_frame id
    match resolved with
    | None => id
    | Some id1 =>
        if bytes_fetched id1 =? bytes_required id1
        then set_state ds_complete (format id1) else id1
    end.
Proof.
  intros Hfmt Hst Hres. destruct resolved as [id1|].
  - apply ns_frame_finish; auto.
  - apply ns_frame_refl.
Qed.

(** Walks the branches of a resolve block that ends in [Some] or [None]. *)
Ltac resolve_branches :=
  repeat lazymatch goal with
  | |- (if ?c then _ else _) = Some _ -> _ => destruct c
  | |- Some _ = Some _ -> _ =>
      let H := fresh in intro H; injection H as <-
  | |- None = Some _ -> _ => discriminate
  end.

Lemma insn_decode_next_state_6809_frame (id : insn_decode) :
  ns_frame id (insn_decode_next_state_6809 id).
Proof.
  unfold insn_decode_next_state_6809.
  ns_guard_tac id G.
  cbv zeta.
  apply ns_frame_resolved; auto using insn_decode_format_6809_frame.
  intro id1.
  destruct (bytes_required id =? 0) eqn:E.
  - apply Z.eqb_eq in E.
    resolve_branches; constructor; cbn; congruence.
  - resolve_branches. apply resolve_frame_refl.
Qed.

Lemma z80_count_operands_frame (fuel : nat) :
  forall (curs : nat) (id : insn_decode),
    let id' := z80_count_operands fuel curs id in
    state id' = state id /\ bytes_fetched id' = bytes_fetched id /\
    bytes id' = bytes id /\ next_state id' = next_state id /\
    insn_address id' = insn_address id.
Proof.
  induction fuel as [|fuel IH]; intros curs id; cbn [z80_count_operands].
  - repeat split.
  - destruct (z80_next_operand (insn_string id) curs) as [[[cp mode] curs']|].
    + exact (IH curs' (set_bytes_required
                         (bytes_required id + z80_operand_size mode) id)).
    + repeat split.
Qed.

Lemma insn_decode_next_state_z80_frame (id : insn_decode) :
  ns_frame id (insn_decode_next_state_z80 id).
Proof.
  unfold insn_decode_next_state_z80.
  ns_guard_tac id G.
  cbv zeta.
  apply ns_frame_resolved; auto using insn_decode_format_z80_frame.
  intro id1.
  destruct (bytes_required id =? 0) eqn:E.
  - apply Z.eqb_eq in E.
    pose proof (z80_insn_template_frame id) as T.
    destruct (z80_insn_template id) as [idt [|]]; [|discriminate].
    cbn [fst] in T. destruct T as (T1&T2&T3&T4&T5&T6&T7).
    intro Hs; injection Hs as <-.
    match goal with
    | |- resolve_frame _ (z80_count_operands ?f ?c ?x) =>
        destruct (z80_count_operands_frame f c x) as (C1&C2&C3&C4&C5);
        assert (X : state x = state idt /\ bytes_fetched x = bytes_fetched idt /\
                    bytes x = bytes idt /\ next_state x = next_state idt /\
                    insn_address x = insn_address idt)
    end.
    { repeat lazymatch goal with
      | |- context [if ?c then _ else _] => destruct c
      end; repeat split. }
    destruct X as (X1&X2&X3&X4&X5).
    constructor; congruence.
  - intro Hs; injection Hs as <-. apply resolve_frame_refl.
Qed.

Lemma call_next_state_frame (cpu : cpu_t) (f : next_state_fn) (id : insn_decode) :
  ns_frame id (call_next_state cpu f id).
Proof.
  destruct f; cbn [call_next_state].
  - apply insn_decode_next_state_6502_frame.
  - apply insn_decode_next_state_6800_frame.
  - apply insn_decode_next_state_6809_frame.
  - apply insn_decode_next_state_z80_frame.
Qed.

(** The driver [insn_decode_next_state] adds only the target annotation
    to what the routine did, and reports whether it ran on a fetching
    session. *)
Lemma insn_decode_next_state_frame (cpu : cpu_t) (id : insn_decode) :
  ns_frame id (fst (insn_decode_next_state cpu id)).
Proof.
  unfold insn_decode_next_state; cbv zeta.
  destruct (next_state id) as [f|]; [|apply ns_frame_refl].
  pose proof (call_next_state_frame cpu f id) as F.
  destruct (decode_state_eqb (state id) ds_fetching) eqn:E; cbn [fst]; [|exact F].
  destruct (decode_state_eqb (state (call_next_state cpu f id)) ds_complete
            && resolved_address_valid (call_next_state cpu f id)); [|exact F].
  apply decode_state_eqb_eq in E.
  destruct F as [F1 F2 F3 F4 F5 F6 F7].
  constructor; cbn [set_insn_string state bytes_fetched bytes next_state
                    insn_address bytes_required]; auto.
  intro H; contradiction.
Qed.

Lemma insn_decode_next_state_result (cpu : cpu_t) (id : insn_decode) :
  snd (insn_decode_next_state cpu id) = true <->
  state id = ds_fetching /\ next_state id <> None.
Proof.
  unfold insn_decode_next_state; cbv zeta.
  destruct (next_state id) as [f|].
  - destruct (decode_state_eqb (state id) ds_fetching) eqn:E; cbn [snd].
    + apply decode_state_eqb_eq in E. split; auto. split; [auto|discriminate].
    + apply decode_state_eqb_neq in E. split; [discriminate|tauto].
  - cbn [snd]. split; [discriminate|]. intros [_ H]. contradiction.
Qed.

(** * The calls of a client *)

Lemma insn_decode_init_state (cpu : cpu_t) (id : insn_decode) :
  state (insn_decode_init cpu id) = ds_idle.
Proof. unfold insn_decode_init; destruct cpu; reflexivity. Qed.

Lemma fetch_bounded_init (cpu : cpu_t) (id : insn_decode) :
  fetch_bounded (insn_decode_init cpu id).
Proof. intro H. rewrite insn_decode_init_state in H. contradiction. Qed.

Lemma insn_decode_begin_fetched (cpu : cpu_t) (id : insn_decode) (addr b : Z) :
  insn_decode_begin cpu id addr b = id \/
  (bytes_fetched (insn_decode_begin cpu id addr b) = 1 /\
   state (insn_decode_begin cpu id addr b) <> ds_idle).
Proof.
  unfold insn_decode_begin.
  destruct (next_state id); [|auto].
  destruct (_ || _); [|auto]. right. cbv zeta.
  match goal with
  | |- context [insn_decode_next_state cpu ?x] =>
      destruct (insn_decode_next_state_frame cpu x) as [F1 _ _ _ _ F6 _]
  end.
  split; [rewrite F1; reflexivity|].
  destruct F6 as [F6|(_ & F6 & _)]; rewrite F6; discriminate.
Qed.

Lemma fetch_bounded_begin (cpu : cpu_t) (id : insn_decode) (addr b : Z) :
  fetch_bounded id -> fetch_bounded (insn_decode_begin cpu id addr b).
Proof.
  intro H. destruct (insn_decode_begin_fetched cpu id addr b) as [E|[E _]].
  - rewrite E; exact H.
  - intros _. rewrite E. unfold INSN_DECODE_MAXBYTES. lia.
Qed.

(** What [insn_decode_continue] does, case by case. *)
Lemma insn_decode_continue_cases (cpu : cpu_t) (id : insn_decode) (b : Z) :
  (state id <> ds_fetching /\ insn_decode_continue cpu id b = (id, false)) \/
  (state id = ds_fetching /\ bytes_fetched id = INSN_DECODE_MAXBYTES /\
   insn_decode_continue cpu id b =
     (set_state ds_complete
        (set_insn_string (strcpy (insn_string id) "<decode overflow>") id),
      false)) \/
  (state id = ds_fetching /\ bytes_fetched id <> INSN_DECODE_MAXBYTES /\
   insn_decode_continue cpu id b =
     insn_decode_next_state cpu
       (set_bytes_fetched (bytes_fetched id + 1)
          (set_bytes (byte_store (bytes id) (bytes_fetched id) b) id))).
Proof.
  unfold insn_decode_continue.
  destruct (decode_state_eqb (state id) ds_fetching) eqn:E.
  - apply decode_state_eqb_eq in E. right.
    destruct (bytes_fetched id =? INSN_DECODE_MAXBYTES) eqn:E8.
    + apply Z.eqb_eq in E8. left. auto.
    + apply Z.eqb_neq in E8. right. auto.
  - apply decode_state_eqb_neq in E. left. auto.
Qed.

Lemma fetch_bounded_continue (cpu : cpu_t) (id : insn_decode) (b : Z) :
  fetch_bounded id -> fetch_bounded (fst (insn_decode_continue cpu id b)).
Proof.
  intro H.
  destruct (insn_decode_continue_cases cpu id b)
    as [(S & E)|[(S & F & E)|(S & F & E)]]; rewrite E; cbn [fst].
  - exact H.
  - intros _. cbn. rewrite F. unfold INSN_DECODE_MAXBYTES. lia.
  - intros _.
    match goal with
    | |- context [insn_decode_next_state cpu ?x] =>
        destruct (insn_decode_next_state_frame cpu x) as [F1 _ _ _ _ _ _]
    end.
    rewrite F1. cbn [set_bytes_fetched bytes_fetched].
    assert (1 <= bytes_fetched id <= INSN_DECODE_MAXBYTES) by (apply H; congruence).
    unfold INSN_DECODE_MAXBYTES in *. lia.
Qed.

Lemma fetch_bounded_calls (cpu : cpu_t) (cs : list call) :
  forall id, fetch_bounded id -> fetch_bounded (do_calls cpu id cs).
Proof.
  unfold do_calls.
  induction cs as [|c cs IH]; intros id H; cbn [fold_left]; [exact H|].
  apply IH. destruct c; cbn [do_call].
  - apply fetch_bounded_begin; exact H.
  - apply fetch_bounded_continue; exact H.
  - unfold insn_decode_complete. destruct (decode_state_eqb _ _); exact H.
Qed.

Lemma continue_all_complete (cpu : cpu_t) (bs : list Z) :
  forall id, state id = ds_complete -> continue_all cpu id bs = id.
Proof.
  induction bs as [|b bs IH]; intros id H; cbn [continue_all]; [reflexivity|].
  destruct (insn_decode_continue_cases cpu id b)
    as [(S & E)|[(S & F & E)|(S & F & E)]]; try congruence.
  rewrite E; cbn [fst]. apply IH; exact H.
Qed.

Lemma insn_decode_continue_frame (cpu : cpu_t) (id : insn_decode) (b : Z) :
  bytes_required id <> 0 ->
  bytes_required (fst (insn_decode_continue cpu id b)) = bytes_required id.
Proof.
  intro H.
  destruct (insn_decode_continue_cases cpu id b)
    as [(S & E)|[(S & F & E)|(S & F & E)]]; rewrite E; cbn [fst]; try reflexivity.
  match goal with
  | |- context [insn_decode_next_state cpu ?x] =>
      destruct (insn_decode_next_state_frame cpu x) as [_ _ _ _ F5 _ _]
  end.
  rewrite F5; [reflexivity | exact H].
Qed.

Lemma continue_all_fetched (cpu : cpu_t) (bs : list Z) :
  forall id,
    state (continue_all cpu id bs) = ds_fetching ->
    bytes_fetched (continue_all cpu id bs) =
      bytes_fetched id + Z.of_nat (List.length bs).
Proof.
  induction bs as [|b bs IH]; intros id H; cbn [continue_all List.length] in *.
  - lia.
  - destruct (insn_decode_continue_cases cpu id b)
      as [(S & E)|[(S & F & E)|(S & F & E)]]; rewrite E in *; cbn [fst] in *.
    + (* not fetching: nothing ever changes again *)
      exfalso. clear IH E. revert H. generalize dependent id.
      induction bs as [|b' bs IH']; intros id S; cbn [continue_all].
      * exact S.
      * destruct (insn_decode_continue_cases cpu id b')
          as [(S' & E')|[(S' & F' & E')|(S' & F' & E')]]; try congruence.
        rewrite E'; cbn [fst]. apply IH'; exact S.
    + exfalso. rewrite continue_all_complete in H by reflexivity.
      cbn in H. discriminate.
    + rewrite IH by exact H.
      match goal with
      | |- context [insn_decode_next_state cpu ?x] =>
          destruct (insn_decode_next_state_frame cpu x) as [F1 _ _ _ _ _ _]
      end.
      rewrite F1. cbn [set_bytes_fetched bytes_fetched]. lia.
Qed.

(** * Texts without a terminator *)

Lemma no_nul_app (s t : string) :
  no_nul (s ++ t) = no_nul s && no_nul t.
Proof.
  induction s as [|c s IH]; cbn [append no_nul]; [reflexivity|].
  rewrite IH, andb_assoc. reflexivity.
Qed.

Lemma c_str_no_nul (s : string) : no_nul s = true -> c_str s = s.
Proof.
  induction s as [|c s IH]; cbn [no_nul c_str]; [reflexivity|].
  intro H. apply andb_true_iff in H as [H1 H2].
  apply negb_true_iff in H1. rewrite H1, IH by exact H2. reflexivity.
Qed.

Lemma c_str_overwrite (s buf : string) :
  no_nul s = true -> c_str (overwrite (s ++ String NUL EmptyString) buf) = s.
Proof.
  revert buf.
  induction s as [|c s IH]; intros buf H; cbn [append overwrite c_str no_nul] in *.
  - reflexivity.
  - apply andb_true_iff in H as [H1 H2]. apply negb_true_iff in H1.
    rewrite H1, IH by exact H2. reflexivity.
Qed.

Lemma c_str_strcpy (buf s : string) :
  no_nul s = true -> c_str (strcpy buf s) = s.
Proof. apply c_str_overwrite. Qed.

(** [sprintf] at the end of the string in the buffer appends. *)
Lemma c_str_strcpy_at_end (buf s : string) :
  no_nul s = true ->
  c_str (strcpy_at buf (strlen buf) s) = c_str buf ++ s.
Proof.
  intro H. unfold strcpy_at, strlen.
  induction buf as [|c buf IH]; cbn [c_str].
  - cbn [String.length buf_write append]. apply c_str_overwrite; exact H.
  - destruct (is_nul c) eqn:E; cbn [String.length buf_write append].
    + apply c_str_overwrite; exact H.
    + cbn [c_str]. rewrite E, IH. reflexivity.
Qed.

Lemma no_nul_repeat_char (c : ascii) (n : nat) :
  is_nul c = false -> no_nul (repeat_char c n) = true.
Proof.
  intro H. induction n as [|n IH]; cbn [repeat_char no_nul]; [reflexivity|].
  rewrite H, IH. reflexivity.
Qed.

Lemma no_nul_dec_uint (d : Decimal.uint) :
  no_nul (DecimalString.NilEmpty.string_of_uint d) = true.
Proof.
  induction d; cbn [DecimalString.NilEmpty.string_of_uint no_nul];
    try rewrite IHd; reflexivity.
Qed.

Lemma no_nul_fmt_d (z : Z) : no_nul (fmt_d z) = true.
Proof.
  unfold fmt_d, DecimalString.NilZero.string_of_int,
    DecimalString.NilZero.string_of_uint.
  destruct (Z.to_int z) as [d|d]; destruct d; cbn [no_nul];
    try rewrite no_nul_dec_uint; try reflexivity;
    match goal with
    | |- context [DecimalString.NilEmpty.string_of_uint ?x] =>
        apply (no_nul_dec_uint x)
    | |- _ => apply (andb_true_intro (conj eq_refl (no_nul_dec_uint _)))
    end.
Qed.

Lemma no_nul_upcase_hex (d : Hexadecimal.uint) :
  no_nul (upcase_string (HexadecimalString.NilEmpty.string_of_uint d)) = true.
Proof.
  induction d;
    cbn [HexadecimalString.NilEmpty.string_of_uint upcase_string no_nul];
    try rewrite IHd; reflexivity.
Qed.

Lemma no_nul_fmt_X (width : nat) (z : Z) : no_nul (fmt_X width z) = true.
Proof.
  unfold fmt_X, pad_left. rewrite no_nul_app.
  rewrite no_nul_repeat_char by reflexivity. cbn [andb].
  unfold HexadecimalString.NilZero.string_of_uint.
  destruct (N.to_hex_uint (Z.to_N z)); try reflexivity;
    apply no_nul_upcase_hex.
Qed.

Lemma no_nul_opcode_at (tbl : list string) (i : Z) :
  forallb no_nul tbl = true -> no_nul (opcode_at tbl i) = true.
Proof.
  intro H. unfold opcode_at.
  destruct (nth_in_or_default (Z.to_nat i) tbl "") as [I|E].
  - rewrite forallb_forall in H. apply H; exact I.
  - rewrite E. reflexivity.
Qed.

Lemma no_nul_extopc_mnemonic_6809 (extopc : Z) :
  no_nul (extopc_mnemonic_6809 extopc) = true.
Proof.
  unfold extopc_mnemonic_6809; cbv zeta.
  repeat lazymatch goal with
  | |- no_nul (if ?c then _ else _) = true => destruct c
  end; try reflexivity.
  apply no_nul_opcode_at. reflexivity.
Qed.

(** * The width of the target annotation *)

Lemma length_append (s t : string) :
  String.length (s ++ t) = (String.length s + String.length t)%nat.
Proof. induction s as [|c s IH]; cbn [append String.length]; lia. Qed.

Lemma length_repeat_char (c : ascii) (n : nat) :
  String.length (repeat_char c n) = n.
Proof. induction n as [|n IH]; cbn [repeat_char String.length]; lia. Qed.

Lemma length_fmt_X_min (width : nat) (z : Z) :
  (width <= String.length (fmt_X width z))%nat.
Proof.
  unfold fmt_X, pad_left. rewrite length_append, length_repeat_char. lia.
Qed.

Lemma all_from_spec (test : Z -> bool) (count : nat) :
  forall z0, all_from test z0 count = true ->
  forall z, z0 <= z < z0 + Z.of_nat count -> test z = true.
Proof.
  induction count as [|n IH]; intros z0 H z R; cbn [all_from] in H.
  - lia.
  - apply andb_true_iff in H as [H1 H2].
    destruct (Z.eq_dec z z0) as [->|N]; [exact H1|].
    apply (IH (z0 + 1) H2). lia.
Qed.

(** [%04lX] prints exactly four digits for every value below [0x10000]:
    checked on each of them. *)
Lemma length_fmt_X_4 (z : Z) :
  0 <= z < 65536 -> String.length (fmt_X 4 z) = 4%nat.
Proof.
  intro R.
  apply Nat.eqb_eq.
  apply (all_from_spec (fun z => Nat.eqb (String.length (fmt_X 4 z)) 4)
           (Pos.to_nat 65536) 0).
  - vm_compute. reflexivity.
  - rewrite positive_nat_Z. lia.
Qed.

(** * The 6809 formatter at a given addressing mode *)

Lemma append_empty_r (s : string) : s ++ "" = s.
Proof. induction s as [|c s IH]; cbn [append]; congruence. Qed.

(** Replaces the tests that evaluate to a boolean by their value. *)
Ltac eval_tests :=
  repeat match goal with
  | |- context [if ?c then _ else _] =>
      let v := eval vm_compute in c in
      lazymatch v with
      | true => change c with true
      | false => change c with false
      end; cbv beta iota
  end.

Lemma am_in_cons (am a : addrmode_t) (l : list addrmode_t) :
  am_in am (a :: l) = true -> am = a \/ am_in am l = true.
Proof.
  unfold am_in; cbn [existsb]. intro H. apply orb_true_iff in H as [H|H].
  - left. apply Z.eqb_eq; exact H.
  - right; exact H.
Qed.

(** The enumerators a membership test leaves. *)
Ltac am_cases H :=
  repeat (apply am_in_cons in H as [H|H]); [..|discriminate H].

Lemma format_6809_relative (id : insn_decode) :
  am6809_relative_p (addrmode id) = true ->
  offset_in_place_6809 id = true ->
  resolved_address (insn_decode_format_6809 id) =
    to_u32 (insn_address id + signed_offset_6809 id) /\
  resolved_address_valid (insn_decode_format_6809 id) = true.
Proof.
  unfold am6809_relative_p, offset_in_place_6809, signed_offset_6809, prefixed_6809.
  intros H P.
  unfold insn_decode_format_6809. cbv beta zeta.
  am_cases H; rewrite H in *; eval_tests;
    cbn [sprintf_insn_string set_insn_string insn_string addrmode
         insn_address];
    rewrite H; eval_tests;
    cbn [set_resolved_address_valid set_resolved_address resolved_address
         resolved_address_valid sprintf_insn_string set_insn_string
         insn_address];
    try (split; reflexivity).
  all: destruct ((byte_at (bytes id) 0 =? 16) || (byte_at (bytes id) 0 =? 17));
    [discriminate P | split; reflexivity].
Qed.

Lemma insn_decode_next_state_6809_complete (id : insn_decode) :
  state id = ds_fetching ->
  state (insn_decode_next_state_6809 id) = ds_complete ->
  exists idr,
    insn_decode_next_state_6809 id =
      set_state ds_complete (insn_decode_format_6809 idr) /\
    bytes idr = bytes id /\ insn_address idr = insn_address id.
Proof.
  intros S. unfold insn_decode_next_state_6809.
  destruct (negb (decode_state_eqb (state id) ds_fetching)
            || (bytes_fetched id =? 0)); [congruence|].
  cbv zeta.
  match goal with
  | |- state (match ?r with Some _ => _ | None => _ end) = _ -> _ =>
      assert (R : forall id1, r = Some id1 ->
                  state id1 = state id /\ bytes id1 = bytes id /\
                  insn_address id1 = insn_address id);
      [|destruct r as [id1|]; [|congruence]]
  end.
  { intro id1. resolve_branches; repeat split. }
  destruct (R id1 eq_refl) as (R1 & R2 & R3).
  destruct (bytes_fetched id1 =? bytes_required id1); [|congruence].
  intros _. exists id1. auto.
Qed.

(** * The loops of the Z80 formatter end

    The two [for] loops over the operands of a template are given the
    length of the buffer as fuel.  That is enough: more fuel gives the
    same result. *)

Lemma length_overwrite_within (src buf : string) :
  (String.length src <= String.length buf)%nat ->
  String.length (overwrite src buf) = String.length buf.
Proof.
  revert buf. induction src as [|c src IH]; intros buf H; cbn [overwrite].
  - reflexivity.
  - destruct buf as [|b buf]; cbn [String.length] in *; [lia|].
    rewrite IH by lia. reflexivity.
Qed.

Lemma length_buf_write_within (buf : string) (pos : nat) (src : string) :
  (pos + String.length src <= String.length buf)%nat ->
  String.length (buf_write buf pos src) = String.length buf.
Proof.
  revert buf. induction pos as [|pos IH]; intros buf H; cbn [buf_write].
  - apply length_overwrite_within; exact H.
  - destruct buf as [|b buf]; cbn [String.length] in *; [lia|].
    rewrite IH by lia. reflexivity.
Qed.

Lemma length_substring_le (n m : nat) (s : string) :
  (String.length (substring n m s) <= m)%nat.
Proof.
  revert n m. induction s as [|c s IH]; intros n m.
  - destruct n, m; cbn; lia.
  - destruct n as [|n]; cbn [substring].
    + destruct m as [|m]; cbn [String.length]; [lia|].
      specialize (IH 0%nat m). lia.
    + apply IH.
Qed.

Lemma length_c_str_le (s : string) :
  (String.length (c_str s) <= String.length s)%nat.
Proof.
  induction s as [|c s IH]; cbn [c_str]; [lia|].
  destruct (is_nul c); cbn [String.length]; lia.
Qed.

Lemma length_buf_from (n : nat) (s : string) :
  String.length (buf_from n s) = (String.length s - n)%nat.
Proof.
  revert s. induction n as [|n IH]; intros s; cbn [buf_from].
  - lia.
  - destruct s as [|c s]; cbn [String.length]; [reflexivity|]. apply IH.
Qed.

Lemma span_to_blank_le (s : string) :
  (span_to_blank s <= String.length s)%nat.
Proof.
  induction s as [|c s IH]; cbn [span_to_blank String.length]; [lia|].
  destruct (_ || _); lia.
Qed.

Lemma span_blanks_le (s : string) :
  (span_blanks s <= String.length s)%nat.
Proof.
  induction s as [|c s IH]; cbn [span_blanks String.length]; [lia|].
  destruct (Ascii.eqb c " "); lia.
Qed.

Lemma length_z80_collapse_blanks (buf : string) (cp : nat) :
  (cp <= String.length buf)%nat ->
  String.length (z80_collapse_blanks buf cp) = String.length buf.
Proof.
  intro H. unfold z80_collapse_blanks. cbv zeta.
  pose proof (span_to_blank_le (buf_from cp buf)) as S1.
  rewrite length_buf_from in S1.
  set (cp' := (cp + span_to_blank (buf_from cp buf))%nat) in *.
  pose proof (span_blanks_le (buf_from cp' buf)) as S2.
  pose proof (length_buf_from cp' buf) as L.
  destruct (buf_from cp' buf) as [|c r] eqn:E; [reflexivity|].
  destruct (Ascii.eqb c " ") eqn:B; [|reflexivity].
  rewrite L in S2.
  assert (S3 : (1 <= span_blanks (String c r))%nat)
    by (cbn [span_blanks]; rewrite B; lia).
  unfold strcpy_at. apply length_buf_write_within.
  rewrite length_append. cbn [String.length].
  pose proof (length_c_str_le
                (buf_from (cp' + span_blanks (String c r)) buf)) as S4.
  rewrite length_buf_from in S4. lia.
Qed.

Lemma prefix_length (s t : string) :
  String.prefix s t = true -> (String.length s <= String.length t)%nat.
Proof.
  revert t. induction s as [|c s IH]; intros t H; cbn [String.length]; [lia|].
  destruct t as [|d t]; cbn [String.prefix] in H; [discriminate|].
  destruct (ascii_dec c d); [|discriminate].
  cbn [String.length]. specialize (IH t H). lia.
Qed.

(** An operand that [z80_next_operand] finds lies in the buffer, at or
    after the cursor, and the new cursor is behind it. *)
Lemma z80_scan_operand_bounds (rest : string) :
  forall (cp r : nat) (mode : addrmode_t) (curs' : nat),
    z80_scan_operand rest cp = Some (r, mode, curs') ->
    (cp <= r)%nat /\ curs' = (r + z80_operand_length mode)%nat /\
    (curs' <= cp + String.length rest)%nat /\
    am_in mode [amz80_u16; amz80_u8; amz80_disp8; amz80_pcrel8]%list = true.
Proof.
  induction rest as [|c rest IH]; intros cp r mode curs' H;
    cbn [z80_scan_operand] in H; [discriminate|].
  destruct (is_nul c); [discriminate|].
  destruct (find _ z80_operand_types) as [[opr_string opr_mode]|] eqn:F.
  - injection H as <- <- <-.
    unfold z80_operand_types in F. cbn [find fst] in F.
    repeat match type of F with
    | (if ?t then _ else _) = _ =>
        let P := fresh "P" in
        destruct t eqn:P;
        [ injection F as <- <-; apply prefix_length in P;
          cbn [String.length] in P |- *;
          repeat split; try reflexivity; lia | ]
    end.
    discriminate.
  - apply IH in H as (H1 & H2 & H3 & H4). cbn [String.length].
    repeat split; auto; lia.
Qed.

Lemma z80_next_operand_bounds (buf : string) (curs r : nat)
    (mode : addrmode_t) (curs' : nat) :
  z80_next_operand buf curs = Some (r, mode, curs') ->
  (curs < curs')%nat /\ curs' = (r + z80_operand_length mode)%nat /\
  (curs' <= String.length buf)%nat /\
  am_in mode [amz80_u16; amz80_u8; amz80_disp8; amz80_pcrel8]%list = true.
Proof.
  unfold z80_next_operand. intro H.
  apply z80_scan_operand_bounds in H as (H1 & H2 & H3 & H4).
  rewrite length_buf_from in H3.
  assert (0 < z80_operand_length mode)%nat
    by (unfold z80_operand_length; repeat destruct (_ =? _); lia).
  repeat split; auto; lia.
Qed.

(** Substituting an operand keeps the length of the buffer. *)
Lemma length_z80_format_operand (cp : nat) (mode : addrmode_t) (opr_byte : Z)
    (id : insn_decode) :
  (cp + z80_operand_length mode <= String.length (insn_string id))%nat ->
  am_in mode [amz80_u16; amz80_u8; amz80_disp8; amz80_pcrel8]%list = true ->
  String.length (insn_string (z80_format_operand cp mode opr_byte id)) =
  String.length (insn_string id).
Proof.
  intros H M. unfold z80_format_operand. cbv zeta.
  am_cases M; subst mode; eval_tests;
    cbn [set_resolved_address_valid set_resolved_address set_insn_string
         insn_string];
    change (z80_operand_length _) with 5%nat in H ||
    change (z80_operand_length _) with 3%nat in H ||
    change (z80_operand_length _) with 4%nat in H.
  - apply length_buf_write_within.
    pose proof (length_substring_le 0 4 (fmt_X 4 (read_u16le (bytes id) opr_byte))).
    lia.
  - apply length_buf_write_within.
    pose proof (length_substring_le 0 2 (fmt_X 2 (byte_at (bytes id) opr_byte))).
    lia.
  - rewrite length_z80_collapse_blanks.
    + destruct (_ <? 0); apply length_buf_write_within;
        match goal with
        | |- context [substring 0 ?n ?s] =>
            pose proof (length_substring_le 0 n s)
        end; lia.
    + destruct (_ <? 0); rewrite length_buf_write_within;
        match goal with
        | |- context [substring 0 ?n ?s] =>
            pose proof (length_substring_le 0 n s)
        | |- _ => idtac
        end; lia.
  - apply length_buf_write_within.
    match goal with
    | |- context [substring 0 ?n ?s] =>
        pose proof (length_substring_le 0 n s)
    end. lia.
Qed.

Lemma z80_format_operands_fuel (fuel : nat) :
  forall (fuel' curs : nat) (opr_byte : Z) (id : insn_decode),
    (String.length (insn_string id) - curs <= fuel)%nat ->
    (fuel <= fuel')%nat ->
    z80_format_operands fuel' curs opr_byte id =
    z80_format_operands fuel curs opr_byte id.
Proof.
  induction fuel as [|fuel IH]; intros fuel' curs opr_byte id L F.
  - assert (N : z80_next_operand (insn_string id) curs = None).
    { destruct (z80_next_operand (insn_string id) curs) as [[[r m] c']|] eqn:E;
        [|reflexivity].
      apply z80_next_operand_bounds in E. lia. }
    destruct fuel'; cbn [z80_format_operands]; [reflexivity|].
    rewrite N. reflexivity.
  - destruct fuel' as [|fuel']; [lia|]. cbn [z80_format_operands].
    destruct (z80_next_operand (insn_string id) curs) as [[[r m] c']|] eqn:E;
      [|reflexivity].
    apply z80_next_operand_bounds in E as (E1 & E2 & E3 & E4).
    apply IH; [|lia].
    rewrite length_z80_format_operand; [lia | lia | exact E4].
Qed.

Lemma z80_count_operands_fuel (fuel : nat) :
  forall (fuel' curs : nat) (id : insn_decode),
    (String.length (insn_string id) - curs <= fuel)%nat ->
    (fuel <= fuel')%nat ->
    z80_count_operands fuel' curs id = z80_count_operands fuel curs id.
Proof.
  induction fuel as [|fuel IH]; intros fuel' curs id L F.
  - assert (N : z80_next_operand (insn_string id) curs = None).
    { destruct (z80_next_operand (insn_string id) curs) as [[[r m] c']|] eqn:E;
        [|reflexivity].
      apply z80_next_operand_bounds in E. lia. }
    destruct fuel'; cbn [z80_count_operands]; [reflexivity|].
    rewrite N. reflexivity.
  - destruct fuel' as [|fuel']; [lia|]. cbn [z80_count_operands].
    destruct (z80_next_operand (insn_string id) curs) as [[[r m] c']|] eqn:E;
      [|reflexivity].
    apply z80_next_operand_bounds in E as (E1 & E2 & E3 & E4).
    apply IH; [|lia]. cbn [set_bytes_required insn_string]. lia.
Qed.

(** The fuel the Z80 formatter and the Z80 state routine use is enough. *)
Lemma insn_decode_format_z80_fuel (id : insn_decode) (extra : nat) :
  let b0 := byte_at (bytes id) 0 in
  let opr_byte :=
    if (b0 =? 0xcb) || (b0 =? 0xed) then 2
    else if (b0 =? 0xdd) || (b0 =? 0xfd) then 2
    else 1 in
  z80_format_operands (String.length (insn_string id) + extra) 0 opr_byte id =
  insn_decode_format_z80 id.
Proof.
  cbv zeta. unfold insn_decode_format_z80. cbv zeta.
  apply z80_format_operands_fuel; lia.
Qed.

(** * The scope of the defect behind C2

    [bytes_fetched <= bytes_required] whenever [bytes_required > 0] does
    hold for the 6502, the 65C02, the 6800, the 6809 and the 6809E. *)

Lemma insn_decode_next_state_driver (cpu : cpu_t) (f : next_state_fn)
    (id : insn_decode) :
  next_state id = Some f ->
  exists s, fst (insn_decode_next_state cpu id) =
            set_insn_string s (call_next_state cpu f id).
Proof.
  intro N. unfold insn_decode_next_state. rewrite N. cbv zeta.
  destruct (decode_state_eqb (state id) ds_fetching); cbn [fst].
  - destruct (_ && _).
    + eexists; reflexivity.
    + exists (insn_string (call_next_state cpu f id)).
      destruct (call_next_state cpu f id); reflexivity.
  - exists (insn_string (call_next_state cpu f id)).
    destruct (call_next_state cpu f id); reflexivity.
Qed.

Section OnTrack.

Variable cpu : cpu_t.
Variable f : next_state_fn.
Variable pending : insn_decode -> Prop.
Hypothesis Hrit : resolves_in_time (call_next_state cpu f) pending.

(** The routine has just run on a fetching session [id] with a byte in
    it; before that [bytes_required] was zero, or the count was below
    it. *)
Lemma on_track_after_routine (id : insn_decode) (s : string) :
  state id = ds_fetching ->
  1 <= bytes_fetched id ->
  (bytes_required id = 0 ->
   bytes_required (call_next_state cpu f id) > 0 ->
   bytes_fetched id <= bytes_required (call_next_state cpu f id)) ->
  (bytes_required id <> 0 -> bytes_fetched id <= bytes_required id) ->
  session_on_track pending (set_insn_string s (call_next_state cpu f id)).
Proof.
  intros S F A B.
  destruct Hrit as [Rf Rext Rp Rpos Ra Rfet].
  destruct (Rf id) as [F1 F2 F3 F4 F5 F6 F7].
  set (id' := call_next_state cpu f id) in *.
  split; cbn [set_insn_string state bytes_required bytes_fetched].
  - intro S'.
    assert (Ne : bytes_fetched id <> bytes_required id')
      by (apply Rfet; auto; lia).
    destruct (Z.eq_dec (bytes_required id) 0) as [Z0|NZ].
    + destruct (Z.eq_dec (bytes_required id') 0) as [Z1|NZ1].
      * left. repeat split; auto; [|lia].
        apply (Rext id'); auto. apply Rp; auto. lia.
      * right. specialize (Rpos id Z0). fold id' in Rpos.
        assert (bytes_fetched id <= bytes_required id') by (apply A; auto; lia).
        lia.
    + right. rewrite (F5 NZ) in *. specialize (B NZ). lia.
  - intros S' G. unfold fetch_within_required in *.
    cbn [set_insn_string bytes_required bytes_fetched] in *.
    destruct F6 as [F6|(_ & _ & F6)]; [congruence|]. lia.
Qed.

Lemma on_track_continue (id : insn_decode) (b : Z) :
  next_state id = Some f ->
  session_on_track pending id ->
  session_on_track pending (fst (insn_decode_continue cpu id b)).
Proof.
  intros N [T1 T2].
  destruct (insn_decode_continue_cases cpu id b)
    as [(S & E)|[(S & F & E)|(S & F & E)]]; rewrite E; cbn [fst].
  - split; assumption.
  - split; cbn [set_state set_insn_string state]; [discriminate|].
    intros _ G. unfold fetch_within_required in *.
    cbn [set_state set_insn_string bytes_required bytes_fetched] in *.
    destruct (T1 S) as [(Z0 & _)|(P & Q)]; lia.
  - fold (append_byte b id).
    destruct (insn_decode_next_state_driver cpu f (append_byte b id))
      as [s Es]; [exact N|]. rewrite Es.
    destruct Hrit as [Rf Rext Rp Rpos Ra Rfet].
    apply on_track_after_routine; cbn [append_byte set_bytes_fetched set_bytes
      state bytes_fetched bytes_required]; auto.
    + destruct (T1 S) as [(Z0 & _ & P)|(P & Q)]; lia.
    + intros Z0 G. destruct (T1 S) as [(_ & Pe & P)|(P & Q)]; [|lia].
      apply Ra; auto.
    + intros NZ. destruct (T1 S) as [(Z0 & _)|(P & Q)]; [contradiction|lia].
Qed.

Lemma on_track_begin (id : insn_decode) (addr b : Z) :
  next_state id = Some f ->
  session_on_track pending id ->
  session_on_track pending (insn_decode_begin cpu id addr b).
Proof.
  intros N T. unfold insn_decode_begin. rewrite N.
  destruct (_ || _); [|exact T]. cbv zeta.
  match goal with
  | |- context [insn_decode_next_state cpu ?x] =>
      destruct (insn_decode_next_state_driver cpu f x) as [s Es];
      [exact N|]; rewrite Es
  end.
  apply on_track_after_routine;
    cbn [set_bytes_fetched set_bytes set_bytes_required set_addrmode
         set_resolved_address_valid set_resolved_address set_insn_address
         set_state state bytes_fetched bytes_required];
    try reflexivity; lia.
Qed.

Lemma on_track_calls (cs : list call) :
  forall id,
    next_state id = Some f ->
    session_on_track pending id ->
    session_on_track pending (do_calls cpu id cs) /\
    next_state (do_calls cpu id cs) = Some f.
Proof.
  unfold do_calls.
  induction cs as [|c cs IH]; intros id N T; cbn [fold_left]; [auto|].
  apply IH.
  - (* the routine stays *)
    destruct c; cbn [do_call].
    + unfold insn_decode_begin. rewrite N. destruct (_ || _); [|exact N].
      cbv zeta.
      match goal with
      | |- context [insn_decode_next_state cpu ?x] =>
          destruct (insn_decode_next_state_frame cpu x) as [_ _ F3 _ _ _ _]
      end. rewrite F3. exact N.
    + destruct (insn_decode_continue_cases cpu id b)
        as [(S & E)|[(S & F & E)|(S & F & E)]]; rewrite E; cbn [fst]; auto.
      match goal with
      | |- context [insn_decode_next_state cpu ?x] =>
          destruct (insn_decode_next_state_frame cpu x) as [_ _ F3 _ _ _ _]
      end. rewrite F3. exact N.
    + unfold insn_decode_complete. destruct (decode_state_eqb _ _); exact N.
  - (* the session stays on track *)
    destruct c; cbn [do_call].
    + apply on_track_begin; assumption.
    + apply on_track_continue; assumption.
    + unfold insn_decode_complete. destruct (decode_state_eqb _ _); exact T.
Qed.

End OnTrack.

Lemma ns_guard_passes (id : insn_decode) :
  state id = ds_fetching -> bytes_fetched id <> 0 ->
  negb (decode_state_eqb (state id) ds_fetching) || (bytes_fetched id =? 0) = false.
Proof.
  intros S F. rewrite S. apply Z.eqb_neq in F. rewrite F. reflexivity.
Qed.

(** The tail of a state routine keeps [bytes_required], and leaves the
    session fetching only when the count differs from it. *)
Lemma finish_bytes_required (format : insn_decode -> insn_decode)
    (id1 : insn_decode) :
  (forall x, same_control (format x) x) ->
  bytes_required
    (if bytes_fetched id1 =? bytes_required id1
     then set_state ds_complete (format id1) else id1) = bytes_required id1.
Proof.
  intro Hfmt. destruct (_ =? _); [|reflexivity].
  destruct (Hfmt id1) as (_ & _ & _ & F4 & _). exact F4.
Qed.

Lemma finish_fetching (format : insn_decode -> insn_decode)
    (id1 : insn_decode) :
  state
    (if bytes_fetched id1 =? bytes_required id1
     then set_state ds_complete (format id1) else id1) = ds_fetching ->
  bytes_fetched id1 <> bytes_required id1.
Proof.
  destruct (_ =? _) eqn:E; [discriminate|]. intros _. apply Z.eqb_neq; exact E.
Qed.

Lemma resolves_in_time_6502 (cpu : cpu_t) :
  resolves_in_time (insn_decode_next_state_6502 cpu) (fun _ => False).
Proof.
  assert (R : forall id, state id = ds_fetching -> bytes_fetched id <> 0 ->
              bytes_required id = 0 ->
              1 <= bytes_required (insn_decode_next_state_6502 cpu id)).
  { intros id S F Z0. unfold insn_decode_next_state_6502.
    rewrite ns_guard_passes by assumption. cbv zeta.
    rewrite finish_bytes_required by apply insn_decode_format_6502_frame.
    rewrite Z0. cbn [Z.eqb].
    repeat lazymatch goal with
    | |- _ <= bytes_required (match ?o with Some _ => _ | None => _ end) =>
        destruct o
    end; cbn; lia. }
  constructor.
  - apply insn_decode_next_state_6502_frame.
  - auto.
  - intros id S F Z0 Z1. specialize (R id S F Z0). lia.
  - intros id Z0. unfold insn_decode_next_state_6502.
    destruct (_ || _) eqn:G; [lia|]. apply ns_guard in G as [S F].
    specialize (R id S F Z0). unfold insn_decode_next_state_6502 in R.
    rewrite ns_guard_passes in R by assumption. lia.
  - intros; contradiction.
  - intros id S F. unfold insn_decode_next_state_6502.
    rewrite ns_guard_passes by assumption. cbv zeta.
    intro S'. pose proof S' as Q. apply finish_fetching in Q.
    rewrite finish_bytes_required by apply insn_decode_format_6502_frame.
    destruct (bytes_required id =? 0); [|exact Q].
    revert Q.
    repeat lazymatch goal with
    | |- bytes_fetched (match ?o with Some _ => _ | None => _ end) <> _ -> _ =>
        destruct o
    end; cbn; auto.
Qed.

Lemma nth_list_store_other (l : list Z) :
  forall (i j : nat) (v : Z), i <> j -> nth j (list_store l i v) 0 = nth j l 0.
Proof.
  induction l as [|x l IH]; intros i j v N; cbn [list_store]; [reflexivity|].
  destruct i as [|i]; destruct j as [|j]; cbn [nth]; try reflexivity.
  - contradiction.
  - apply IH. congruence.
Qed.

(** A byte stored behind the ones already there leaves them alone. *)
Lemma byte_at_store_other (l : list Z) (i j v : Z) :
  0 <= j < i -> byte_at (byte_store l i v) j = byte_at l j.
Proof.
  intro H. unfold byte_at, byte_store.
  destruct (i <? 0) eqn:E; [reflexivity|].
  apply nth_list_store_other. lia.
Qed.

Lemma am_in_false_cons (am a : addrmode_t) (l : list addrmode_t) :
  (am =? a) = false -> am_in am l = false -> am_in am (a :: l) = false.
Proof. unfold am_in; cbn [existsb]. intros -> ->. reflexivity. Qed.

Lemma am_in_false_inv (am a : addrmode_t) (l : list addrmode_t) :
  am_in am (a :: l) = false -> (am =? a) = false /\ am_in am l = false.
Proof. unfold am_in; cbn [existsb]. apply orb_false_iff. Qed.

Lemma resolves_in_time_6800 :
  resolves_in_time insn_decode_next_state_6800 unresolved_6800.
Proof.
  assert (Ext : forall id id', bytes id' = bytes id ->
                bytes_fetched id' = bytes_fetched id ->
                insn_decode_addrmode_6800 id' = insn_decode_addrmode_6800 id).
  { intros id id' B F. unfold insn_decode_addrmode_6800. rewrite B, F.
    reflexivity. }
  (* the length the routine settles on, or none *)
  assert (R : forall id, state id = ds_fetching -> bytes_fetched id <> 0 ->
              bytes_required id = 0 ->
              (1 <= bytes_required (insn_decode_next_state_6800 id)) \/
              (bytes_required (insn_decode_next_state_6800 id) = 0 /\
               unresolved_6800 id)).
  { intros id S F Z0. unfold insn_decode_next_state_6800.
    rewrite ns_guard_passes by assumption. cbv zeta.
    rewrite finish_bytes_required by apply insn_decode_format_6800_frame.
    rewrite Z0. cbn [Z.eqb set_addrmode addrmode].
    destruct (_ =? am6800_inherent) eqn:E1; [left; cbn; lia|].
    destruct (am_in _ [am6800_rel; _; _; _]%list) eqn:E2; [left; cbn; lia|].
    destruct (am_in _ [am6800_extended; _]%list) eqn:E3; [left; cbn; lia|].
    right. split; [exact Z0|]. unfold unresolved_6800.
    repeat (apply am_in_false_inv in E2 as [? E2]).
    repeat (apply am_in_false_inv in E3 as [? E3]).
    repeat (apply am_in_false_cons; [assumption|]). reflexivity. }
  constructor.
  - apply insn_decode_next_state_6800_frame.
  - intros id id' B F. unfold unresolved_6800. rewrite (Ext id id' B F). auto.
  - intros id S F Z0 Z1.
    destruct (insn_decode_next_state_6800_frame id) as [F1 F2 _ _ _ _ _].
    unfold unresolved_6800. rewrite (Ext _ _ F2 F1).
    destruct (R id S F Z0) as [H|[_ H]]; [lia|exact H].
  - intros id Z0. unfold insn_decode_next_state_6800.
    destruct (_ || _) eqn:G; [lia|]. apply ns_guard in G as [S F].
    destruct (R id S F Z0) as [H|[H _]];
      unfold insn_decode_next_state_6800 in H;
      rewrite ns_guard_passes in H by assumption; lia.
  - intros id b S Z0 P F G. exfalso.
    assert (Sa : state (append_byte b id) = ds_fetching) by exact S.
    assert (Fa : bytes_fetched (append_byte b id) <> 0)
      by (cbn [append_byte set_bytes_fetched bytes_fetched]; lia).
    destruct (R (append_byte b id) Sa Fa Z0) as [H|[H U]]; [|lia].
    (* the opcode is the same, and it has no mode *)
    clear G. revert H.
    unfold insn_decode_next_state_6800.
    rewrite ns_guard_passes by assumption. cbv zeta.
    rewrite finish_bytes_required by apply insn_decode_format_6800_frame.
    change (bytes_required (append_byte b id)) with (bytes_required id).
    rewrite Z0. cbn [Z.eqb set_addrmode addrmode].
    assert (Eam : insn_decode_addrmode_6800 (append_byte b id) =
                  insn_decode_addrmode_6800 id).
    { unfold insn_decode_addrmode_6800.
      cbn [append_byte set_bytes_fetched set_bytes bytes_fetched bytes].
      rewrite byte_at_store_other by lia.
      destruct (bytes_fetched id + 1 =? 0) eqn:E1; [lia|].
      destruct (bytes_fetched id =? 0) eqn:E2; [lia|]. reflexivity. }
    rewrite Eam. unfold unresolved_6800 in P.
    repeat (apply am_in_false_inv in P as [? P]).
    unfold am_in; cbn [existsb].
    repeat match goal with H : (_ =? _) = false |- _ => rewrite H; clear H end.
    cbn. lia.
  - intros id S F. unfold insn_decode_next_state_6800.
    rewrite ns_guard_passes by assumption. cbv zeta.
    intro S'. pose proof S' as Q. apply finish_fetching in Q.
    rewrite finish_bytes_required by apply insn_decode_format_6800_frame.
    destruct (bytes_required id =? 0); [|exact Q].
    revert Q. cbn [set_addrmode addrmode].
    repeat lazymatch goal with
    | |- bytes_fetched (if ?c then _ else _) <> _ -> _ => destruct c
    end; cbn; auto.
Qed.

Lemma insn_postbytes_6809_nonneg (n : nat) : 0 <= nth n insn_postbytes_6809 0.
Proof.
  destruct (nth_in_or_default n insn_postbytes_6809 0) as [I|E]; [|lia].
  revert I. generalize (nth n insn_postbytes_6809 0). intros z I.
  unfold insn_postbytes_6809 in I. cbn [In] in I.
  repeat (destruct I as [I|I]; [lia|]). contradiction.
Qed.

(** Every indexed mode has a postbyte. *)
Lemma insn_postbytes_6809_indexed (pb : Z) :
  am6809_valid (insn_decode_addrmode_indexed_6809 pb) = true ->
  1 <= nth (Z.to_nat (insn_decode_addrmode_indexed_6809 pb - am6809_first))
           insn_postbytes_6809 0.
Proof.
  unfold insn_decode_addrmode_indexed_6809. cbv zeta.
  repeat match goal with
  | |- context [if ?c then _ else _] => destruct c
  end; cbv; congruence.
Qed.

Lemma insn_decode_addrmode_6809_ahead (id ida : insn_decode) :
  1 <= bytes_fetched id ->
  bytes_fetched ida = bytes_fetched id + 1 ->
  byte_at (bytes ida) 0 = byte_at (bytes id) 0 ->
  (2 <= bytes_fetched id -> byte_at (bytes ida) 1 = byte_at (bytes id) 1) ->
  (3 <= bytes_fetched id -> byte_at (bytes ida) 2 = byte_at (bytes id) 2) ->
  am6809_valid (insn_decode_addrmode_6809 id) = false ->
  am6809_valid (insn_decode_addrmode_6809 ida) = true ->
  bytes_fetched id + 1 <=
    1 + nth (Z.to_nat (insn_decode_addrmode_6809 ida - am6809_first))
            insn_postbytes_6809 0
      + (if prefixed_6809 id then 1 else 0).
Proof.
  intros K Ka B0 B1 B2.
  unfold insn_decode_addrmode_6809, prefixed_6809. cbv zeta.
  rewrite Ka, B0.
  pose proof (insn_postbytes_6809_indexed (byte_at (bytes ida) 1)) as X1.
  pose proof (insn_postbytes_6809_indexed (byte_at (bytes ida) 2)) as X2.
  assert (C : bytes_fetched id = 1 \/ bytes_fetched id = 2 \/
              3 <= bytes_fetched id) by lia.
  destruct C as [C|[C|C]].
  - (* one byte before, two now *)
    rewrite C. clear B1 B2.
    change (1 + 1) with 2.
    change (1 =? 0) with false. change (2 =? 0) with false.
    change (1 <? 2) with true. change (2 <? 2) with false.
    change (2 <? 3) with true. cbv iota.
    revert X1 X2.
    generalize (insn_decode_addrmode_indexed_6809 (byte_at (bytes ida) 1)).
    generalize (insn_decode_addrmode_indexed_6809 (byte_at (bytes ida) 2)).
    generalize (byte_at (bytes id) 0).
    intros b0 x2 x1 X1 X2.
    repeat match goal with
    | |- context [if ?c then _ else _] => destruct c
    end; intros P V; try (cbv in P; discriminate P);
      try (cbv in V; discriminate V);
      try (specialize (X1 V); lia);
      cbv; congruence.
  - (* two bytes before, three now *)
    rewrite C. specialize (B1 ltac:(lia)). rewrite B1 in *. clear B2.
    change (2 + 1) with 3.
    change (2 =? 0) with false. change (3 =? 0) with false.
    change (2 <? 2) with false. change (3 <? 2) with false.
    change (2 <? 3) with true. change (3 <? 3) with false. cbv iota.
    revert X1 X2.
    generalize (insn_decode_addrmode_indexed_6809 (byte_at (bytes id) 1)).
    generalize (insn_decode_addrmode_indexed_6809 (byte_at (bytes ida) 2)).
    generalize (byte_at (bytes id) 0) (byte_at (bytes id) 1).
    intros b0 b1 x2 x1 X1 X2.
    repeat match goal with
    | |- context [if ?c then _ else _] => destruct c
    end; intros P V; try congruence; try (cbv in P; discriminate P);
      try (cbv in V; discriminate V);
      try (specialize (X2 V); lia).
  - (* three or more before: nothing new is looked at *)
    specialize (B1 ltac:(lia)). specialize (B2 ltac:(lia)).
    rewrite B1, B2 in *.
    assert (T1 : (bytes_fetched id =? 0) = false) by lia.
    assert (T2 : (bytes_fetched id <? 2) = false) by lia.
    assert (T3 : (bytes_fetched id <? 3) = false) by lia.
    assert (T4 : (bytes_fetched id + 1 =? 0) = false) by lia.
    assert (T5 : (bytes_fetched id + 1 <? 2) = false) by lia.
    assert (T6 : (bytes_fetched id + 1 <? 3) = false) by lia.
    rewrite T1, T2, T3, T4, T5, T6. intros P V. congruence.
Qed.

Lemma insn_decode_addrmode_6809_ext (id id' : insn_decode) :
  bytes id' = bytes id -> bytes_fetched id' = bytes_fetched id ->
  insn_decode_addrmode_6809 id' = insn_decode_addrmode_6809 id.
Proof.
  intros B F. unfold insn_decode_addrmode_6809. rewrite B, F. reflexivity.
Qed.

Lemma resolves_in_time_6809 :
  resolves_in_time insn_decode_next_state_6809 unresolved_6809.
Proof.
  (* what the routine settles on when the length is not known *)
  assert (R : forall id, state id = ds_fetching -> bytes_fetched id <> 0 ->
              bytes_required id = 0 ->
              (unresolved_6809 id /\
               bytes_required (insn_decode_next_state_6809 id) = 0) \/
              (~ (bytes_fetched id = 1 /\ prefixed_6809 id = true) /\
               am6809_valid (insn_decode_addrmode_6809 id) = true /\
               bytes_required (insn_decode_next_state_6809 id) =
                 1 + nth (Z.to_nat (insn_decode_addrmode_6809 id - am6809_first))
                         insn_postbytes_6809 0
                   + (if prefixed_6809 id then 1 else 0))).
  { intros id S F Z0. unfold insn_decode_next_state_6809.
    rewrite ns_guard_passes by assumption. cbv zeta.
    rewrite Z0. cbn [Z.eqb set_addrmode addrmode].
    fold (prefixed_6809 id).
    fold (am6809_valid (insn_decode_addrmode_6809 id)).
    assert (E : (bytes_fetched id =? 1) && prefixed_6809 id = true \/
                ~ (bytes_fetched id = 1 /\ prefixed_6809 id = true)).
    { destruct (bytes_fetched id =? 1) eqn:E1;
        destruct (prefixed_6809 id); cbn [andb]; auto;
        right; intros [? ?]; try lia; congruence. }
    destruct E as [E|E].
    - rewrite E. left. apply andb_true_iff in E as [E1 E2].
      split; [left; split; [lia|exact E2] | exact Z0].
    - assert (E' : (bytes_fetched id =? 1) && prefixed_6809 id = false).
      { destruct (_ && _) eqn:E'; [|reflexivity].
        apply andb_true_iff in E' as [E1 E2]. exfalso. apply E. split; [lia|exact E2]. }
      rewrite E'.
      destruct (am6809_valid (insn_decode_addrmode_6809 id)) eqn:V.
      + right. split; [exact E|]. split; [reflexivity|].
        destruct (prefixed_6809 id);
          rewrite finish_bytes_required by apply insn_decode_format_6809_frame;
          cbn; lia.
      + left. split; [right; exact V|].
        rewrite finish_bytes_required by apply insn_decode_format_6809_frame.
        exact Z0. }
  constructor.
  - apply insn_decode_next_state_6809_frame.
  - intros id id' B F [[P1 P2]|P]; [left|right].
    + unfold prefixed_6809 in *. rewrite B, F. auto.
    + rewrite (insn_decode_addrmode_6809_ext id id' B F). exact P.
  - intros id S F Z0 Z1.
    destruct (insn_decode_next_state_6809_frame id) as [F1 F2 _ _ _ _ _].
    destruct (R id S F Z0) as [[U _]|(_ & _ & H)].
    + destruct U as [[P1 P2]|P]; [left|right].
      * unfold prefixed_6809 in *. rewrite F1, F2. auto.
      * rewrite (insn_decode_addrmode_6809_ext _ _ F2 F1). exact P.
    + pose proof (insn_postbytes_6809_nonneg
                    (Z.to_nat (insn_decode_addrmode_6809 id - am6809_first))).
      destruct (prefixed_6809 id); lia.
  - intros id Z0. unfold insn_decode_next_state_6809.
    destruct (_ || _) eqn:G; [lia|]. apply ns_guard in G as [S F].
    destruct (R id S F Z0) as [[_ H]|(_ & _ & H)];
      unfold insn_decode_next_state_6809 in H;
      rewrite ns_guard_passes in H by assumption; [lia|].
    pose proof (insn_postbytes_6809_nonneg
                  (Z.to_nat (insn_decode_addrmode_6809 id - am6809_first))).
    destruct (prefixed_6809 id); lia.
  - intros id b S Z0 P F G.
    assert (Sa : state (append_byte b id) = ds_fetching) by exact S.
    assert (Fa : bytes_fetched (append_byte b id) <> 0)
      by (cbn [append_byte set_bytes_fetched bytes_fetched]; lia).
    assert (B0 : byte_at (bytes (append_byte b id)) 0 = byte_at (bytes id) 0)
      by (cbn [append_byte set_bytes_fetched set_bytes bytes];
          apply byte_at_store_other; lia).
    assert (Ep : prefixed_6809 (append_byte b id) = prefixed_6809 id)
      by (unfold prefixed_6809; rewrite B0; reflexivity).
    destruct (R (append_byte b id) Sa Fa Z0) as [[_ H]|(_ & V & H)]; [lia|].
    rewrite H, Ep.
    pose proof (insn_postbytes_6809_nonneg
                  (Z.to_nat (insn_decode_addrmode_6809 (append_byte b id)
                             - am6809_first))) as NN.
    destruct P as [[P1 P2]|P].
    + rewrite P1, P2. lia.
    + apply insn_decode_addrmode_6809_ahead; auto;
        cbn [append_byte set_bytes_fetched set_bytes bytes bytes_fetched];
        try reflexivity;
        intro; apply byte_at_store_other; lia.
  - intros id S F. unfold insn_decode_next_state_6809.
    rewrite ns_guard_passes by assumption. cbv zeta.
    destruct (bytes_required id =? 0) eqn:Z0.
    + apply Z.eqb_eq in Z0.
      destruct ((bytes_fetched id =? 1) && _); [intros _; lia|].
      repeat lazymatch goal with
      | |- state (match (if ?c then _ else _) with
                  | Some _ => _ | None => _ end) = _ -> _ =>
          destruct c; cbv iota
      end;
      (intro S'; pose proof S' as Q; apply finish_fetching in Q;
       rewrite finish_bytes_required by apply insn_decode_format_6809_frame;
       exact Q).
    + intro S'. pose proof S' as Q. apply finish_fetching in Q.
      rewrite finish_bytes_required by apply insn_decode_format_6809_frame.
      exact Q.
Qed.

(** X1: the invariant of C2 on every architecture but the Z80: whatever a
    client has called since [insn_decode_init], a session that has been
    begun has [bytes_fetched <= bytes_required] whenever
    [bytes_required > 0]. *)
Lemma fetch_within_required_but_z80 (cpu : cpu_t) (id0 : insn_decode)
    (cs : list call) :
  cpu <> cpu_z80 ->
  let id := do_calls cpu (insn_decode_init cpu id0) cs in
  state id <> ds_idle -> fetch_within_required id.
Proof.
  intros NZ id.
  assert (T : forall (f : next_state_fn) (pending : insn_decode -> Prop),
              resolves_in_time (call_next_state cpu f) pending ->
              next_state (insn_decode_init cpu id0) = Some f ->
              state id <> ds_idle -> fetch_within_required id).
  { intros f pending Hrit N S.
    destruct (on_track_calls cpu f pending Hrit cs (insn_decode_init cpu id0) N)
      as [[T1 T2] _].
    - split; rewrite insn_decode_init_state; discriminate.
    - fold id in T1, T2. destruct (state id) eqn:E; [contradiction| |auto].
      intro G. destruct (T1 eq_refl) as [(Z0 & _)|(P & Q)]; lia. }
  destruct cpu; try contradiction.
  - (* no routine: no session is ever begun *)
    intro S. exfalso. apply S. subst id. clear. 
    assert (I : forall x, state x = ds_idle -> next_state x = None ->
                state (do_calls cpu_none x cs) = ds_idle).
    { induction cs as [|c cs IH]; intros x Sx Nx; [exact Sx|].
      unfold do_calls in *. cbn [fold_left].
      assert (E : do_call cpu_none x c = x).
      { destruct c; cbn [do_call].
        - unfold insn_decode_begin. rewrite Nx. reflexivity.
        - unfold insn_decode_continue. rewrite Sx. reflexivity.
        - unfold insn_decode_complete. rewrite Sx. reflexivity. }
      rewrite E. apply IH; assumption. }
    apply I; reflexivity.
  - apply (T ns_6502 (fun _ => False)); [apply resolves_in_time_6502|reflexivity].
  - apply (T ns_6502 (fun _ => False)); [apply resolves_in_time_6502|reflexivity].
  - apply (T ns_6800 unresolved_6800); [apply resolves_in_time_6800|reflexivity].
  - apply (T ns_6809 unresolved_6809); [apply resolves_in_time_6809|reflexivity].
  - apply (T ns_6809 unresolved_6809); [apply resolves_in_time_6809|reflexivity].
Qed.

(** * The embedding on the samples of [test_samples.h]

    The comments of the debug data name the instruction each sample is to
    decode to. *)

Lemma sample_6502_brk :
  output (decode_bytes cpu_6502 0x1000 0x00 []%list) = "BRK".
Proof. reflexivity. Qed.

Lemma sample_6502_ora :
  output (decode_bytes cpu_6502 0x1001 0x05 [0x20]%list) = "ORA $20".
Proof. reflexivity. Qed.

Lemma sample_6502_ldy :
  output (decode_bytes cpu_6502 0x1003 0xac [0x00; 0x30]%list) = "LDY $3000".
Proof. reflexivity. Qed.

(** The offset is printed with [%-4d] over [rrrr]: the blanks stay. *)
Lemma sample_6502_bpl :
  output (decode_bytes cpu_6502 0x1006 0x10 [0x10]%list) = "BPL 16   <1018>".
Proof. reflexivity. Qed.

Lemma sample_6809_leas :
  output (decode_bytes cpu_6809e 0 0x32 [0xe8; 0xc0]%list) = "LEAS -64,S".
Proof. reflexivity. Qed.

Lemma sample_6809_lda_indirect :
  output (decode_bytes cpu_6809e 0 0xa6 [0x99; 0x04; 0x00]%list) = "LDA [1024,X]".
Proof. reflexivity. Qed.

Lemma sample_6809_ldy_autoincrement :
  output (decode_bytes cpu_6809e 0 0x10 [0xae; 0x91]%list) = "LDY [,X++]".
Proof. reflexivity. Qed.

Lemma sample_6809_bita_extended_indirect :
  output (decode_bytes cpu_6809e 0 0xa5 [0x9f; 0xca; 0xfe]%list) = "BITA [$CAFE]".
Proof. reflexivity. Qed.

Lemma sample_6809_exg :
  output (decode_bytes cpu_6809e 0 0x1e [0x1b]%list) = "EXG X,DPR".
Proof. reflexivity. Qed.

Lemma sample_6809_pshs :
  output (decode_bytes cpu_6809e 0 0x34 [0x46]%list) = "PSHS A,B,U".
Proof. reflexivity. Qed.

Lemma sample_6809_pulu :
  output (decode_bytes cpu_6809e 0 0x37 [0x40]%list) = "PULU S".
Proof. reflexivity. Qed.

Lemma sample_z80_ld_indexed :
  output (decode_bytes cpu_z80 0x1000 0xdd [0x7e; 5]%list) = "LD A,(IX+5)".
Proof. reflexivity. Qed.

Lemma sample_z80_ld_negative_displacement :
  output (decode_bytes cpu_z80 0 0xfd [0x66; 0xf6]%list) = "LD H,(IY-10)".
Proof. reflexivity. Qed.

Lemma sample_z80_ld_indexed_immediate :
  output (decode_bytes cpu_z80 0 0xdd [0x36; 10; 0xa5]%list) = "LD (IX+10),A5h".
Proof. reflexivity. Qed.

Lemma sample_z80_ld_absolute :
  output (decode_bytes cpu_z80 0 0x3a [0x34; 0x12]%list) = "LD A,(1234h)".
Proof. reflexivity. Qed.

Lemma sample_z80_rlc_b :
  output (decode_bytes cpu_z80 0 0xcb [0x00]%list) = "RLC B".
Proof. reflexivity. Qed.

Lemma sample_z80_rlc_indexed :
  output (decode_bytes cpu_z80 0 0xdd [0xcb; 10; 0x06]%list) = "RLC (IX+10)".
Proof. reflexivity. Qed.

Lemma sample_z80_bit_indexed :
  output (decode_bytes cpu_z80 0 0xdd [0xcb; 0; 0x76]%list) = "BIT 6,(IX+0)".
Proof. reflexivity. Qed.

(** * Signed bytes *)

Lemma to_s8_range (z : Z) : -128 <= to_s8 z <= 127.
Proof.
  unfold to_s8, to_u8. pose proof (Z.mod_pos_bound z 256).
  destruct (_ <? _) eqn:E; [apply Z.ltb_lt in E|apply Z.ltb_ge in E]; lia.
Qed.

Lemma to_s8_to_u8 (z : Z) : to_s8 (to_u8 z) = to_s8 z.
Proof. unfold to_s8, to_u8. rewrite Z.mod_mod by lia. reflexivity. Qed.

(** * The properties *)

(** C1: on the 6809 the first byte [0x14] has no addressing mode, so
    [bytes_required] is never set: after [begin] and after each of up to
    seven more bytes, whatever they are, the session is still fetching
    and has no output.  Only the ninth byte ends it, with the overflow
    text. *)
Theorem m6809_invalid_opcode_never_completes (addr : Z) (bs : list Z) :
  let id := decode_bytes cpu_6809 addr 0x14 (firstn 7 bs) in
  state id = ds_fetching /\ bytes_required id = 0 /\ output id = "" /\
  forall b : Z,
    (7 <= List.length bs)%nat ->
    let id' := fst (insn_decode_continue cpu_6809 id b) in
    state id' = ds_complete /\ output id' = "<decode overflow>".
Proof.
  do 8 (try destruct bs as [|? bs]); cbn [firstn];
    (split; [reflexivity|]); (split; [reflexivity|]); (split; [reflexivity|]);
    intros b L; cbn [List.length] in L; try lia;
    split; reflexivity.
Qed.

(** C2: on the Z80, [DD CB d 00] (the [RLC B] of the indexed bit group)
    gets its template when the fourth byte is in; the template has no
    operand, so [bytes_required] becomes 3 with 4 bytes fetched, and the
    session goes on fetching. *)
Theorem z80_ddcb_fetched_exceeds_required (addr d : Z) :
  let id := decode_bytes cpu_z80 addr 0xdd [0xcb; d; 0x00]%list in
  state id = ds_fetching /\
  bytes_required id = 3 /\
  bytes_fetched id = 4 /\
  ~ (bytes_required id > 0 -> bytes_fetched id <= bytes_required id).
Proof.
  cbv zeta.
  assert (E : state (decode_bytes cpu_z80 addr 0xdd [0xcb; d; 0x00]%list) = ds_fetching /\
              bytes_required (decode_bytes cpu_z80 addr 0xdd [0xcb; d; 0x00]%list) = 3 /\
              bytes_fetched (decode_bytes cpu_z80 addr 0xdd [0xcb; d; 0x00]%list) = 4).
  { vm_compute. repeat split. }
  destruct E as (E1 & E2 & E3). repeat split; auto.
  rewrite E2, E3. intro H. assert (4 <= 3) by (apply H; lia). lia.
Qed.

(** C3: whatever a client has called since [insn_decode_init], a session
    that has been begun holds between one and eight bytes.  A byte given
    to a fetching session that holds eight is not stored: the buffer and
    the count are as before, the output is [<decode overflow>] and the
    session is complete.  Otherwise the byte is stored at an index below
    eight.  A session still fetching after [begin] and [n] calls of
    [continue] holds [1 + n] bytes, so the one that overflows is the
    ninth. *)
Theorem continue_buffer_bound (cpu : cpu_t) (id0 : insn_decode) (cs : list call) :
  let id := do_calls cpu (insn_decode_init cpu id0) cs in
  (state id <> ds_idle -> 1 <= bytes_fetched id <= INSN_DECODE_MAXBYTES) /\
  (forall b : Z,
     state id = ds_fetching ->
     let id' := fst (insn_decode_continue cpu id b) in
     if bytes_fetched id =? INSN_DECODE_MAXBYTES
     then bytes id' = bytes id /\ bytes_fetched id' = INSN_DECODE_MAXBYTES /\
          c_str (insn_string id') = "<decode overflow>" /\
          state id' = ds_complete
     else 0 <= bytes_fetched id < INSN_DECODE_MAXBYTES /\
          bytes id' = byte_store (bytes id) (bytes_fetched id) b /\
          bytes_fetched id' = bytes_fetched id + 1) /\
  (forall (addr b : Z) (bs : list Z),
     let id1 := continue_all cpu (insn_decode_begin cpu id addr b) bs in
     state id <> ds_fetching ->
     state id1 = ds_fetching ->
     bytes_fetched id1 = 1 + Z.of_nat (List.length bs)).
Proof.
  intro id.
  assert (B : fetch_bounded id)
    by (apply fetch_bounded_calls, fetch_bounded_init).
  split; [exact B|]. split.
  - intros b S id'. subst id'.
    destruct (insn_decode_continue_cases cpu id b)
      as [(S' & E)|[(S' & F & E)|(S' & F & E)]]; try congruence.
    + rewrite E, F; cbn [fst]. rewrite Z.eqb_refl.
      repeat split; try reflexivity. exact F.
    + rewrite E. apply Z.eqb_neq in F as F'. rewrite F'.
      match goal with
      | |- context [insn_decode_next_state cpu ?x] =>
          destruct (insn_decode_next_state_frame cpu x) as [F1 F2 _ _ _ _ _]
      end.
      rewrite F1, F2. cbn [set_bytes_fetched set_bytes bytes_fetched bytes].
      assert (1 <= bytes_fetched id <= INSN_DECODE_MAXBYTES) by (apply B; congruence).
      repeat split; lia.
  - intros addr b bs id1 S S1. subst id1.
    rewrite continue_all_fetched by exact S1.
    destruct (insn_decode_begin_fetched cpu id addr b) as [E|[E _]].
    + (* [begin] did nothing: the session cannot be fetching afterwards *)
      exfalso. rewrite E in S1. clear E. revert S1. generalize dependent id.
      induction bs as [|b' bs IH']; intros id B S; cbn [continue_all].
      * exact S.
      * destruct (insn_decode_continue_cases cpu id b')
          as [(S' & E')|[(S' & F' & E')|(S' & F' & E')]]; try congruence.
        rewrite E'; cbn [fst]. apply IH'; [exact B|exact S].
    + rewrite E. reflexivity.
Qed.

(** C4, as written, fails: after the first byte of the three-byte
    [LDY $nnnn] of the 6502 the second byte is taken, the result is [true]
    and the session is still fetching. *)
Lemma continue_reports_transition_fails :
  ~ continue_reports_transition cpu_6502.
Proof.
  intro H.
  assert (S : state sample_fetching = ds_fetching) by reflexivity.
  destruct (H sample_fetching 0x00 S) as [H1 _].
  apply H1; reflexivity.
Qed.

(** C4, amended: [insn_decode_continue] returns [true] exactly when it
    stored the byte and ran the decode routine, that is when the session
    was fetching, held fewer than eight bytes and has a routine, whether
    or not the session then left the fetching state; on the forced
    overflow completion and on a session that is not fetching it returns
    [false]. *)
Theorem insn_decode_continue_result (cpu : cpu_t) (id : insn_decode) (b : Z) :
  snd (insn_decode_continue cpu id b) = true <->
  state id = ds_fetching /\ bytes_fetched id <> INSN_DECODE_MAXBYTES /\
  next_state id <> None.
Proof.
  destruct (insn_decode_continue_cases cpu id b)
    as [(S & E)|[(S & F & E)|(S & F & E)]]; rewrite E; cbn [snd].
  - split; [discriminate|]. intros (? & _). contradiction.
  - split; [discriminate|]. intros (_ & ? & _). contradiction.
  - rewrite insn_decode_next_state_result.
    cbn [set_bytes_fetched set_bytes state next_state]. tauto.
Qed.

(** C5: on the 6809, [begin(0x1003, 0x20)] and [continue(0xFD)] complete
    the session, but the target the formatter resolves is
    [0x1003 - 3 = 0x1000]: the output is [BRA -3 <1000>], not
    [BRA -3 <1002>]. *)
Theorem bra_6809_output :
  let id := decode_bytes cpu_6809 0x1003 0x20 [0xfd]%list in
  state id = ds_complete /\
  resolved_address id = 0x1000 /\
  output id = "BRA -3 <1000>" /\
  output id <> "BRA -3 <1002>".
Proof. vm_compute. repeat split; discriminate. Qed.

(** The 6800 decodes the same two bytes at the same address to the target
    after the instruction: its formatter adds the length 2. *)
Lemma bra_6800_output :
  output (decode_bytes cpu_6800 0x1003 0x20 [0xfd]%list) = "BRA -3 <1002>".
Proof. reflexivity. Qed.

(** C6: on the 6809, behind a page prefix the target of an 8-bit
    PC-relative instruction is not the instruction address plus the
    signed offset.  [10 AE 8C d] at [0x1000] is [LDY d,PCR]: the session
    completes with the mode [am6809_pcrel8] and the operand byte [d] in
    [bytes[3]], but the formatter reads the offset from [bytes[4]], which
    the instruction has not written.  Whatever [d] is, the output is
    [LDY 0,PCR <1000>] and the resolved address is [0x1000], which differs
    from the address plus the offset as soon as the offset is not zero.
    The text stays inside the array. *)
Theorem pcrel8_prefixed_6809_target (d : Z) :
  let id := decode_bytes cpu_6809 0x1000 0x10 [0xae; 0x8c; d]%list in
  state id = ds_complete /\
  addrmode id = am6809_pcrel8 /\
  prefixed_6809 id = true /\
  insn_address id = 0x1000 /\
  byte_at (bytes id) 3 = to_u8 d /\
  signed_offset_6809 id = to_s8 d /\
  resolved_address_valid id = true /\
  resolved_address id = 0x1000 /\
  output id = "LDY 0,PCR <1000>" /\
  String.length (insn_string id) = INSN_DECODE_MAXSTRING /\
  (to_s8 d <> 0 ->
   resolved_address id <> to_u32 (insn_address id + signed_offset_6809 id)).
Proof.
  intro id.
  assert (O : signed_offset_6809 id = to_s8 d).
  { transitivity (to_s8 (to_u8 d)); [reflexivity|apply to_s8_to_u8]. }
  do 5 (split; [reflexivity|]).
  split; [exact O|].
  do 4 (split; [reflexivity|]).
  intros NZ. rewrite O.
  change (resolved_address id) with 0x1000.
  change (insn_address id) with 0x1000.
  pose proof (to_s8_range d) as R.
  unfold to_u32. rewrite Z.mod_small by lia. lia.
Qed.

(** With the offset 5 the target is [0x1005]; the session shows
    [0x1000]. *)
Lemma ldy_pcrel8_prefixed_output :
  let id := decode_bytes cpu_6809 0x1000 0x10 [0xae; 0x8c; 0x05]%list in
  output id = "LDY 0,PCR <1000>" /\ output id <> "LDY 5,PCR <1005>".
Proof. vm_compute. split; [reflexivity|discriminate]. Qed.

(** What the session shows is the byte an earlier instruction left in
    [bytes[4]]: after a five-byte instruction whose last byte is [0x77],
    the same four bytes give the offset 119. *)
Lemma ldy_pcrel8_prefixed_stale_output :
  let id :=
    do_calls cpu_6809 (insn_decode_init cpu_6809 blank)
      [call_begin 0x2000 0x10; call_continue 0xae; call_continue 0x99;
       call_continue 0x01; call_continue 0x77;
       call_begin 0x1000 0x10; call_continue 0xae; call_continue 0x8c;
       call_continue 0x05]%list in
  output id = "LDY 119,PCR <1077>".
Proof. reflexivity. Qed.

(** The sibling paths read the offset where the instruction has it: the
    16-bit PC-relative operand behind the same prefix, and the 8-bit one
    without a prefix. *)
Lemma ldy_pcrel16_prefixed_output :
  output (decode_bytes cpu_6809 0x1000 0x10 [0xae; 0x8d; 0x00; 0x05]%list)
    = "LDY 5,PCR <1005>".
Proof. reflexivity. Qed.

Lemma ldx_pcrel8_output :
  output (decode_bytes cpu_6809 0x1000 0xae [0x8c; 0x05]%list)
    = "LDX 5,PCR <1005>".
Proof. reflexivity. Qed.

(** The annotation is not held to four digits either: [BRA -3] at
    address 1 resolves to [0xFFFFFFFE], since the formatter does not add
    the length of the instruction (C5) and nothing reduces the target to
    16 bits, and the output ends in eight hexadecimal digits. *)
Lemma relative_target_6809_not_four_digits :
  let id := decode_bytes cpu_6809 0x0001 0x20 [0xfd]%list in
  state id = ds_complete /\
  addrmode id = am6809_rel8 /\
  resolved_address_valid id = true /\
  resolved_address id = 0xFFFFFFFE /\
  output id = "BRA -3 <FFFFFFFE>" /\
  ~ (exists digits : string,
       String.length digits = 4%nat /\
       output id = "BRA -3 <" ++ digits ++ ">").
Proof.
  cbv zeta. do 5 (split; [reflexivity|]).
  intros (digits & L & E).
  change (output (decode_bytes cpu_6809 1 32 [253]%list))
    with "BRA -3 <FFFFFFFE>" in E.
  destruct digits as [|d1 [|d2 [|d3 [|d4 [|d5 r]]]]]; cbn in L, E;
    discriminate.
Qed.

(** The 6800, which adds the length, shows four digits for the same bytes
    at the same address. *)
Lemma bra_6800_at_1_output :
  output (decode_bytes cpu_6800 0x0001 0x20 [0xfd]%list) = "BRA -3 <0000>".
Proof. reflexivity. Qed.

(** With eight digits the annotation can leave the array.
    [30 9D 80 00] at [0x1000] is [LEAX [-32768,PCR]]: when the routine has
    completed it the text has 17 characters and the resolved address is
    [0xFFFF9000], so the annotation and its terminator need 29 characters
    of the 28 the array has.  What [sprintf] does then is undefined, and
    nothing is stated of the session after it. *)
Lemma leax_pcrel16_annotation_overruns :
  let id := decode_bytes cpu_6809 0x1000 0x30 [0x9d; 0x80]%list in
  let id1 := call_next_state cpu_6809 ns_6809 (append_byte 0x00 id) in
  state id = ds_fetching /\
  state id1 = ds_complete /\
  c_str (insn_string id1) = "LEAX [-32768,PCR]" /\
  resolved_address_valid id1 = true /\
  resolved_address id1 = 0xFFFF9000 /\
  String.length (insn_string id1) = INSN_DECODE_MAXSTRING /\
  (strlen (insn_string id1)
   + String.length (" <" ++ fmt_X 4 (resolved_address id1) ++ ">") + 1
   = INSN_DECODE_MAXSTRING + 1)%nat.
Proof. vm_compute. repeat split. Qed.

(** Where the operand is read in place (every relative and PC-relative
    mode but the 8-bit PC-relative one behind a page prefix) and the
    annotation fits the array, the routine and the driver do what the
    formatter is written to do: [resolved_address] is the instruction
    address plus the signed offset, without the length of the
    instruction, modulo [2^32]; it is marked valid; and the driver appends
    it to the text in angle brackets, in upper-case hexadecimal digits
    filled with zeros to at least four, exactly four when the target is
    below [0x10000].  The array keeps its length. *)
Lemma relative_target_6809 (cpu : cpu_t) (id : insn_decode) :
  next_state id = Some ns_6809 ->
  state id = ds_fetching ->
  let id1 := insn_decode_next_state_6809 id in
  let id2 := fst (insn_decode_next_state cpu id) in
  state id1 = ds_complete ->
  am6809_relative_p (addrmode id1) = true ->
  offset_in_place_6809 id1 = true ->
  let target := to_u32 (insn_address id + signed_offset_6809 id1) in
  (strlen (insn_string id1)
   + String.length (" <" ++ fmt_X 4 target ++ ">")
   < String.length (insn_string id1))%nat ->
  resolved_address id2 = target /\
  resolved_address_valid id2 = true /\
  c_str (insn_string id2) =
    c_str (insn_string id1) ++ " <" ++ fmt_X 4 target ++ ">" /\
  String.length (insn_string id2) = String.length (insn_string id1) /\
  (4 <= String.length (fmt_X 4 target))%nat /\
  (target < 0x10000 -> String.length (fmt_X 4 target) = 4%nat).
Proof.
  intros N S id1 id2 C R P target Fit.
  destruct (insn_decode_next_state_6809_complete id S C) as (idr & E & B & A).
  destruct (insn_decode_format_6809_frame idr) as (F1 & F2 & F3 & F4 & F5 & F6 & F7).
  assert (Eam : addrmode id1 = addrmode idr)
    by (subst id1; rewrite E; exact F6).
  assert (Eb : bytes id1 = bytes idr)
    by (subst id1; rewrite E; exact F7).
  assert (Eoff : signed_offset_6809 id1 = signed_offset_6809 idr)
    by (unfold signed_offset_6809, prefixed_6809; rewrite Eam, Eb; reflexivity).
  assert (Ep : offset_in_place_6809 idr = true).
  { revert P. unfold offset_in_place_6809, prefixed_6809.
    rewrite Eam, Eb. auto. }
  rewrite Eam in R.
  destruct (format_6809_relative idr R Ep) as (T & V).
  assert (T1 : resolved_address id1 = target).
  { subst id1 target. rewrite Eoff, E, <- A. exact T. }
  assert (V1 : resolved_address_valid id1 = true)
    by (subst id1; rewrite E; exact V).
  assert (E2 : id2 =
               set_insn_string
                 (strcpy_at (insn_string id1) (strlen (insn_string id1))
                    (" <" ++ fmt_X 4 (resolved_address id1) ++ ">")) id1).
  { subst id2. unfold insn_decode_next_state. rewrite N, S.
    cbn [call_next_state decode_state_eqb]. fold id1.
    rewrite C, V1. reflexivity. }
  rewrite E2. cbn [set_insn_string resolved_address resolved_address_valid
                   insn_string].
  rewrite T1. repeat split; auto.
  - apply c_str_strcpy_at_end.
    cbn [append no_nul]. rewrite no_nul_app, no_nul_fmt_X. reflexivity.
  - unfold strcpy_at. apply length_buf_write_within.
    rewrite length_append. cbn [String.length]. lia.
  - apply length_fmt_X_min.
  - intro L. apply length_fmt_X_4. subst target. unfold to_u32 in *.
    split; [apply Z.mod_pos_bound; lia | exact L].
Qed.

Lemma relative_target_6809_example :
  resolved_address (fst (insn_decode_next_state cpu_6809 sample_bra_at_1)) =
    to_u32 (1 + -3) /\
  c_str (insn_string (fst (insn_decode_next_state cpu_6809 sample_bra_at_1))) =
    "BRA -3 <FFFFFFFE>".
Proof.
  destruct (relative_target_6809 cpu_6809 sample_bra_at_1
              eq_refl eq_refl eq_refl eq_refl eq_refl) as (A & _ & B & _).
  - vm_compute. lia.
  - split; [exact A|exact B].
Qed.

(** C7: for [am6809_const_off16] and [am6809_const_off16_ind] the 6809
    formatter prints, as the constant offset, the signed big-endian word
    at offset [i + i] of the buffer, [i] being the index of the first
    byte after the opcode: the word in [bytes[2..3]] without a page
    prefix and the word in [bytes[4..5]], not the one at [i + 1 = 3],
    behind a page 2 or page 3 prefix. *)
Theorem format_6809_const_off16_operand (id : insn_decode) :
  am_in (addrmode id) [am6809_const_off16; am6809_const_off16_ind]%list = true ->
  let b0 := byte_at (bytes id) 0 in
  let prefixed := (b0 =? 0x10) || (b0 =? 0x11) in
  let i := if prefixed then 2 else 1 in
  let opc :=
    if prefixed
    then extopc_mnemonic_6809 (Z.lor (Z.shiftl b0 8) (byte_at (bytes id) 1))
    else opcode_at opcodes_6809 b0 in
  let xreg :=
    opcode_at index_regnames (Z.land (Z.shiftr (byte_at (bytes id) i) 5) 3) in
  let offset := read_s16be (bytes id) (if prefixed then 4 else 2) in
  i + i = (if prefixed then 4 else 2) /\
  c_str (insn_string (insn_decode_format_6809 id)) =
    if addrmode id =? am6809_const_off16_ind
    then opc ++ " [" ++ fmt_d offset ++ "," ++ xreg ++ "]"
    else opc ++ " " ++ fmt_d offset ++ "," ++ xreg.
Proof.
  intros H b0 prefixed i opc xreg offset.
  assert (Ei : i + i = (if prefixed then 4 else 2))
    by (subst i; destruct prefixed; reflexivity).
  split; [exact Ei|].
  assert (Nopc : no_nul opc = true).
  { subst opc. destruct prefixed.
    - apply no_nul_extopc_mnemonic_6809.
    - apply no_nul_opcode_at. reflexivity. }
  assert (Nx : no_nul xreg = true)
    by (apply no_nul_opcode_at; reflexivity).
  unfold insn_decode_format_6809. cbv beta zeta.
  fold b0. fold prefixed. fold i. fold opc. fold xreg.
  rewrite Ei. fold offset.
  am_cases H; rewrite H; eval_tests;
    cbn [sprintf_insn_string set_insn_string insn_string addrmode];
    rewrite H; eval_tests;
    cbn [sprintf_insn_string set_insn_string insn_string];
    (rewrite c_str_strcpy;
     [ rewrite ?append_empty_r; reflexivity
     | rewrite !no_nul_app, Nopc, Nx, no_nul_fmt_d; reflexivity ]).
Qed.

Lemma format_6809_const_off16_operand_witness :
  let id := decode_bytes cpu_6809 0x1000 0xa0 [0xa9; 0x01; 0x80]%list in
  am_in (addrmode id) [am6809_const_off16; am6809_const_off16_ind]%list = true /\
  c_str (insn_string (insn_decode_format_6809 id)) = "SUBA 384,Y".
Proof.
  split; [reflexivity|].
  exact (proj2 (format_6809_const_off16_operand
                  (decode_bytes cpu_6809 0x1000 0xa0 [0xa9; 0x01; 0x80]%list)
                  eq_refl)).
Defined.

(** Behind a page prefix the word printed is not the operand: in
    [10 AE 99 01 80], [LDY [384,X]], the formatter reads [bytes[4]] and
    the byte after the instruction. *)
Lemma format_6809_const_off16_prefixed_example :
  output (decode_bytes cpu_6809 0x1000 0x10 [0xae; 0x99; 0x01; 0x80]%list)
  = "LDY [-32768,X]".
Proof. reflexivity. Qed.

(** C8: [insn_decode_complete] returns the output string of a complete
    session and the empty string otherwise; it is total and hands the
    session back as it was, so that further calls, also with
    [insn_decode_continue] in between, which a complete session ignores,
    return the same string. *)
Theorem insn_decode_complete_reads (cpu : cpu_t) (id : insn_decode) :
  fst (insn_decode_complete id) = id /\
  snd (insn_decode_complete id) =
    match state id with
    | ds_complete => c_str (insn_string id)
    | ds_idle | ds_fetching => ""
    end /\
  snd (insn_decode_complete (fst (insn_decode_complete id))) =
    snd (insn_decode_complete id) /\
  (state id = ds_complete ->
   forall bs : list Z,
     snd (insn_decode_complete (continue_all cpu id bs)) = c_str (insn_string id)).
Proof.
  assert (E : fst (insn_decode_complete id) = id).
  { unfold insn_decode_complete. destruct (decode_state_eqb _ _); reflexivity. }
  split; [exact E|]. split; [|split].
  - unfold insn_decode_complete. destruct (state id); reflexivity.
  - rewrite E. reflexivity.
  - intros H bs. rewrite continue_all_complete by exact H.
    unfold insn_decode_complete. rewrite H. reflexivity.
Qed.

(** C9: a nonzero [bytes_required] survives every [insn_decode_continue],
    whatever the architecture; [insn_decode_begin], when it starts an
    instruction, discards the old value: its result does not depend on
    it. *)
Theorem bytes_required_fixed (cpu : cpu_t) (id : insn_decode) :
  (forall bs : list Z,
     bytes_required id <> 0 ->
     bytes_required (continue_all cpu id bs) = bytes_required id) /\
  (forall (n addr b : Z),
     state id <> ds_fetching -> next_state id <> None ->
     insn_decode_begin cpu (set_bytes_required n id) addr b =
     insn_decode_begin cpu id addr b).
Proof.
  split.
  - intro bs. revert id.
    induction bs as [|b bs IH]; intros id H; cbn [continue_all]; [reflexivity|].
    rewrite IH; rewrite insn_decode_continue_frame; auto.
  - intros n addr b H N. unfold insn_decode_begin.
    cbn [set_bytes_required next_state state].
    destruct (next_state id); [|contradiction].
    destruct (state id); cbn [decode_state_eqb orb]; try reflexivity.
    contradiction.
Qed.

(** C10: [insn_decode_begin] on a session that is fetching, or that has no
    decode routine, changes no field of the session: it returns the
    session it was given. *)
Theorem insn_decode_begin_noop (cpu : cpu_t) (id : insn_decode) (addr b : Z) :
  state id = ds_fetching \/ next_state id = None ->
  insn_decode_begin cpu id addr b = id.
Proof.
  intros [H|H]; unfold insn_decode_begin; rewrite H.
  - destruct (next_state id); reflexivity.
  - reflexivity.
Qed.

Lemma insn_decode_begin_noop_witness :
  insn_decode_begin cpu_6502 sample_fetching 0x2000 0xea = sample_fetching.
Proof. apply insn_decode_begin_noop. left. reflexivity. Defined.

(** * Further properties of the decoder *)

(** ** The invariant of the counts *)

Lemma fetch_within_required_but_z80_witness :
  let id := do_calls cpu_6809 (insn_decode_init cpu_6809 blank)
              [call_begin 0x1000 0x10; call_continue 0xae;
               call_continue 0x91]%list in
  bytes_fetched id <= bytes_required id.
Proof.
  apply (fetch_within_required_but_z80 cpu_6809 blank
           [call_begin 0x1000 0x10; call_continue 0xae;
            call_continue 0x91]%list).
  - discriminate.
  - vm_compute. discriminate.
  - vm_compute. reflexivity.
Defined.

(** ** The length of an instruction and the end of a session *)

Lemma routine_6502_resolved (cpu : cpu_t) (id : insn_decode) :
  state id = ds_fetching -> bytes_fetched id <> 0 -> bytes_required id <> 0 ->
  insn_decode_next_state_6502 cpu id =
    if bytes_fetched id =? bytes_required id
    then set_state ds_complete (insn_decode_format_6502 cpu id) else id.
Proof.
  intros S F R. unfold insn_decode_next_state_6502.
  rewrite (ns_guard_passes id S F).
  apply Z.eqb_neq in R. rewrite R. reflexivity.
Qed.

Lemma routine_6800_resolved (id : insn_decode) :
  state id = ds_fetching -> bytes_fetched id <> 0 -> bytes_required id <> 0 ->
  insn_decode_next_state_6800 id =
    if bytes_fetched id =? bytes_required id
    then set_state ds_complete (insn_decode_format_6800 id) else id.
Proof.
  intros S F R. unfold insn_decode_next_state_6800.
  rewrite (ns_guard_passes id S F).
  apply Z.eqb_neq in R. rewrite R. reflexivity.
Qed.

Lemma routine_6809_resolved (id : insn_decode) :
  state id = ds_fetching -> bytes_fetched id <> 0 -> bytes_required id <> 0 ->
  insn_decode_next_state_6809 id =
    if bytes_fetched id =? bytes_required id
    then set_state ds_complete (insn_decode_format_6809 id) else id.
Proof.
  intros S F R. unfold insn_decode_next_state_6809.
  rewrite (ns_guard_passes id S F).
  apply Z.eqb_neq in R. rewrite R. reflexivity.
Qed.

Lemma routine_z80_resolved (id : insn_decode) :
  state id = ds_fetching -> bytes_fetched id <> 0 -> bytes_required id <> 0 ->
  insn_decode_next_state_z80 id =
    if bytes_fetched id =? bytes_required id
    then set_state ds_complete (insn_decode_format_z80 id) else id.
Proof.
  intros S F R. unfold insn_decode_next_state_z80.
  rewrite (ns_guard_passes id S F).
  apply Z.eqb_neq in R. rewrite R. reflexivity.
Qed.

(** Once the length is known a routine only compares the counts: it
    formats and completes when they are equal and does nothing
    otherwise. *)
Lemma call_next_state_resolved (cpu : cpu_t) (f : next_state_fn)
    (id : insn_decode) :
  state id = ds_fetching -> bytes_fetched id <> 0 -> bytes_required id <> 0 ->
  exists format : insn_decode -> insn_decode,
    (forall x, same_control (format x) x) /\
    call_next_state cpu f id =
      if bytes_fetched id =? bytes_required id
      then set_state ds_complete (format id) else id.
Proof.
  intros S F R. destruct f; cbn [call_next_state].
  - exists (insn_decode_format_6502 cpu). split.
    + apply insn_decode_format_6502_frame.
    + apply routine_6502_resolved; assumption.
  - exists insn_decode_format_6800. split.
    + apply insn_decode_format_6800_frame.
    + apply routine_6800_resolved; assumption.
  - exists insn_decode_format_6809. split.
    + apply insn_decode_format_6809_frame.
    + apply routine_6809_resolved; assumption.
  - exists insn_decode_format_z80. split.
    + apply insn_decode_format_z80_frame.
    + apply routine_z80_resolved; assumption.
Qed.

(** [insn_decode_continue] on a fetching session with room in the
    buffer and a known length. *)
Lemma insn_decode_continue_resolved (cpu : cpu_t) (id : insn_decode) (b : Z) :
  next_state id <> None ->
  state id = ds_fetching ->
  0 < bytes_fetched id < INSN_DECODE_MAXBYTES ->
  bytes_required id <> 0 ->
  let id' := fst (insn_decode_continue cpu id b) in
  bytes_fetched id' = bytes_fetched id + 1 /\
  bytes_required id' = bytes_required id /\
  next_state id' = next_state id /\
  bytes id' = byte_store (bytes id) (bytes_fetched id) b /\
  (bytes_fetched id + 1 = bytes_required id -> state id' = ds_complete) /\
  (bytes_fetched id + 1 <> bytes_required id -> state id' = ds_fetching).
Proof.
  intros N S F R id'.
  destruct (next_state id) as [f|] eqn:Ef; [clear N|contradiction].
  destruct (insn_decode_continue_cases cpu id b)
    as [(S' & _)|[(_ & F' & _)|(_ & _ & E)]]; [congruence|lia|].
  fold (append_byte b id) in E.
  destruct (insn_decode_next_state_driver cpu f (append_byte b id)) as [s Es];
    [exact Ef|].
  subst id'. rewrite E, Es.
  destruct (call_next_state_resolved cpu f (append_byte b id))
    as (format & Hfmt & Ec);
    [exact S | cbn; lia | exact R |].
  rewrite Ec. cbn [append_byte set_bytes_fetched set_bytes bytes_fetched
                   bytes_required].
  destruct (Hfmt (append_byte b id)) as (_ & _ & F3 & F4 & F5 & _ & F7).
  destruct (bytes_fetched id + 1 =? bytes_required id) eqn:Q.
  - apply Z.eqb_eq in Q.
    cbn [set_insn_string set_state bytes_fetched bytes_required next_state
         bytes state].
    rewrite F3, F4, F5, F7.
    repeat split; auto. intro; contradiction.
  - apply Z.eqb_neq in Q.
    cbn [set_insn_string append_byte set_bytes_fetched set_bytes bytes_fetched
         bytes_required next_state bytes state].
    repeat split; auto. intro; contradiction.
Qed.

(** X2: a fetching session that knows the length of its instruction
    completes exactly with the byte that brings [bytes_fetched] to
    [bytes_required], on every architecture: with fewer further bytes it
    is still fetching, the last byte completes it, and what a client
    feeds after that is ignored. *)
Theorem known_length_completion (cpu : cpu_t) (bs : list Z) :
  forall id : insn_decode,
    next_state id <> None ->
    state id = ds_fetching ->
    0 < bytes_fetched id < bytes_required id ->
    bytes_required id <= INSN_DECODE_MAXBYTES ->
    let need := bytes_required id - bytes_fetched id in
    let id' := continue_all cpu id bs in
    (Z.of_nat (List.length bs) < need ->
     state id' = ds_fetching /\
     bytes_fetched id' = bytes_fetched id + Z.of_nat (List.length bs)) /\
    (need <= Z.of_nat (List.length bs) ->
     state id' = ds_complete /\ bytes_fetched id' = bytes_required id /\
     id' = continue_all cpu id (firstn (Z.to_nat need) bs)).
Proof.
  induction bs as [|b bs IH]; intros id N St F R need id'.
  - subst id' need. cbn [continue_all List.length Z.of_nat]. split.
    + intros _. split; [exact St|lia].
    + intro; lia.
  - subst id'. cbn [continue_all].
    destruct (insn_decode_continue_resolved cpu id b N St)
      as (C1 & C2 & C3 & _ & C5 & C6); [unfold INSN_DECODE_MAXBYTES in *; lia|lia|].
    set (id1 := fst (insn_decode_continue cpu id b)) in *.
    replace (Z.of_nat (List.length (b :: bs)))
      with (Z.of_nat (List.length bs) + 1)
      by (cbn [List.length]; lia).
    destruct (Z.eq_dec (bytes_fetched id + 1) (bytes_required id)) as [Q|Q].
    + specialize (C5 Q). rewrite (continue_all_complete cpu bs id1 C5).
      split; [intro; subst need; lia|]. intros _.
      repeat split; [exact C5|lia|].
      replace (Z.to_nat need) with 1%nat by (subst need; lia).
      cbn [firstn continue_all]. reflexivity.
    + specialize (C6 Q).
      assert (N1 : next_state id1 <> None) by (rewrite C3; exact N).
      destruct (IH id1 N1 C6) as [I1 I2]; [lia|lia|].
      rewrite C1, C2 in I1, I2.
      split.
      * intro L. destruct I1 as [J1 J2]; [subst need; lia|].
        split; [exact J1|lia].
      * intro L. destruct I2 as (J1 & J2 & J3); [subst need; lia|].
        repeat split; [exact J1|exact J2|].
        rewrite J3.
        replace (Z.to_nat need)
          with (S (Z.to_nat (bytes_required id - (bytes_fetched id + 1))))
          by (subst need; lia).
        cbn [firstn continue_all]. reflexivity.
Qed.

Lemma known_length_completion_witness :
  let id := sample_fetching in
  let id' := continue_all cpu_6502 id [0x00; 0x30]%list in
  state id' = ds_complete /\ bytes_fetched id' = 3.
Proof.
  destruct (known_length_completion cpu_6502 [0x00; 0x30]%list sample_fetching)
    as [_ H].
  - discriminate.
  - reflexivity.
  - vm_compute. split; reflexivity.
  - vm_compute. discriminate.
  - destruct H as (H1 & H2 & _).
    + vm_compute. discriminate.
    + split; [exact H1|exact H2].
Defined.

Lemma byte_at_store_first (l : list Z) (b : Z) :
  0 <= byte_at (byte_store l 0 b) 0 < 256.
Proof.
  unfold byte_store, byte_at. cbn.
  destruct l as [|x r]; cbn; [lia|].
  unfold to_u8. apply Z.mod_pos_bound. lia.
Qed.

Lemma byte_at_store_first_other (l : list Z) (i b : Z) :
  0 < i -> byte_at (byte_store l i b) 0 = byte_at l 0.
Proof.
  intro P. unfold byte_store, byte_at.
  destruct (i <? 0) eqn:E; [reflexivity|].
  destruct (Z.to_nat i) as [|n] eqn:En; [lia|].
  destruct l as [|x r]; reflexivity.
Qed.

Lemma first_byte_6502 (cpu : cpu_t) (id : insn_decode) :
  state id = ds_fetching -> bytes_fetched id <> 0 -> bytes_required id = 0 ->
  1 <= bytes_required (insn_decode_next_state_6502 cpu id) <= 3.
Proof.
  intros St F R. unfold insn_decode_next_state_6502.
  rewrite (ns_guard_passes id St F), R. cbn [Z.eqb]. cbv zeta.
  rewrite finish_bytes_required by apply insn_decode_format_6502_frame.
  repeat match goal with
  | |- context [match ?o with Some _ => _ | None => _ end] => destruct o
  end; cbn; lia.
Qed.

Lemma insn_decode_addrmode_6800_total (id : insn_decode) :
  bytes_fetched id <> 0 ->
  0 <= byte_at (bytes id) 0 < 256 ->
  am_in (insn_decode_addrmode_6800 id)
    [am6800_inherent; am6800_rel; am6800_indexed; am6800_imm8;
     am6800_direct; am6800_extended; am6800_imm16]%list = true.
Proof.
  intros F B. unfold insn_decode_addrmode_6800.
  apply Z.eqb_neq in F. rewrite F. cbv zeta.
  remember (byte_at (bytes id) 0) as opc eqn:Eo. clear Eo.
  match goal with
  | |- ?lhs = true =>
      let t := eval pattern opc in lhs in
      match t with
      | ?g _ => apply (all_from_spec g 256 0); [vm_compute; reflexivity|lia]
      end
  end.
Qed.

Lemma first_byte_6800 (id : insn_decode) :
  state id = ds_fetching -> bytes_fetched id <> 0 -> bytes_required id = 0 ->
  0 <= byte_at (bytes id) 0 < 256 ->
  1 <= bytes_required (insn_decode_next_state_6800 id) <= 3.
Proof.
  intros St F R B. unfold insn_decode_next_state_6800.
  rewrite (ns_guard_passes id St F), R. cbn [Z.eqb]. cbv zeta.
  rewrite finish_bytes_required by apply insn_decode_format_6800_frame.
  pose proof (insn_decode_addrmode_6800_total id F B) as T.
  cbn [set_addrmode addrmode].
  am_cases T; rewrite T; cbn; lia.
Qed.

(** No call changes the routine of a session. *)
Lemma do_call_next_state (cpu : cpu_t) (id : insn_decode) (c : call) :
  next_state (do_call cpu id c) = next_state id.
Proof.
  destruct c; cbn [do_call].
  - unfold insn_decode_begin. destruct (next_state id) eqn:N; [|exact N].
    destruct (_ || _); [|exact N]. cbv zeta.
    match goal with
    | |- context [insn_decode_next_state cpu ?x] =>
        destruct (insn_decode_next_state_frame cpu x) as [_ _ F3 _ _ _ _]
    end. rewrite F3. exact N.
  - destruct (insn_decode_continue_cases cpu id b)
      as [(St & E)|[(St & F & E)|(St & F & E)]]; rewrite E; cbn [fst]; auto.
    match goal with
    | |- context [insn_decode_next_state cpu ?x] =>
        destruct (insn_decode_next_state_frame cpu x) as [_ _ F3 _ _ _ _]
    end. rewrite F3. reflexivity.
  - unfold insn_decode_complete. destruct (decode_state_eqb _ _); reflexivity.
Qed.

Lemma do_calls_next_state (cpu : cpu_t) (cs : list call) :
  forall id, next_state (do_calls cpu id cs) = next_state id.
Proof.
  unfold do_calls. induction cs as [|c cs IH]; intro id; cbn [fold_left].
  - reflexivity.
  - rewrite IH. apply do_call_next_state.
Qed.

Section FixedLength.

Variable cpu : cpu_t.
Variable f : next_state_fn.
Variable pending : insn_decode -> Prop.
Hypothesis Hrit : resolves_in_time (call_next_state cpu f) pending.
Hypothesis Hfirst :
  forall id, state id = ds_fetching -> bytes_fetched id <> 0 ->
  bytes_required id = 0 -> 0 <= byte_at (bytes id) 0 < 256 ->
  1 <= bytes_required (call_next_state cpu f id) <= 3.

(** The routine has just run on a fetching session. *)
Lemma fixed_length_after_routine (id : insn_decode) (s : string) :
  state id = ds_fetching ->
  1 <= bytes_fetched id ->
  (bytes_required id = 0 -> bytes_fetched id = 1 /\ 0 <= byte_at (bytes id) 0 < 256) ->
  (bytes_required id <> 0 -> bytes_fetched id <= bytes_required id <= 3) ->
  fixed_length_invariant (set_insn_string s (call_next_state cpu f id)).
Proof.
  intros St F A B _.
  destruct Hrit as [Rf _ _ _ _ Rfet].
  destruct (Rf id) as [F1 _ _ _ F5 F6 _].
  specialize (Rfet id St).
  set (id' := call_next_state cpu f id) in *.
  cbn [set_insn_string state bytes_required bytes_fetched].
  assert (Q : 1 <= bytes_required id' <= 3 /\ bytes_fetched id <= bytes_required id').
  { destruct (Z.eq_dec (bytes_required id) 0) as [Z0|NZ].
    - destruct (A Z0) as [A1 A2].
      assert (1 <= bytes_required id' <= 3) by (apply Hfirst; auto; lia).
      lia.
    - rewrite (F5 NZ). specialize (B NZ). lia. }
  rewrite F1. repeat split; try lia.
  - intro C. destruct F6 as [F6|(_ & _ & F6)]; [congruence|]. lia.
  - intro E. destruct F6 as [F6|(_ & F6 & _)]; [|exact F6].
    exfalso. apply Rfet; [lia|congruence|exact E].
Qed.

Lemma fixed_length_begin (id : insn_decode) (addr b : Z) :
  next_state id = Some f ->
  fixed_length_invariant id ->
  fixed_length_invariant (insn_decode_begin cpu id addr b).
Proof.
  intros N T. unfold insn_decode_begin. rewrite N.
  destruct (_ || _); [|exact T]. cbv zeta.
  match goal with
  | |- context [insn_decode_next_state cpu ?x] =>
      destruct (insn_decode_next_state_driver cpu f x) as [s Es];
      [exact N|]; rewrite Es
  end.
  apply fixed_length_after_routine;
    cbn [set_bytes_fetched set_bytes set_bytes_required set_addrmode
         set_resolved_address_valid set_resolved_address set_insn_address
         set_state state bytes_fetched bytes_required bytes];
    try reflexivity; try lia.
  intros _. split; [reflexivity|]. apply byte_at_store_first.
Qed.

Lemma fixed_length_continue (id : insn_decode) (b : Z) :
  next_state id = Some f ->
  fixed_length_invariant id ->
  fixed_length_invariant (fst (insn_decode_continue cpu id b)).
Proof.
  intros N T.
  destruct (insn_decode_continue_cases cpu id b)
    as [(St & E)|[(St & F & E)|(St & F & E)]]; rewrite E; cbn [fst].
  - exact T.
  - exfalso. destruct T as (T1 & T2 & T3); [congruence|].
    unfold INSN_DECODE_MAXBYTES in F. lia.
  - fold (append_byte b id).
    destruct (insn_decode_next_state_driver cpu f (append_byte b id))
      as [s Es]; [exact N|]. rewrite Es.
    destruct T as (T1 & T2 & T3); [congruence|].
    assert (L : bytes_fetched id < bytes_required id).
    { destruct (Z.eq_dec (bytes_fetched id) (bytes_required id)) as [Q|Q]; [|lia].
      apply T3 in Q. congruence. }
    apply fixed_length_after_routine;
      cbn [append_byte set_bytes_fetched set_bytes state bytes_fetched
           bytes_required]; auto; try lia.
Qed.

Lemma fixed_length_calls (cs : list call) :
  forall id,
    next_state id = Some f ->
    fixed_length_invariant id ->
    fixed_length_invariant (do_calls cpu id cs).
Proof.
  unfold do_calls.
  induction cs as [|c cs IH]; intros id N T; cbn [fold_left]; [auto|].
  assert (N' : next_state (do_call cpu id c) = Some f)
    by (rewrite do_call_next_state; exact N).
  apply IH; [exact N'|].
  destruct c; cbn [do_call].
  - apply fixed_length_begin; assumption.
  - apply fixed_length_continue; assumption.
  - unfold insn_decode_complete. destruct (decode_state_eqb _ _); exact T.
Qed.

End FixedLength.

(** X3: on the 6502, the 65C02 and the 6800 the first byte gives the
    length.  Whatever a client has called since [insn_decode_init], a
    session that has been begun holds between one byte and
    [bytes_required] bytes, [bytes_required] is 1, 2 or 3, and the session
    is complete exactly when [bytes_fetched = bytes_required]: it never
    reaches the overflow. *)
Theorem fixed_length_session (cpu : cpu_t) (id0 : insn_decode) (cs : list call) :
  fixed_length_cpu cpu = true ->
  let id := do_calls cpu (insn_decode_init cpu id0) cs in
  state id <> ds_idle ->
  1 <= bytes_fetched id <= bytes_required id /\ bytes_required id <= 3 /\
  (state id = ds_complete <-> bytes_fetched id = bytes_required id).
Proof.
  intros C id.
  assert (I : fixed_length_invariant (insn_decode_init cpu id0))
    by (intro St; rewrite insn_decode_init_state in St; contradiction).
  assert (T6502 : forall c, next_state (insn_decode_init cpu id0) = Some ns_6502 ->
                  c = cpu -> fixed_length_invariant id).
  { intros c N _. subst id.
    apply (fixed_length_calls cpu ns_6502 (fun _ => False)); auto.
    - apply resolves_in_time_6502.
    - intros x St F R _. apply first_byte_6502; assumption. }
  destruct cpu; try discriminate C.
  - apply (T6502 cpu_6502); reflexivity.
  - apply (T6502 cpu_65c02); reflexivity.
  - subst id. apply (fixed_length_calls cpu_6800 ns_6800 unresolved_6800); auto.
    + apply resolves_in_time_6800.
    + intros x St F R B. apply first_byte_6800; assumption.
Qed.

Lemma fixed_length_session_witness :
  let id := do_calls cpu_6800 (insn_decode_init cpu_6800 blank)
              [call_begin 0x1000 0xce; call_continue 0x12]%list in
  1 <= bytes_fetched id <= bytes_required id /\ bytes_required id <= 3 /\
  (state id = ds_complete <-> bytes_fetched id = bytes_required id).
Proof.
  apply (fixed_length_session cpu_6800 blank
           [call_begin 0x1000 0xce; call_continue 0x12]%list).
  - reflexivity.
  - vm_compute. discriminate.
Defined.

Lemma insn_postbytes_6809_le3 (n : nat) : nth n insn_postbytes_6809 0 <= 3.
Proof.
  unfold insn_postbytes_6809.
  do 29 (destruct n as [|n]; [cbn; lia|]).
  destruct n; cbn; lia.
Qed.

Lemma first_bytes_6809 (id : insn_decode) :
  state id = ds_fetching -> bytes_fetched id <> 0 -> bytes_required id = 0 ->
  0 <= bytes_required (insn_decode_next_state_6809 id) <= 5.
Proof.
  intros St F R. unfold insn_decode_next_state_6809.
  rewrite (ns_guard_passes id St F), R. cbn [Z.eqb]. cbv zeta.
  destruct (_ && _); [lia|].
  cbn [set_addrmode addrmode bytes_required set_bytes_required bytes_fetched].
  destruct (_ && _).
  - pose proof (insn_postbytes_6809_le3
                  (Z.to_nat (insn_decode_addrmode_6809 id - am6809_first))) as L.
    pose proof (insn_postbytes_6809_nonneg
                  (Z.to_nat (insn_decode_addrmode_6809 id - am6809_first))) as P.
    destruct (_ || _);
      rewrite finish_bytes_required by apply insn_decode_format_6809_frame;
      cbn [set_addrmode addrmode bytes_required set_bytes_required]; lia.
  - rewrite finish_bytes_required by apply insn_decode_format_6809_frame.
    cbn [set_addrmode bytes_required]. lia.
Qed.

Section Overflow.

Variable cpu : cpu_t.
Variable f : next_state_fn.
Variable pending : insn_decode -> Prop.
Hypothesis Hrit : resolves_in_time (call_next_state cpu f) pending.
Hypothesis Hbound :
  forall id, state id = ds_fetching -> bytes_fetched id <> 0 ->
  bytes_required id = 0 ->
  0 <= bytes_required (call_next_state cpu f id) <= 5.

Lemma resolved_or_overflow_after_routine (id : insn_decode) (s : string) :
  state id = ds_fetching ->
  bytes_fetched id <> 0 ->
  0 <= bytes_required id <= 5 ->
  resolved_or_overflow (set_insn_string s (call_next_state cpu f id)).
Proof.
  intros St F B _.
  destruct Hrit as [Rf _ _ _ _ _].
  destruct (Rf id) as [F1 _ _ _ F5 F6 _].
  set (id' := call_next_state cpu f id) in *.
  cbn [set_insn_string state bytes_required bytes_fetched].
  split.
  - destruct (Z.eq_dec (bytes_required id) 0) as [Z0|NZ].
    + apply Hbound; assumption.
    + rewrite (F5 NZ). exact B.
  - intro C. left. destruct F6 as [F6|(_ & _ & F6)]; [congruence|exact F6].
Qed.

Lemma resolved_or_overflow_begin (id : insn_decode) (addr b : Z) :
  next_state id = Some f ->
  resolved_or_overflow id ->
  resolved_or_overflow (insn_decode_begin cpu id addr b).
Proof.
  intros N T. unfold insn_decode_begin. rewrite N.
  destruct (_ || _); [|exact T]. cbv zeta.
  match goal with
  | |- context [insn_decode_next_state cpu ?x] =>
      destruct (insn_decode_next_state_driver cpu f x) as [s Es];
      [exact N|]; rewrite Es
  end.
  apply resolved_or_overflow_after_routine;
    cbn [set_bytes_fetched set_bytes set_bytes_required set_addrmode
         set_resolved_address_valid set_resolved_address set_insn_address
         set_state state bytes_fetched bytes_required bytes];
    try reflexivity; lia.
Qed.

Lemma resolved_or_overflow_continue (id : insn_decode) (b : Z) :
  next_state id = Some f ->
  session_on_track pending id ->
  resolved_or_overflow id ->
  resolved_or_overflow (fst (insn_decode_continue cpu id b)).
Proof.
  intros N [T1 _] T.
  destruct (insn_decode_continue_cases cpu id b)
    as [(St & E)|[(St & F & E)|(St & F & E)]]; rewrite E; cbn [fst].
  - exact T.
  - intros _. destruct T as [T2 _]; [congruence|].
    cbn [set_state set_insn_string state bytes_required bytes_fetched
         insn_string].
    split; [exact T2|]. intros _. right.
    unfold INSN_DECODE_MAXBYTES in *.
    destruct (T1 St) as [(Z0 & _)|(P & Q)]; [|lia].
    repeat split; auto.
  - fold (append_byte b id).
    destruct (insn_decode_next_state_driver cpu f (append_byte b id))
      as [s Es]; [exact N|]. rewrite Es.
    destruct T as [T2 _]; [congruence|].
    destruct (T1 St) as [(_ & _ & P)|(_ & P & _)];
      apply resolved_or_overflow_after_routine;
      cbn [append_byte set_bytes_fetched set_bytes state bytes_fetched
           bytes_required]; auto; lia.
Qed.

Lemma resolved_or_overflow_calls (cs : list call) :
  forall id,
    next_state id = Some f ->
    session_on_track pending id ->
    resolved_or_overflow id ->
    session_on_track pending (do_calls cpu id cs) /\
    resolved_or_overflow (do_calls cpu id cs).
Proof.
  unfold do_calls.
  induction cs as [|c cs IH]; intros id N T R; cbn [fold_left]; [auto|].
  assert (N' : next_state (do_call cpu id c) = Some f)
    by (rewrite do_call_next_state; exact N).
  apply IH; [exact N'| |].
  - destruct c; cbn [do_call].
    + apply (on_track_begin cpu f pending Hrit); assumption.
    + apply (on_track_continue cpu f pending Hrit); assumption.
    + unfold insn_decode_complete. destruct (decode_state_eqb _ _); exact T.
  - destruct c; cbn [do_call].
    + apply resolved_or_overflow_begin; assumption.
    + apply resolved_or_overflow_continue; assumption.
    + unfold insn_decode_complete. destruct (decode_state_eqb _ _); exact R.
Qed.

End Overflow.

(** X4: on the 6809 and the 6809E, whatever a client has called since
    [insn_decode_init], a session that has been begun has a length of at
    most 5 once it is known; while it is fetching with a known length it
    holds fewer bytes than that; and a complete session holds exactly
    [bytes_required] bytes, unless the length was never found: then it
    ran into the overflow with 8 bytes, and its output is
    [<decode overflow>]. *)
Theorem m6809_overflow_only_unresolved (cpu : cpu_t) (id0 : insn_decode)
    (cs : list call) :
  cpu = cpu_6809 \/ cpu = cpu_6809e ->
  let id := do_calls cpu (insn_decode_init cpu id0) cs in
  state id <> ds_idle ->
  0 <= bytes_required id <= 5 /\
  (state id = ds_fetching -> 0 < bytes_required id ->
   bytes_fetched id < bytes_required id) /\
  (state id = ds_complete ->
   bytes_fetched id = bytes_required id \/
   (bytes_required id = 0 /\ bytes_fetched id = INSN_DECODE_MAXBYTES /\
    output id = "<decode overflow>")).
Proof.
  intros C id St.
  assert (N : next_state (insn_decode_init cpu id0) = Some ns_6809)
    by (destruct C; subst cpu; reflexivity).
  destruct (resolved_or_overflow_calls cpu ns_6809 unresolved_6809
              resolves_in_time_6809) with (cs := cs)
              (id := insn_decode_init cpu id0) as [[T1 T2] R]; auto.
  - intros x Sx Fx Rx. apply first_bytes_6809; assumption.
  - split; rewrite insn_decode_init_state; discriminate.
  - intro Si. rewrite insn_decode_init_state in Si. contradiction.
  - fold id in T1, T2, R. destruct (R St) as [R1 R2].
    split; [exact R1|]. split.
    + intros Sf P. destruct (T1 Sf) as [(Z0 & _)|(_ & _ & Q)]; [lia|exact Q].
    + intro Sc. destruct (R2 Sc) as [Q|(Q1 & Q2 & Q3)]; [left; exact Q|].
      right. repeat split; auto.
      unfold output, insn_decode_complete. rewrite Sc. exact Q3.
Qed.

Lemma m6809_overflow_only_unresolved_witness :
  let id := do_calls cpu_6809 (insn_decode_init cpu_6809 blank)
              [call_begin 0x1000 0x10; call_continue 0xae;
               call_continue 0x91]%list in
  0 <= bytes_required id <= 5 /\
  (state id = ds_fetching -> 0 < bytes_required id ->
   bytes_fetched id < bytes_required id) /\
  (state id = ds_complete ->
   bytes_fetched id = bytes_required id \/
   (bytes_required id = 0 /\ bytes_fetched id = INSN_DECODE_MAXBYTES /\
    output id = "<decode overflow>")).
Proof.
  apply (m6809_overflow_only_unresolved cpu_6809 blank
           [call_begin 0x1000 0x10; call_continue 0xae;
            call_continue 0x91]%list).
  - left. reflexivity.
  - vm_compute. discriminate.
Defined.

(** ** What the routines and the driver change; modes and readers *)

(** X8: the addressing mode of an indexed postbyte.  For every byte the
    result is [am_invalid] or one of the indexed modes, each of which
    has at least one postbyte in [insn_postbytes_6809]; a postbyte with
    bit 7 clear is the 5-bit constant offset; with bit 7 set, bit 4
    selects the indirect variant, and the enumerator after the direct
    one is that variant. *)
Theorem insn_decode_addrmode_indexed_6809_modes (pb : Z) :
  0 <= pb < 256 ->
  let am := insn_decode_addrmode_indexed_6809 pb in
  (am = am_invalid \/
   (am6809_zero_off <= am <= am6809_extended_ind /\
    1 <= nth (Z.to_nat (am - am6809_first)) insn_postbytes_6809 0)) /\
  (pb < 0x80 -> am = am6809_const_off5) /\
  (0x80 <= pb -> am <> am_invalid ->
   am6809_indirect_p am = Z.testbit pb 4).
Proof.
  intros R am.
  assert (T : indexed_postbyte_ok pb = true).
  { apply (all_from_spec indexed_postbyte_ok 256 0); [|lia].
    vm_compute. reflexivity. }
  unfold indexed_postbyte_ok in T. fold am in T.
  apply andb_true_iff in T as [T1 T2].
  split; [|split].
  - apply orb_true_iff in T1 as [T1|T1].
    + left. apply Z.eqb_eq. exact T1.
    + right. apply andb_true_iff in T1 as [T1 T3].
      apply andb_true_iff in T1 as [T1 T4].
      apply Z.leb_le in T1, T3, T4. lia.
  - intro L. apply Z.ltb_lt in L. rewrite L in T2. apply Z.eqb_eq. exact T2.
  - intros L NI. apply Z.ltb_ge in L. rewrite L in T2.
    apply orb_true_iff in T2 as [T2|T2].
    + apply Z.eqb_eq in T2. contradiction.
    + apply Bool.eqb_prop. exact T2.
Qed.

Lemma insn_decode_addrmode_indexed_6809_modes_witness :
  let am := insn_decode_addrmode_indexed_6809 0x99 in
  (am = am_invalid \/
   (am6809_zero_off <= am <= am6809_extended_ind /\
    1 <= nth (Z.to_nat (am - am6809_first)) insn_postbytes_6809 0)) /\
  (0x99 < 0x80 -> am = am6809_const_off5) /\
  (0x80 <= 0x99 -> am <> am_invalid ->
   am6809_indirect_p am = Z.testbit 0x99 4).
Proof.
  apply (insn_decode_addrmode_indexed_6809_modes 0x99). lia.
Defined.

(** X5: what a state routine leaves alone, on every architecture.  It
    stores no byte and keeps the count, the address of the instruction
    and the routine; it does nothing at all to a session that is not
    fetching; once the length is known it keeps the length and the
    addressing mode; and it changes the state only from fetching to
    complete, with [bytes_fetched = bytes_required]. *)
Theorem call_next_state_keeps (cpu : cpu_t) (f : next_state_fn)
    (id : insn_decode) :
  let id' := call_next_state cpu f id in
  bytes id' = bytes id /\ bytes_fetched id' = bytes_fetched id /\
  insn_address id' = insn_address id /\ next_state id' = next_state id /\
  (state id <> ds_fetching \/ bytes_fetched id = 0 -> id' = id) /\
  (bytes_required id <> 0 ->
   bytes_required id' = bytes_required id /\ addrmode id' = addrmode id) /\
  (state id' = state id \/
   (state id = ds_fetching /\ state id' = ds_complete /\
    bytes_fetched id' = bytes_required id')).
Proof.
  intro id'.
  destruct (call_next_state_frame cpu f id) as [F1 F2 F3 F4 F5 F6 F7].
  fold id' in F1, F2, F3, F4, F5, F6, F7.
  assert (G0 : bytes_fetched id = 0 -> id' = id).
  { intro Z0. subst id'. destruct f; cbn [call_next_state];
      [unfold insn_decode_next_state_6502 | unfold insn_decode_next_state_6800
      | unfold insn_decode_next_state_6809 | unfold insn_decode_next_state_z80];
      rewrite Z0, orb_true_r; reflexivity. }
  do 4 (split; [assumption|]).
  split; [|split; [|exact F6]].
  - intros [St|Z0]; [exact (F7 St)|exact (G0 Z0)].
  - intro NZ. split; [exact (F5 NZ)|].
    destruct (decode_state_eqb (state id) ds_fetching) eqn:E.
    + apply decode_state_eqb_eq in E.
      destruct (Z.eq_dec (bytes_fetched id) 0) as [Z0|NF].
      * rewrite (G0 Z0). reflexivity.
      * destruct (call_next_state_resolved cpu f id E NF NZ)
          as (format & Hfmt & Ec).
        subst id'. rewrite Ec. destruct (_ =? _); [|reflexivity].
        destruct (Hfmt id) as (_ & _ & _ & _ & _ & G & _). exact G.
    + apply decode_state_eqb_neq in E. rewrite (F7 E). reflexivity.
Qed.

(** X7: a session initialised with no architecture selected takes no
    call: it stays as [insn_decode_init] left it, [insn_decode_continue]
    returns [false], and the output is empty. *)
Theorem no_cpu_session_inert (id0 : insn_decode) (cs : list call) :
  let id := do_calls cpu_none (insn_decode_init cpu_none id0) cs in
  id = insn_decode_init cpu_none id0 /\
  (forall b, insn_decode_continue cpu_none id b = (id, false)) /\
  output id = "".
Proof.
  intro id.
  assert (I : forall x, state x = ds_idle -> next_state x = None ->
              do_calls cpu_none x cs = x).
  { clear. induction cs as [|c cs IH]; intros x Sx Nx; [reflexivity|].
    unfold do_calls in *. cbn [fold_left].
    assert (E : do_call cpu_none x c = x).
    { destruct c; cbn [do_call].
      - unfold insn_decode_begin. rewrite Nx. reflexivity.
      - unfold insn_decode_continue. rewrite Sx. reflexivity.
      - unfold insn_decode_complete. rewrite Sx. reflexivity. }
    rewrite E. apply IH; assumption. }
  assert (E : id = insn_decode_init cpu_none id0)
    by (apply I; reflexivity).
  rewrite E. repeat split.
Qed.

(** X6: what [insn_decode_next_state] adds to the routine it calls.  It
    changes the text only, and only by appending the target to it: when
    the call completed a fetching session and the formatter marked the
    resolved address valid, the text is followed by a blank and the
    address in angle brackets; otherwise the session is as the routine
    left it.  The annotation is written with [sprintf] at the end of the
    text, so text, annotation and terminator have to fit the array; then
    the array keeps its length. *)
Theorem insn_decode_next_state_annotates (cpu : cpu_t) (f : next_state_fn)
    (id : insn_decode) :
  next_state id = Some f ->
  let id1 := call_next_state cpu f id in
  let id2 := fst (insn_decode_next_state cpu id) in
  let annotated :=
    decode_state_eqb (state id) ds_fetching
    && decode_state_eqb (state id1) ds_complete
    && resolved_address_valid id1 in
  (annotated = true ->
   (strlen (insn_string id1) + String.length (annotation id1)
    < String.length (insn_string id1))%nat) ->
  same_control id2 id1 /\
  resolved_address id2 = resolved_address id1 /\
  resolved_address_valid id2 = resolved_address_valid id1 /\
  String.length (insn_string id2) = String.length (insn_string id1) /\
  c_str (insn_string id2) =
    c_str (insn_string id1) ++ (if annotated then annotation id1 else "") /\
  (annotated = false -> id2 = id1).
Proof.
  intros N id1 id2 annotated Fit.
  subst id2 annotated. unfold insn_decode_next_state. rewrite N. cbv zeta.
  fold id1. revert Fit.
  destruct (decode_state_eqb (state id) ds_fetching); cbn [andb fst].
  - destruct (decode_state_eqb (state id1) ds_complete && resolved_address_valid id1).
    + intro Fit. specialize (Fit eq_refl).
      cbn [set_insn_string resolved_address resolved_address_valid insn_string].
      split; [repeat split|]. do 2 (split; [reflexivity|]).
      split; [|split; [|discriminate]].
      * unfold strcpy_at. apply length_buf_write_within.
        rewrite length_append. cbn [String.length]. fold (annotation id1). lia.
      * apply c_str_strcpy_at_end.
        unfold annotation. cbn [append no_nul].
        rewrite no_nul_app, no_nul_fmt_X. reflexivity.
    + intros _. rewrite append_empty_r. repeat split.
  - intros _. rewrite append_empty_r. repeat split.
Qed.

Lemma insn_decode_next_state_annotates_witness :
  let id1 := call_next_state cpu_6809 ns_6809 sample_bra_at_1 in
  let id2 := fst (insn_decode_next_state cpu_6809 sample_bra_at_1) in
  c_str (insn_string id2) = c_str (insn_string id1) ++ annotation id1 /\
  String.length (insn_string id2) = INSN_DECODE_MAXSTRING.
Proof.
  destruct (insn_decode_next_state_annotates cpu_6809 ns_6809 sample_bra_at_1)
    as (_ & _ & _ & A & B & _).
  - reflexivity.
  - intros _. vm_compute. lia.
  - split; [exact B|exact A].
Defined.

Lemma word_ok_all (hi lo : Z) :
  0 <= hi < 256 -> 0 <= lo < 256 -> word_ok hi lo = true.
Proof.
  intros H L.
  assert (T : all_from (fun h => all_from (word_ok h) 0 256) 0 256 = true)
    by (vm_compute; reflexivity).
  apply (all_from_spec (word_ok hi) 256 0); [|lia].
  apply (all_from_spec (fun h => all_from (word_ok h) 0 256) 256 0); [exact T|lia].
Qed.

(** X15: the readers of [insn_decode.h] on an array of bytes.
    [read_u16le] takes the low byte first and [read_u16be] the high byte
    first; the signed readers give the same word taken as a 16-bit
    two's complement number. *)
Theorem read_16_bytes (buf : list Z) (i : Z) :
  0 <= byte_at buf i < 256 -> 0 <= byte_at buf (i + 1) < 256 ->
  read_u16le buf i = byte_at buf i + 256 * byte_at buf (i + 1) /\
  read_u16be buf i = 256 * byte_at buf i + byte_at buf (i + 1) /\
  read_s16le buf i =
    (if read_u16le buf i <? 32768 then read_u16le buf i
     else read_u16le buf i - 65536) /\
  read_s16be buf i =
    (if read_u16be buf i <? 32768 then read_u16be buf i
     else read_u16be buf i - 65536).
Proof.
  intros A B.
  pose proof (word_ok_all _ _ B A) as W1.
  pose proof (word_ok_all _ _ A B) as W2.
  unfold word_ok in W1, W2.
  apply andb_true_iff in W1 as [_ W1]. apply andb_true_iff in W2 as [W2 _].
  apply Z.eqb_eq in W1, W2.
  assert (L : read_u16le buf i = byte_at buf i + 256 * byte_at buf (i + 1)).
  { unfold read_u16le, to_u16. rewrite W1. rewrite Z.mod_small; lia. }
  assert (E : read_u16be buf i = 256 * byte_at buf i + byte_at buf (i + 1)).
  { unfold read_u16be, to_u16. rewrite W2. rewrite Z.mod_small; lia. }
  repeat split; auto.
  - unfold read_s16le, to_s16, to_u16.
    rewrite (Z.mod_small (read_u16le buf i)) by lia. reflexivity.
  - unfold read_s16be, to_s16, to_u16.
    rewrite (Z.mod_small (read_u16be buf i)) by lia. reflexivity.
Qed.

Lemma read_16_bytes_witness :
  read_u16le [0x34; 0x12]%list 0 = 0x34 + 256 * 0x12 /\
  read_u16be [0x34; 0x12]%list 0 = 256 * 0x34 + 0x12.
Proof.
  destruct (read_16_bytes [0x34; 0x12]%list 0) as (A & B & _).
  - vm_compute. split; [discriminate|reflexivity].
  - vm_compute. split; [discriminate|reflexivity].
  - split; [exact A|exact B].
Defined.

(** ** The Z80 *)

Lemma length_z80_format_operands (fuel : nat) :
  forall (curs : nat) (opr_byte : Z) (id : insn_decode),
    String.length (insn_string (z80_format_operands fuel curs opr_byte id)) =
    String.length (insn_string id).
Proof.
  induction fuel as [|fuel IH]; intros curs opr_byte id;
    cbn [z80_format_operands]; [reflexivity|].
  destruct (z80_next_operand (insn_string id) curs) as [[[r m] c']|] eqn:E;
    [|reflexivity].
  apply z80_next_operand_bounds in E as (E1 & E2 & E3 & E4).
  rewrite IH. apply length_z80_format_operand; [lia|exact E4].
Qed.

(** X14: the two operand loops of the Z80 decoder end and stay inside the
    array.  The formatter substitutes the operands in place: the array
    has as many characters after it as before, so no write goes past its
    end.  Each call of [z80_next_operand] moves the cursor forward inside
    the array, so both loops end within as many rounds as the array has
    characters: with more rounds allowed the results are the same. *)
Theorem z80_operand_loops_in_place (id : insn_decode) (more : nat) :
  let len := String.length (insn_string id) in
  let b0 := byte_at (bytes id) 0 in
  let opr_byte :=
    if (b0 =? 0xcb) || (b0 =? 0xed) then 2
    else if (b0 =? 0xdd) || (b0 =? 0xfd) then 2
    else 1 in
  String.length (insn_string (insn_decode_format_z80 id)) = len /\
  z80_format_operands (len + more) 0 opr_byte id = insn_decode_format_z80 id /\
  z80_count_operands (len + more) 0 id = z80_count_operands len 0 id /\
  (forall curs cp mode curs',
     z80_next_operand (insn_string id) curs = Some (cp, mode, curs') ->
     (curs <= cp)%nat /\ (cp < curs')%nat /\ (curs' <= len)%nat).
Proof.
  cbv zeta. repeat split.
  - unfold insn_decode_format_z80. cbv zeta. apply length_z80_format_operands.
  - apply insn_decode_format_z80_fuel.
  - apply z80_count_operands_fuel; lia.
  - unfold z80_next_operand in H.
    apply z80_scan_operand_bounds in H. lia.
  - apply z80_next_operand_bounds in H as (H1 & H2 & H3 & H4).
    unfold z80_operand_length in H2.
    repeat match goal with
    | H : context [if ?c then _ else _] |- _ => destruct c
    end; lia.
  - apply z80_next_operand_bounds in H. lia.
Qed.

(** After a write of [src] at [pos] the array is unchanged from the end of
    the write on. *)
Lemma buf_from_overwrite (src : string) :
  forall buf : string,
    buf_from (String.length src) (overwrite src buf) =
    buf_from (String.length src) buf.
Proof.
  induction src as [|c src IH]; intro buf; cbn [overwrite String.length buf_from].
  - reflexivity.
  - rewrite IH. destruct buf as [|x r]; [|reflexivity].
    destruct (String.length src); reflexivity.
Qed.

Lemma buf_from_buf_write (pos : nat) :
  forall (buf src : string),
    (pos <= String.length buf)%nat ->
    buf_from (pos + String.length src) (buf_write buf pos src) =
    buf_from (pos + String.length src) buf.
Proof.
  induction pos as [|pos IH]; intros buf src L; cbn [buf_write Nat.add].
  - apply buf_from_overwrite.
  - destruct buf as [|x r]; [cbn in L; lia|].
    cbn [buf_from]. apply IH. cbn in L. lia.
Qed.

Lemma length_substring_prefix (n : nat) :
  forall s : string,
    (n <= String.length s)%nat -> String.length (substring 0 n s) = n.
Proof.
  induction n as [|n IH]; intros s L.
  - destruct s; reflexivity.
  - destruct s as [|c s]; [cbn in L; lia|].
    cbn [substring String.length]. rewrite IH; [reflexivity|cbn in L; lia].
Qed.

Lemma length_fmt_ld_min (width : nat) (z : Z) :
  (width <= String.length (fmt_ld width z))%nat.
Proof.
  unfold fmt_ld, pad_right. rewrite length_append, length_repeat_char. lia.
Qed.

Lemma to_s8_small (v : Z) : -128 <= v <= 127 -> to_s8 v = v.
Proof.
  intro R. unfold to_s8, to_u8.
  destruct (Z_lt_dec v 0) as [Q|Q].
  - replace (v mod 256) with (v + 256)
      by (rewrite <- (Z.mod_add v 1 256), Z.mod_small; lia).
    destruct (_ <? _) eqn:E; [apply Z.ltb_lt in E|]; lia.
  - rewrite Z.mod_small by lia.
    destruct (_ <? _) eqn:E; [|apply Z.ltb_ge in E]; lia.
Qed.

Lemma to_s8_wrap (v : Z) : 128 <= v <= 255 -> to_s8 v = v - 256.
Proof.
  intro R. unfold to_s8, to_u8. rewrite Z.mod_small by lia.
  destruct (_ <? _) eqn:E; [apply Z.ltb_lt in E|]; lia.
Qed.

(** The Z80 formatter on a template whose only operand is a relative
    one. *)
Lemma z80_format_single_pcrel (fuel cp : nat) (k : Z) (id : insn_decode) :
  z80_next_operand (insn_string id) 0 = Some (cp, amz80_pcrel8, (cp + 4)%nat) ->
  z80_next_operand (insn_string id) (cp + 4) = None ->
  let id' := z80_format_operands (S (S fuel)) 0 k id in
  let s8 := to_s8 (to_s8 (byte_at (bytes id) k) + 2) in
  resolved_address id' = to_u32 (insn_address id + s8) /\
  resolved_address_valid id' = true.
Proof.
  intros H1 H2 id' s8. subst id'.
  pose proof (z80_next_operand_bounds _ _ _ _ _ H1) as (_ & _ & B & _).
  cbn [z80_format_operands]. rewrite H1.
  unfold z80_format_operand. eval_tests. cbv zeta. fold s8.
  cbn [set_resolved_address_valid set_resolved_address set_insn_string
       insn_string insn_address].
  assert (L : String.length (substring 0 4 (fmt_ld 4 s8)) = 4%nat)
    by (apply length_substring_prefix, length_fmt_ld_min).
  assert (N : z80_next_operand
                (buf_write (insn_string id) cp (substring 0 4 (fmt_ld 4 s8)))
                (cp + 4) = None).
  { unfold z80_next_operand in *. rewrite <- L at 1.
    rewrite buf_from_buf_write by lia. rewrite L. exact H2. }
  rewrite N. split; reflexivity.
Qed.

Lemma decode_bytes_two (cpu : cpu_t) (addr b d : Z) :
  decode_bytes cpu addr b [d]%list =
  fst (insn_decode_continue cpu
         (insn_decode_begin cpu (insn_decode_init cpu blank) addr b) d).
Proof. unfold decode_bytes. cbn [continue_all]. reflexivity. Qed.

(** The session after the first byte of a relative jump. *)
Lemma z80_relative_jump_begun (addr op : Z) :
  In op z80_relative_jumps ->
  let s1 := insn_decode_begin cpu_z80 (insn_decode_init cpu_z80 blank) addr op in
  state s1 = ds_fetching /\ bytes_fetched s1 = 1 /\
  bytes_required s1 = 2 /\ next_state s1 = Some ns_z80 /\
  insn_address s1 = to_u32 addr /\
  byte_at (bytes s1) 0 = op /\
  String.length (insn_string s1) = 28%nat /\
  (forall d, byte_at (byte_store (bytes s1) 1 d) 1 = to_u8 d) /\
  (if (op =? 0xcb) || (op =? 0xed) then 2
   else if (op =? 0xdd) || (op =? 0xfd) then 2 else 1) = 1 /\
  exists cp,
    z80_next_operand (insn_string s1) 0 =
      Some (cp, amz80_pcrel8, (cp + 4)%nat) /\
    z80_next_operand (insn_string s1) (cp + 4) = None.
Proof.
  intros I s1. subst s1.
  unfold z80_relative_jumps in I. cbn [In] in I.
  repeat (destruct I as [<-|I]; [
    do 4 (split; [vm_compute; reflexivity|]);
    split; [reflexivity|];
    do 2 (split; [vm_compute; reflexivity|]);
    split; [intro d; reflexivity|];
    split; [vm_compute; reflexivity|];
    first [ exists 3%nat; split; vm_compute; reflexivity
          | exists 5%nat; split; vm_compute; reflexivity
          | exists 6%nat; split; vm_compute; reflexivity ] |]).
  contradiction.
Qed.

(** The second byte of a relative jump, on a session that is as
    [z80_relative_jump_begun] says. *)
Lemma z80_relative_jump_completes (s1 : insn_decode) (op d : Z) (cp : nat) :
  state s1 = ds_fetching -> bytes_fetched s1 = 1 ->
  bytes_required s1 = 2 -> next_state s1 = Some ns_z80 ->
  byte_at (bytes s1) 0 = op ->
  String.length (insn_string s1) = 28%nat ->
  byte_at (byte_store (bytes s1) 1 d) 1 = to_u8 d ->
  (if (op =? 0xcb) || (op =? 0xed) then 2
   else if (op =? 0xdd) || (op =? 0xfd) then 2 else 1) = 1 ->
  z80_next_operand (insn_string s1) 0 =
    Some (cp, amz80_pcrel8, (cp + 4)%nat) ->
  z80_next_operand (insn_string s1) (cp + 4) = None ->
  let id := fst (insn_decode_continue cpu_z80 s1 d) in
  state id = ds_complete /\
  bytes_required id = 2 /\
  resolved_address_valid id = true /\
  resolved_address id = to_u32 (insn_address s1 + to_s8 (to_s8 d + 2)).
Proof.
  intros P1 P2 P3 P4 P6 L B1 Ek P7 P8 id.
  destruct (insn_decode_continue_cases cpu_z80 s1 d)
    as [(St & _)|[(_ & F & _)|(_ & _ & Ec)]];
    [congruence | rewrite P2 in F; discriminate F |].
  fold (append_byte d s1) in Ec.
  destruct (insn_decode_next_state_driver cpu_z80 ns_z80 (append_byte d s1) P4)
    as [s Es].
  assert (E : id = set_insn_string s
                     (insn_decode_next_state_z80 (append_byte d s1))).
  { subst id. rewrite Ec, Es. reflexivity. }
  clearbody id. clear Ec Es.
  assert (Er : insn_decode_next_state_z80 (append_byte d s1) =
               set_state ds_complete (insn_decode_format_z80 (append_byte d s1))).
  { rewrite routine_z80_resolved; [| exact P1 | cbn; lia | cbn; lia].
    cbn [append_byte set_bytes_fetched set_bytes bytes_fetched bytes_required].
    rewrite P2, P3. reflexivity. }
  rewrite Er in E. clear Er.
  set (x := append_byte d s1) in *.
  assert (X1 : insn_string x = insn_string s1) by reflexivity.
  assert (X2 : insn_address x = insn_address s1) by reflexivity.
  assert (X3 : bytes x = byte_store (bytes s1) (bytes_fetched s1) d) by reflexivity.
  assert (X4 : bytes_required x = bytes_required s1) by reflexivity.
  clearbody x. rewrite P2 in X3.
  destruct (insn_decode_format_z80_frame x) as (_ & _ & _ & G4 & _).
  assert (K : byte_at (bytes x) 0 = op)
    by (rewrite X3, byte_at_store_first_other by lia; exact P6).
  destruct (z80_format_single_pcrel 26 cp 1 x) as [T V].
  { rewrite X1. exact P7. }
  { rewrite X1. exact P8. }
  assert (F : insn_decode_format_z80 x = z80_format_operands 28 0 1 x).
  { unfold insn_decode_format_z80. rewrite K, Ek, X1, L. reflexivity. }
  rewrite <- F in T, V.
  rewrite X2, X3, B1, to_s8_to_u8 in T.
  subst id.
  cbn [set_insn_string set_state state bytes_required resolved_address
       resolved_address_valid].
  split; [reflexivity|]. split; [rewrite G4, X4; exact P3|].
  split; [exact V|exact T].
Qed.

(** X13: the target of a relative jump of the Z80.  [DJNZ], [JR] and the
    conditional [JR] complete with their second byte; the formatter adds
    2 to the displacement in an [int8_t], so the resolved address is the
    address of the instruction plus the sum wrapped to 8 bits: for the
    displacements 126 and 127 the target lies 256 below the address
    after the instruction plus the displacement. *)
Theorem z80_relative_jump_target (addr op d : Z) :
  In op z80_relative_jumps ->
  let id := decode_bytes cpu_z80 addr op [d]%list in
  let s8 := to_s8 (to_s8 d + 2) in
  state id = ds_complete /\
  bytes_required id = 2 /\
  resolved_address_valid id = true /\
  resolved_address id = to_u32 (to_u32 addr + s8) /\
  (to_s8 d < 126 -> s8 = to_s8 d + 2) /\
  (126 <= to_s8 d -> s8 = to_s8 d + 2 - 256).
Proof.
  intros I id s8.
  assert (W : (to_s8 d < 126 -> s8 = to_s8 d + 2) /\
              (126 <= to_s8 d -> s8 = to_s8 d + 2 - 256)).
  { pose proof (to_s8_range d) as R. subst s8. split; intro L.
    - apply to_s8_small. lia.
    - apply to_s8_wrap. lia. }
  destruct W as [W1 W2].
  subst id s8. rewrite decode_bytes_two.
  destruct (z80_relative_jump_begun addr op I)
    as (P1 & P2 & P3 & P4 & P5 & P6 & L & B1 & Ek & cp & P7 & P8).
  destruct (z80_relative_jump_completes _ op d cp P1 P2 P3 P4 P6 L (B1 d) Ek P7 P8)
    as (C1 & C2 & C3 & C4).
  rewrite P5 in C4.
  split; [exact C1|]. split; [exact C2|]. split; [exact C3|].
  split; [exact C4|]. split; [exact W1|exact W2].
Qed.

Lemma z80_relative_jump_target_witness :
  let id := decode_bytes cpu_z80 0x1000 0x18 [0x7f]%list in
  state id = ds_complete /\ resolved_address id = 0x1000 - 127.
Proof.
  destruct (z80_relative_jump_target 0x1000 0x18 0x7f) as (A & _ & _ & B & _).
  - right. left. reflexivity.
  - split; [exact A|exact B].
Defined.

(** ** Branch targets of the 6800 and the 6502 *)

Lemma m6800_branch_begun (addr op : Z) :
  In op m6800_branches ->
  let s1 := insn_decode_begin cpu_6800 (insn_decode_init cpu_6800 blank) addr op in
  state s1 = ds_fetching /\ bytes_fetched s1 = 1 /\
  bytes_required s1 = 2 /\ next_state s1 = Some ns_6800 /\
  addrmode s1 = am6800_rel /\
  insn_address s1 = to_u32 addr /\
  (forall d, byte_at (byte_store (bytes s1) 1 d) 1 = to_u8 d).
Proof.
  intros I s1. subst s1.
  unfold m6800_branches in I. cbn [In] in I.
  repeat (destruct I as [<-|I]; [
    do 5 (split; [vm_compute; reflexivity|]);
    split; [reflexivity|intro d; reflexivity] |]).
  contradiction.
Qed.

Lemma m6800_branch_completes (s1 : insn_decode) (d : Z) :
  state s1 = ds_fetching -> bytes_fetched s1 = 1 ->
  bytes_required s1 = 2 -> next_state s1 = Some ns_6800 ->
  addrmode s1 = am6800_rel ->
  byte_at (byte_store (bytes s1) 1 d) 1 = to_u8 d ->
  let id := fst (insn_decode_continue cpu_6800 s1 d) in
  state id = ds_complete /\
  bytes_fetched id = 2 /\
  resolved_address_valid id = true /\
  resolved_address id = to_u32 (insn_address s1 + 2 + to_s8 d).
Proof.
  intros P1 P2 P3 P4 P5 B1 id.
  destruct (insn_decode_continue_cases cpu_6800 s1 d)
    as [(St & _)|[(_ & F & _)|(_ & _ & Ec)]];
    [congruence | rewrite P2 in F; discriminate F |].
  fold (append_byte d s1) in Ec.
  destruct (insn_decode_next_state_driver cpu_6800 ns_6800 (append_byte d s1) P4)
    as [s Es].
  assert (E : id = set_insn_string s
                     (insn_decode_next_state_6800 (append_byte d s1))).
  { subst id. rewrite Ec, Es. reflexivity. }
  clearbody id. clear Ec Es.
  assert (Er : insn_decode_next_state_6800 (append_byte d s1) =
               set_state ds_complete (insn_decode_format_6800 (append_byte d s1))).
  { rewrite routine_6800_resolved; [| exact P1 | cbn; lia | cbn; lia].
    cbn [append_byte set_bytes_fetched set_bytes bytes_fetched bytes_required].
    rewrite P2, P3. reflexivity. }
  rewrite Er in E. clear Er.
  set (x := append_byte d s1) in *.
  assert (X1 : addrmode x = addrmode s1) by reflexivity.
  assert (X2 : insn_address x = insn_address s1) by reflexivity.
  assert (X3 : bytes x = byte_store (bytes s1) (bytes_fetched s1) d) by reflexivity.
  assert (X4 : bytes_fetched x = bytes_fetched s1 + 1) by reflexivity.
  clearbody x. rewrite P2 in X3, X4. rewrite P5 in X1.
  destruct (insn_decode_format_6800_frame x) as (_ & _ & _ & _ & G5 & _).
  assert (T : resolved_address (insn_decode_format_6800 x) =
              to_u32 (insn_address s1 + 2 + to_s8 d) /\
              resolved_address_valid (insn_decode_format_6800 x) = true).
  { unfold insn_decode_format_6800. cbv zeta. rewrite X1. eval_tests.
    cbn [sprintf_insn_string set_insn_string set_resolved_address
         set_resolved_address_valid resolved_address resolved_address_valid
         insn_address bytes].
    rewrite X2, X3, B1, to_s8_to_u8. split; reflexivity. }
  destruct T as [T V].
  subst id.
  cbn [set_insn_string set_state state bytes_fetched resolved_address
       resolved_address_valid].
  split; [reflexivity|]. split; [rewrite G5, X4; reflexivity|].
  split; [exact V|exact T].
Qed.

(** X11: the target of a branch of the 6800.  The sixteen branches and
    [BSR] complete with their second byte, and the resolved address is
    the address after the instruction, [insn_address + 2], plus the
    signed offset, modulo [2^32]. *)
Theorem m6800_branch_target (addr op d : Z) :
  In op m6800_branches ->
  let id := decode_bytes cpu_6800 addr op [d]%list in
  state id = ds_complete /\
  bytes_fetched id = 2 /\
  resolved_address_valid id = true /\
  resolved_address id = to_u32 (to_u32 addr + 2 + to_s8 d).
Proof.
  intros I id. subst id. rewrite decode_bytes_two.
  destruct (m6800_branch_begun addr op I)
    as (P1 & P2 & P3 & P4 & P5 & P6 & B1).
  destruct (m6800_branch_completes _ d P1 P2 P3 P4 P5 (B1 d))
    as (C1 & C2 & C3 & C4).
  rewrite P6 in C4. repeat split; assumption.
Qed.

Lemma m6800_branch_target_witness :
  let id := decode_bytes cpu_6800 0x1003 0x20 [0xfd]%list in
  state id = ds_complete /\ resolved_address id = 0x1002.
Proof.
  destruct (m6800_branch_target 0x1003 0x20 0xfd) as (A & _ & _ & B).
  - left. reflexivity.
  - split; [exact A|exact B].
Defined.

Lemma m6502_branch_begun (cpu : cpu_t) (addr op : Z) :
  cpu = cpu_6502 \/ cpu = cpu_65c02 ->
  In op (m6502_branches cpu) ->
  let s1 := insn_decode_begin cpu (insn_decode_init cpu blank) addr op in
  let tmpl :=
    opcode_at (if cpu_eqb cpu cpu_65c02 then opcodes_65c02 else opcodes_6502) op in
  state s1 = ds_fetching /\ bytes_fetched s1 = 1 /\
  bytes_required s1 = 2 /\ next_state s1 = Some ns_6502 /\
  addrmode s1 = am6502_rel8 /\
  byte_at (bytes s1) 0 = op /\
  no_nul tmpl = true /\
  String.index 0 "rrrr" tmpl = Some 4%nat /\
  insn_address s1 = to_u32 addr /\
  (forall d, byte_at (byte_store (bytes s1) 1 d) 1 = to_u8 d).
Proof.
  intros C I s1 tmpl. subst s1 tmpl.
  destruct C as [-> | ->]; unfold m6502_branches in I;
    cbn [cpu_eqb app In] in I;
    repeat (destruct I as [<-|I]; [
      do 8 (split; [vm_compute; reflexivity|]);
      split; [reflexivity|intro d; reflexivity] |]);
    contradiction.
Qed.

Lemma m6502_branch_completes (cpu : cpu_t) (s1 : insn_decode) (op d : Z) :
  let tmpl :=
    opcode_at (if cpu_eqb cpu cpu_65c02 then opcodes_65c02 else opcodes_6502) op in
  state s1 = ds_fetching -> bytes_fetched s1 = 1 ->
  bytes_required s1 = 2 -> next_state s1 = Some ns_6502 ->
  addrmode s1 = am6502_rel8 ->
  byte_at (bytes s1) 0 = op ->
  no_nul tmpl = true ->
  String.index 0 "rrrr" tmpl = Some 4%nat ->
  byte_at (byte_store (bytes s1) 1 d) 1 = to_u8 d ->
  let id := fst (insn_decode_continue cpu s1 d) in
  state id = ds_complete /\
  bytes_fetched id = 2 /\
  resolved_address_valid id = true /\
  resolved_address id = to_u32 (insn_address s1 + 2 + to_s8 d).
Proof.
  intros tmpl P1 P2 P3 P4 P5 P6 Nn Ix B1 id.
  destruct (insn_decode_continue_cases cpu s1 d)
    as [(St & _)|[(_ & F & _)|(_ & _ & Ec)]];
    [congruence | rewrite P2 in F; discriminate F |].
  fold (append_byte d s1) in Ec.
  destruct (insn_decode_next_state_driver cpu ns_6502 (append_byte d s1) P4)
    as [s Es].
  assert (E : id = set_insn_string s
                     (insn_decode_next_state_6502 cpu (append_byte d s1))).
  { subst id. rewrite Ec, Es. reflexivity. }
  clearbody id. clear Ec Es.
  assert (Er : insn_decode_next_state_6502 cpu (append_byte d s1) =
               set_state ds_complete
                 (insn_decode_format_6502 cpu (append_byte d s1))).
  { rewrite routine_6502_resolved; [| exact P1 | cbn; lia | cbn; lia].
    cbn [append_byte set_bytes_fetched set_bytes bytes_fetched bytes_required].
    rewrite P2, P3. reflexivity. }
  rewrite Er in E. clear Er.
  set (x := append_byte d s1) in *.
  assert (X1 : addrmode x = addrmode s1) by reflexivity.
  assert (X2 : insn_address x = insn_address s1) by reflexivity.
  assert (X3 : bytes x = byte_store (bytes s1) (bytes_fetched s1) d) by reflexivity.
  assert (X4 : bytes_fetched x = bytes_fetched s1 + 1) by reflexivity.
  assert (X5 : bytes_required x = bytes_required s1) by reflexivity.
  clearbody x. rewrite P2 in X3, X4. rewrite P5 in X1. rewrite P3 in X5.
  destruct (insn_decode_format_6502_frame cpu x) as (_ & _ & _ & _ & G5 & _).
  assert (K : byte_at (bytes x) 0 = op)
    by (rewrite X3, byte_at_store_first_other by lia; exact P6).
  assert (T : resolved_address (insn_decode_format_6502 cpu x) =
              to_u32 (insn_address s1 + 2 + to_s8 d) /\
              resolved_address_valid (insn_decode_format_6502 cpu x) = true).
  { unfold insn_decode_format_6502. cbv zeta.
    cbn [set_insn_string addrmode insn_string bytes insn_address bytes_required].
    rewrite X1, K. eval_tests.
    fold tmpl. unfold strstr. rewrite c_str_strcpy by exact Nn. rewrite Ix.
    cbn [set_insn_string set_resolved_address set_resolved_address_valid
         resolved_address resolved_address_valid insn_address bytes
         bytes_required].
    rewrite X2, X3, X5, B1, to_s8_to_u8. split; reflexivity. }
  destruct T as [T V].
  subst id.
  cbn [set_insn_string set_state state bytes_fetched resolved_address
       resolved_address_valid].
  split; [reflexivity|]. split; [rewrite G5, X4; reflexivity|].
  split; [exact V|exact T].
Qed.

(** X12: the target of a branch of the 6502 and of the 65C02.  The
    instructions whose template has the operand [rrrr] complete with their
    second byte, and the resolved address is the address of the
    instruction plus its length 2 plus the signed offset, modulo
    [2^32]. *)
Theorem m6502_branch_target (cpu : cpu_t) (addr op d : Z) :
  cpu = cpu_6502 \/ cpu = cpu_65c02 ->
  In op (m6502_branches cpu) ->
  let id := decode_bytes cpu addr op [d]%list in
  state id = ds_complete /\
  bytes_fetched id = 2 /\
  resolved_address_valid id = true /\
  resolved_address id = to_u32 (to_u32 addr + 2 + to_s8 d).
Proof.
  intros C I id. subst id. rewrite decode_bytes_two.
  destruct (m6502_branch_begun cpu addr op C I)
    as (P1 & P2 & P3 & P4 & P5 & P6 & Nn & Ix & P7 & B1).
  destruct (m6502_branch_completes cpu _ op d P1 P2 P3 P4 P5 P6 Nn Ix (B1 d))
    as (C1 & C2 & C3 & C4).
  rewrite P7 in C4. repeat split; assumption.
Qed.

Lemma m6502_branch_target_witness :
  let id := decode_bytes cpu_6502 0x1006 0x10 [0x10]%list in
  state id = ds_complete /\ resolved_address id = 0x1018.
Proof.
  destruct (m6502_branch_target cpu_6502 0x1006 0x10 0x10) as (A & _ & _ & B).
  - left. reflexivity.
  - left. reflexivity.
  - split; [exact A|exact B].
Defined.

(** ** Register lists and short offsets of the 6809 *)

Lemma append_assoc (s t u : string) : (s ++ t) ++ u = s ++ t ++ u.
Proof. induction s as [|c s IH]; cbn; [reflexivity|rewrite IH; reflexivity]. Qed.

Lemma no_nul_psh_pul_row (b0 pb bit : Z) (reg : option string) :
  In (bit, reg) psh_pul_regnames ->
  no_nul ((if negb (Z.land pb (bit - 1) =? 0) then "," else "")
          ++ match reg with
             | Some r => r
             | None => if (b0 =? 0x34) || (b0 =? 0x35) then "U" else "S"
             end) = true.
Proof.
  intro I. unfold psh_pul_regnames in I. cbn [In] in I.
  repeat (destruct I as [I|I]; [injection I as <- <-;
    destruct (negb _); try destruct (_ || _); reflexivity|]).
  contradiction.
Qed.

Lemma psh_pul_loop_text (tbl : list (Z * option string)) :
  forall (i : Z) (bp : nat) (id : insn_decode),
    (forall row, In row tbl -> In row psh_pul_regnames) ->
    bp = strlen (insn_string id) ->
    c_str (insn_string (psh_pul_loop tbl i bp id)) =
    c_str (insn_string id)
    ++ psh_pul_text tbl (byte_at (bytes id) 0) (byte_at (bytes id) i).
Proof.
  induction tbl as [|[bit reg] tbl IH]; intros i bp id Sub Ebp;
    cbn [psh_pul_loop psh_pul_text].
  - rewrite append_empty_r. reflexivity.
  - destruct (bit =? 0); [rewrite append_empty_r; reflexivity|].
    assert (Sub' : forall row, In row tbl -> In row psh_pul_regnames)
      by (intros row I; apply Sub; right; exact I).
    destruct (negb (Z.land (byte_at (bytes id) i) bit =? 0)).
    + pose proof (no_nul_psh_pul_row (byte_at (bytes id) 0)
                    (byte_at (bytes id) i) bit reg (Sub _ (or_introl eq_refl)))
        as Nn.
      set (text := _ ++ _) in Nn |- *.
      rewrite IH; [| exact Sub' |].
      * cbn [set_insn_string insn_string bytes]. subst bp.
        rewrite c_str_strcpy_at_end by exact Nn.
        rewrite append_assoc. subst text. rewrite append_assoc. reflexivity.
      * cbn [set_insn_string insn_string]. subst bp. unfold strlen.
        rewrite c_str_strcpy_at_end by exact Nn.
        rewrite length_append. reflexivity.
    + apply IH; assumption.
Qed.

Lemma psh_pul_text_names (b0 pb : Z) :
  0 <= pb < 256 ->
  psh_pul_text psh_pul_regnames b0 pb = String.concat "," (psh_pul_names b0 pb).
Proof.
  intro R.
  assert (T : forall us : bool,
            all_from
              (fun p => String.eqb
                 (psh_pul_text psh_pul_regnames (if us then 0x34 else 0x36) p)
                 (String.concat "," (psh_pul_names (if us then 0x34 else 0x36) p)))
              0 256 = true)
    by (intros [|]; vm_compute; reflexivity).
  assert (G : forall us : bool,
            psh_pul_text psh_pul_regnames (if us then 0x34 else 0x36) pb =
            String.concat "," (psh_pul_names (if us then 0x34 else 0x36) pb)).
  { intro us. apply String.eqb_eq.
    apply (all_from_spec _ 256 0 (T us)). lia. }
  destruct ((b0 =? 0x34) || (b0 =? 0x35)) eqn:E.
  - specialize (G true). cbv beta iota in G.
    unfold psh_pul_names, psh_pul_regnames in *.
    cbn [psh_pul_text flat_map fst snd] in *.
    rewrite E. change ((52 =? 52) || (52 =? 53)) with true in G. exact G.
  - specialize (G false). cbv beta iota in G.
    unfold psh_pul_names, psh_pul_regnames in *.
    cbn [psh_pul_text flat_map fst snd] in *.
    rewrite E. change ((54 =? 52) || (54 =? 53)) with false in G. exact G.
Qed.

(** [eval_tests] for the tests that do not mention [x]. *)
Ltac eval_tests_without x :=
  repeat match goal with
  | |- context [if ?c then _ else _] =>
      lazymatch c with
      | context [x] => fail
      | _ => idtac
      end;
      let v := eval vm_compute in c in
      lazymatch v with
      | true => change c with true
      | false => change c with false
      end; cbv beta iota
  end.

(** X9: the register list of [PSHS], [PULS], [PSHU] and [PULU].  For the
    mode [am6809_psh_pul] the 6809 formatter prints the mnemonic, a blank
    and the names of the registers whose bit is set in the postbyte, in
    the order [CCR], [A], [B], [DPR], [X], [Y], the other stack pointer,
    [PC], separated by commas; bit [0x40] is [U] for the opcodes [0x34]
    and [0x35] and [S] otherwise.  With no bit set the text ends in the
    blank. *)
Theorem format_6809_psh_pul_registers (id : insn_decode) :
  addrmode id = am6809_psh_pul ->
  let b0 := byte_at (bytes id) 0 in
  let prefixed := (b0 =? 0x10) || (b0 =? 0x11) in
  let i := if prefixed then 2 else 1 in
  let opc :=
    if prefixed
    then extopc_mnemonic_6809 (Z.lor (Z.shiftl b0 8) (byte_at (bytes id) 1))
    else opcode_at opcodes_6809 b0 in
  0 <= byte_at (bytes id) i < 256 ->
  c_str (insn_string (insn_decode_format_6809 id)) =
    opc ++ " " ++ String.concat "," (psh_pul_names b0 (byte_at (bytes id) i)).
Proof.
  intros H b0 prefixed i opc R.
  assert (Nopc : no_nul opc = true).
  { subst opc. destruct prefixed.
    - apply no_nul_extopc_mnemonic_6809.
    - apply no_nul_opcode_at. reflexivity. }
  unfold insn_decode_format_6809. cbv beta zeta.
  fold b0. fold prefixed. fold i. fold opc.
  rewrite H. eval_tests_without id.
  assert (Nh : no_nul (opc ++ " ") = true)
    by (rewrite no_nul_app, Nopc; reflexivity).
  assert (L : c_str (insn_string
                (psh_pul_loop psh_pul_regnames i (String.length (opc ++ " "))
                   (sprintf_insn_string (opc ++ " ") id))) =
              opc ++ " " ++ String.concat "," (psh_pul_names b0 (byte_at (bytes id) i))).
  { rewrite psh_pul_loop_text.
    - cbn [sprintf_insn_string set_insn_string insn_string bytes].
      rewrite c_str_strcpy by exact Nh. fold b0.
      rewrite psh_pul_text_names by exact R.
      rewrite append_assoc. reflexivity.
    - auto.
    - cbn [sprintf_insn_string set_insn_string insn_string]. unfold strlen.
      rewrite c_str_strcpy by exact Nh. reflexivity. }
  destruct (psh_pul_loop_frame psh_pul_regnames i (String.length (opc ++ " "))
              (sprintf_insn_string (opc ++ " ") id) id) as (_ & _ & _ & _ & _ & F6 & _).
  { unfold sprintf_insn_string. repeat split. }
  rewrite F6, H. eval_tests_without id. exact L.
Qed.

Lemma format_6809_psh_pul_registers_witness :
  let id := decode_bytes cpu_6809e 0 0x34 [0x46]%list in
  c_str (insn_string (insn_decode_format_6809 id)) = "PSHS A,B,U".
Proof.
  apply (format_6809_psh_pul_registers (decode_bytes cpu_6809e 0 0x34 [0x46]%list)).
  - reflexivity.
  - vm_compute. split; [discriminate|reflexivity].
Defined.

Lemma const_off5_shifts_id (v : Z) : 0 <= v < 32 -> const_off5_shifts v = v.
Proof.
  intro R. apply Z.eqb_eq.
  apply (all_from_spec (fun z => const_off5_shifts z =? z) 32 0); [|lia].
  vm_compute. reflexivity.
Qed.

(** X10: the 5-bit constant offset of the 6809.  For the mode
    [am6809_const_off5] the formatter shows the low five bits of the
    postbyte as a number from 0 to 31: the two shifts that are meant to
    extend the sign are done in [int], which is 32 bits wide, and leave
    the value as it is.  The text is the mnemonic, the offset and the
    index register. *)
Theorem format_6809_const_off5_operand (id : insn_decode) :
  addrmode id = am6809_const_off5 ->
  let b0 := byte_at (bytes id) 0 in
  let prefixed := (b0 =? 0x10) || (b0 =? 0x11) in
  let i := if prefixed then 2 else 1 in
  let opc :=
    if prefixed
    then extopc_mnemonic_6809 (Z.lor (Z.shiftl b0 8) (byte_at (bytes id) 1))
    else opcode_at opcodes_6809 b0 in
  let xreg :=
    opcode_at index_regnames (Z.land (Z.shiftr (byte_at (bytes id) i) 5) 3) in
  let offset := Z.land (byte_at (bytes id) i) 0x1f in
  0 <= offset <= 31 /\
  c_str (insn_string (insn_decode_format_6809 id)) =
    opc ++ " " ++ fmt_d offset ++ "," ++ xreg.
Proof.
  intros H b0 prefixed i opc xreg offset.
  assert (R : 0 <= offset < 32).
  { subst offset. change 0x1f with (Z.ones 5).
    rewrite Z.land_ones by lia. apply Z.mod_pos_bound. lia. }
  split; [lia|].
  assert (Nopc : no_nul opc = true).
  { subst opc. destruct prefixed.
    - apply no_nul_extopc_mnemonic_6809.
    - apply no_nul_opcode_at. reflexivity. }
  assert (Nx : no_nul xreg = true)
    by (apply no_nul_opcode_at; reflexivity).
  unfold insn_decode_format_6809. cbv beta zeta.
  fold b0. fold prefixed. fold i. fold opc. fold xreg. fold offset.
  fold (const_off5_shifts offset). rewrite (const_off5_shifts_id offset R).
  rewrite H. eval_tests.
  cbn [sprintf_insn_string set_insn_string insn_string addrmode].
  rewrite H. eval_tests.
  cbn [sprintf_insn_string set_insn_string insn_string].
  rewrite c_str_strcpy.
  - rewrite ?append_empty_r. reflexivity.
  - rewrite !no_nul_app, Nopc, Nx, no_nul_fmt_d. reflexivity.
Qed.

Lemma format_6809_const_off5_operand_witness :
  let id := decode_bytes cpu_6809 0 0x31 [0x3f]%list in
  c_str (insn_string (insn_decode_format_6809 id)) = "LEAY 31,Y".
Proof.
  apply (format_6809_const_off5_operand (decode_bytes cpu_6809 0 0x31 [0x3f]%list)).
  reflexivity.
Defined.
